(** * A shallow embedding of the ActiveJS core (packages/core/src)

    Values are modelled as the JavaScript values the Units hold: primitives,
    arrays and plain objects (with a reference id, so that [===] compares
    arrays and objects by identity) and functions (only their identity).
    Numbers are modelled as integers together with the three non-finite
    IEEE values; fractional numbers are not modelled. *)

From Stdlib Require Import String Ascii ZArith Bool Lia List.
Import ListNotations.
Set Warnings "-register-all".

(** ** JavaScript values *)

Inductive num :=
| NFin (z : Z)
| NInf
| NNegInf
| NNaN.

Inductive jsval :=
| JUndefined
| JNull
| JBool (b : bool)
| JNum (n : num)
| JStr (s : string)
| JArr (ref : nat) (items : list jsval)
| JObj (ref : nat) (props : list (string * jsval))
| JFun (ref : nat).

(** Nested induction principle for [jsval]. *)
Section JsvalInd.
Variable P : jsval -> Prop.
Hypothesis HUndef : P JUndefined.
Hypothesis HNull : P JNull.
Hypothesis HBool : forall b, P (JBool b).
Hypothesis HNum : forall n, P (JNum n).
Hypothesis HStr : forall s, P (JStr s).
Hypothesis HArr : forall r l, Forall P l -> P (JArr r l).
Hypothesis HObj : forall r ps, Forall (fun p => P (snd p)) ps -> P (JObj r ps).
Hypothesis HFun : forall r, P (JFun r).

Fixpoint jsval_ind' (v : jsval) : P v :=
  match v with
  | JUndefined => HUndef
  | JNull => HNull
  | JBool b => HBool b
  | JNum n => HNum n
  | JStr s => HStr s
  | JArr r l =>
      HArr r l
        ((fix go (l : list jsval) : Forall P l :=
            match l with
            | [] => Forall_nil _
            | x :: t => Forall_cons _ (jsval_ind' x) (go t)
            end) l)
  | JObj r ps =>
      HObj r ps
        ((fix go (ps : list (string * jsval)) : Forall (fun p => P (snd p)) ps :=
            match ps with
            | [] => Forall_nil _
            | p :: t => Forall_cons _ (jsval_ind' (snd p)) (go t)
            end) ps)
  | JFun r => HFun r
  end.
End JsvalInd.

(** Strict equality [===]: [NaN] is not equal to itself, arrays, objects and
    functions compare by reference. *)
Definition num_strict_eq (a b : num) : bool :=
  match a, b with
  | NFin x, NFin y => Z.eqb x y
  | NInf, NInf => true
  | NNegInf, NNegInf => true
  | _, _ => false
  end.

Definition strict_eq (a b : jsval) : bool :=
  match a, b with
  | JUndefined, JUndefined => true
  | JNull, JNull => true
  | JBool x, JBool y => Bool.eqb x y
  | JNum x, JNum y => num_strict_eq x y
  | JStr x, JStr y => String.eqb x y
  | JArr r _, JArr s _ => Nat.eqb r s
  | JObj r _, JObj s _ => Nat.eqb r s
  | JFun r, JFun s => Nat.eqb r s
  | _, _ => false
  end.

(** Truthiness, as used by [if (savedState)]. *)
Definition truthy (v : jsval) : bool :=
  match v with
  | JUndefined | JNull => false
  | JBool b => b
  | JNum (NFin z) => negb (Z.eqb z 0)
  | JNum NNaN => false
  | JNum _ => true
  | JStr s => negb (String.eqb s ""%string)
  | _ => true
  end.

(** Own-property lookup [o[k]] on a plain object; [undefined] otherwise. *)
Fixpoint lookup_prop (k : string) (ps : list (string * jsval)) : jsval :=
  match ps with
  | [] => JUndefined
  | (k', v) :: t => if String.eqb k k' then v else lookup_prop k t
  end.

Definition get_prop (o : jsval) (k : string) : jsval :=
  match o with
  | JObj _ ps => lookup_prop k ps
  | _ => JUndefined
  end.

(** The shape of a value: the value with every reference id erased.  Two
    values have the same shape when a deep structural comparison (as done by
    the tests' [toEqual]) finds them equal. *)
Inductive shape :=
| SUndefined
| SNull
| SBool (b : bool)
| SNum (n : num)
| SStr (s : string)
| SArr (items : list shape)
| SObj (props : list (string * shape))
| SFun.

Fixpoint strip (v : jsval) : shape :=
  match v with
  | JUndefined => SUndefined
  | JNull => SNull
  | JBool b => SBool b
  | JNum n => SNum n
  | JStr s => SStr s
  | JArr _ l => SArr (map strip l)
  | JObj _ ps => SObj (map (fun p => (fst p, strip (snd p))) ps)
  | JFun _ => SFun
  end.

(** ** utils/funcs *)

(** [isNumber]: [typeof n === 'number' && !isNaN(n)]. *)
Definition isNumber (v : jsval) : bool :=
  match v with
  | JNum NNaN => false
  | JNum _ => true
  | _ => false
  end.

(** [isDict]: [Object.prototype.toString.call(o) === '[object Object]']. *)
Definition isDict (v : jsval) : bool :=
  match v with
  | JObj _ _ => true
  | _ => false
  end.

(** [isSerializable] (its first component). *)
Fixpoint isSerializable (v : jsval) : bool :=
  match v with
  | JUndefined | JNull | JStr _ | JBool _ | JNum _ => true
  | JArr _ l => forallb isSerializable l
  | JObj _ ps =>
      (fix go (ps : list (string * jsval)) : bool :=
         match ps with
         | [] => true
         | (_, x) :: t => isSerializable x && go t
         end) ps
  | JFun _ => false
  end.

(** [deepCopy]: arrays and plain objects are rebuilt with fresh references
    taken from the allocator [h]; every other value is returned as is. *)
Fixpoint deepCopy (h : nat) (v : jsval) : nat * jsval :=
  match v with
  | JArr _ l =>
      let '(h1, l') :=
        (fix go (h : nat) (l : list jsval) : nat * list jsval :=
           match l with
           | [] => (h, [])
           | x :: t =>
               let '(h', x') := deepCopy h x in
               let '(h'', t') := go h' t in (h'', x' :: t')
           end) h l in
      (S h1, JArr h1 l')
  | JObj _ ps =>
      let '(h1, ps') :=
        (fix go (h : nat) (ps : list (string * jsval)) : nat * list (string * jsval) :=
           match ps with
           | [] => (h, [])
           | (k, x) :: t =>
               let '(h', x') := deepCopy h x in
               let '(h'', t') := go h' t in (h'', (k, x') :: t')
           end) h ps in
      (S h1, JObj h1 ps')
  | _ => (h, v)
  end.

(** ** JSON, as used by lib/persistence.ts

    The storage holds the string written by [JSON.stringify]; it is modelled
    by the JSON tree that string denotes, which is what [JSON.parse] reads
    back from it. *)

Inductive json :=
| JSNull
| JSBool (b : bool)
| JSNum (z : Z)
| JSStr (s : string)
| JSArr (items : list json)
| JSObj (props : list (string * json)).

(** [JSON.stringify] of a value: [None] where JSON has no representation
    ([undefined] and functions: dropped from objects, [null] in arrays);
    non-finite numbers become [null]. *)
Fixpoint stringify (v : jsval) : option json :=
  match v with
  | JUndefined => None
  | JFun _ => None
  | JNull => Some JSNull
  | JBool b => Some (JSBool b)
  | JNum (NFin z) => Some (JSNum z)
  | JNum _ => Some JSNull
  | JStr s => Some (JSStr s)
  | JArr _ l =>
      Some (JSArr (map (fun x => match stringify x with
                                 | Some j => j
                                 | None => JSNull
                                 end) l))
  | JObj _ ps =>
      Some (JSObj
        ((fix go (ps : list (string * jsval)) : list (string * json) :=
            match ps with
            | [] => []
            | (k, x) :: t =>
                match stringify x with
                | Some j => (k, j) :: go t
                | None => go t
                end
            end) ps))
  end.

(** [JSON.parse]: arrays and objects are allocated with fresh references. *)
Fixpoint parse (h : nat) (j : json) : nat * jsval :=
  match j with
  | JSNull => (h, JNull)
  | JSBool b => (h, JBool b)
  | JSNum z => (h, JNum (NFin z))
  | JSStr s => (h, JStr s)
  | JSArr l =>
      let '(h1, l') :=
        (fix go (h : nat) (l : list json) : nat * list jsval :=
           match l with
           | [] => (h, [])
           | x :: t =>
               let '(h', x') := parse h x in
               let '(h'', t') := go h' t in (h'', x' :: t')
           end) h l in
      (S h1, JArr h1 l')
  | JSObj ps =>
      let '(h1, ps') :=
        (fix go (h : nat) (ps : list (string * json)) : nat * list (string * jsval) :=
           match ps with
           | [] => (h, [])
           | (k, x) :: t =>
               let '(h', x') := parse h x in
               let '(h'', t') := go h' t in (h'', (k, x') :: t')
           end) h ps in
      (S h1, JObj h1 ps')
  end.

(** The JavaScript heap allocator and the storages (a [Storage] is named by a
    number; each maps keys to stored JSON strings). *)
Record world := mkWorld {
  next_ref : nat;
  stores : list ((nat * string) * json)
}.

Fixpoint store_get (sid : nat) (k : string) (st : list ((nat * string) * json)) : option json :=
  match st with
  | [] => None
  | ((sid', k'), j) :: t =>
      if Nat.eqb sid sid' && String.eqb k k' then Some j else store_get sid k t
  end.

Definition store_set (sid : nat) (k : string) (j : json) (st : list ((nat * string) * json))
  : list ((nat * string) * json) :=
  ((sid, k), j) :: st.

Definition store_remove (sid : nat) (k : string) (st : list ((nat * string) * json))
  : list ((nat * string) * json) :=
  filter (fun e => negb (Nat.eqb sid (fst (fst e)) && String.eqb k (snd (fst e)))) st.

Definition KeyPrefix : string := "_AJS_UNIT_"%string.

(** [save(key, value, storage)]: [storage.setItem(KeyPrefix + key, JSON.stringify({value}))]. *)
Definition save (key : string) (value : jsval) (sid : nat) (w : world) : world :=
  let wrapped :=
    match stringify value with
    | Some j => JSObj [("value"%string, j)]
    | None => JSObj []
    end in
  mkWorld (next_ref w) (store_set sid (KeyPrefix ++ key)%string wrapped (stores w)).

(** [retrieve(key, storage)]: [JSON.parse(storage.getItem(KeyPrefix + key))];
    a missing item is [null], and [JSON.parse(null)] is [null]. *)
Definition retrieve (key : string) (sid : nat) (w : world) : world * jsval :=
  match store_get sid (KeyPrefix ++ key)%string (stores w) with
  | None => (w, JNull)
  | Some j =>
      let '(h', v) := parse (next_ref w) j in
      (mkWorld h' (stores w), v)
  end.

(** [remove(key, storage)]. *)
Definition remove (key : string) (sid : nat) (w : world) : world :=
  mkWorld (next_ref w) (store_remove sid (KeyPrefix ++ key)%string (stores w)).

(** ** The Unit flavors and their [isValidValue] / [defaultValue] *)

Inductive flavor :=
| BoolUnit
| NumUnit
| StringUnit
| ListUnit
| DictUnit
| GenericUnit.

(** [isValidValue] of each flavor (the [typeValidator]). *)
Definition isValidValue (f : flavor) (v : jsval) : bool :=
  match f with
  | BoolUnit => match v with JBool _ => true | _ => false end
  | NumUnit => isNumber v
  | StringUnit => match v with JStr _ => true | _ => false end
  | ListUnit => match v with JArr _ _ => true | _ => false end
  | DictUnit => isDict v
  | GenericUnit => true
  end.

(** Every flavor but GenericUnit overrides [wouldDispatch] as
    [this.isValidValue(value) && super.wouldDispatch(value, force)]. *)
Definition overridesWouldDispatch (f : flavor) : bool :=
  match f with
  | GenericUnit => false
  | _ => true
  end.

(** [defaultValue()]: ListUnit and DictUnit allocate a new [[]] / [{}] on
    every call. *)
Definition defaultValue (f : flavor) (h : nat) : nat * jsval :=
  match f with
  | BoolUnit => (h, JBool false)
  | NumUnit => (h, JNum (NFin 0))
  | StringUnit => (h, JStr ""%string)
  | ListUnit => (S h, JArr h [])
  | DictUnit => (S h, JObj h [])
  | GenericUnit => (h, JUndefined)
  end.

(** [unit instanceof NonPrimitiveUnitBase]. *)
Definition isNonPrimitive (f : flavor) : bool :=
  match f with
  | ListUnit | DictUnit | GenericUnit => true
  | _ => false
  end.

(** ** Configuration (the merged [UnitConfig] a Unit is constructed with) *)

Record UnitConfig := mkConfig {
  cfg_id : option string;
  cfg_cacheSize : jsval;
  cfg_initialValue : jsval;
  cfg_immutable : bool;                      (* immutable === true *)
  cfg_persistent : bool;                     (* persistent === true *)
  cfg_storage : nat;
  cfg_distinctDispatchCheck : bool;          (* distinctDispatchCheck === true *)
  cfg_customDispatchCheck : option (jsval -> jsval -> bool)  (* truthiness of its result *)
}.

(** [Configuration.ENVIRONMENT]; [checkImmutability] only deep-freezes values,
    which changes no value of the model. *)
Record Environment := mkEnv {
  env_checkSerializability : bool
}.

(** [isNumber(cacheSize) ? Math.max(1, cacheSize) : 2]; [None] is [Infinity]. *)
Definition computeCacheSize (c : jsval) : option nat :=
  match c with
  | JNum (NFin z) => Some (Z.to_nat (Z.max 1 z))
  | JNum NInf => None
  | JNum NNegInf => Some 1
  | _ => Some 2
  end.

(** [cachedValuesCount > cacheSize]. *)
Definition exceedsCacheSize (n : nat) (cs : option nat) : bool :=
  match cs with
  | Some k => Nat.ltb k n
  | None => false
  end.

Inductive DispatchFailReason :=
| FROZEN_UNIT
| INVALID_VALUE
| CUSTOM_DISPATCH_CHECK
| DISTINCT_CHECK.

(** The events of [events$] that the model records. *)
Inductive UnitEvent :=
| EventUnitDispatch (v : jsval)
| EventUnitDispatchFail (v : jsval) (reason : DispatchFailReason)
| EventUnitJump (steps : Z) (newIndex : Z)
| EventUnitClearCache
| EventUnitClearValue
| EventUnitClear
| EventUnitResetValue
| EventUnitReset
| EventUnitFreeze
| EventUnitUnfreeze
| EventUnitUnmute
| EventUnitClearPersistedValue
| EventReplay (v : jsval)
| EventListUnitSet (index : num) (item : jsval)
| EventListUnitPush (items : list jsval)
| EventListUnitPop (item : jsval)
| EventListUnitShift (item : jsval)
| EventListUnitUnshift (items : list jsval)
| EventListUnitSplice (start : num) (deleteCount : option num) (removed : jsval) (items : list jsval)
| EventListUnitFill (item : jsval) (start end_ : option num)
| EventListUnitReverse.

Record DispatchOptions := mkOpts {
  opt_force : bool;          (* force === true *)
  opt_cacheReplace : bool    (* cacheReplace === true *)
}.

Definition noOptions : DispatchOptions := mkOpts false false.

Record ClearCacheOptions := mkCCOpts {
  leaveFirst : bool;
  leaveLast : bool
}.

(** ** The state of a Unit (fields of [Base] and [UnitBase]) *)

Record UnitState := mkUnit {
  u_flavor : flavor;
  u_config : UnitConfig;
  cacheSize : option nat;
  _isFrozen : bool;
  _isMuted : bool;
  emitOnUnmute : bool;
  _cachedValues : list jsval;
  _cacheIndex : nat;
  _initialValue : jsval;
  _value : jsval;
  _emitCount : nat;
  emittedValue : jsval;
  eventsSubject : bool;            (* [events$] has been accessed *)
  u_events : list UnitEvent        (* events pushed on [events$], newest first *)
}.

Definition set_cache (u : UnitState) (c : list jsval) (i : nat) : UnitState :=
  mkUnit (u_flavor u) (u_config u) (cacheSize u) (_isFrozen u) (_isMuted u)
    (emitOnUnmute u) c i (_initialValue u) (_value u) (_emitCount u)
    (emittedValue u) (eventsSubject u) (u_events u).

Definition set_cacheIndex (u : UnitState) (i : nat) : UnitState :=
  set_cache u (_cachedValues u) i.

Definition set_value (u : UnitState) (v : jsval) : UnitState :=
  mkUnit (u_flavor u) (u_config u) (cacheSize u) (_isFrozen u) (_isMuted u)
    (emitOnUnmute u) (_cachedValues u) (_cacheIndex u) (_initialValue u) v
    (_emitCount u) (emittedValue u) (eventsSubject u) (u_events u).

Definition set_initialValue (u : UnitState) (v : jsval) : UnitState :=
  mkUnit (u_flavor u) (u_config u) (cacheSize u) (_isFrozen u) (_isMuted u)
    (emitOnUnmute u) (_cachedValues u) (_cacheIndex u) v (_value u)
    (_emitCount u) (emittedValue u) (eventsSubject u) (u_events u).

Definition set_emitOnUnmute (u : UnitState) (b : bool) : UnitState :=
  mkUnit (u_flavor u) (u_config u) (cacheSize u) (_isFrozen u) (_isMuted u)
    b (_cachedValues u) (_cacheIndex u) (_initialValue u) (_value u)
    (_emitCount u) (emittedValue u) (eventsSubject u) (u_events u).

Definition set_emitted (u : UnitState) (n : nat) (v : jsval) : UnitState :=
  mkUnit (u_flavor u) (u_config u) (cacheSize u) (_isFrozen u) (_isMuted u)
    (emitOnUnmute u) (_cachedValues u) (_cacheIndex u) (_initialValue u) (_value u)
    n v (eventsSubject u) (u_events u).

Definition set_frozen (u : UnitState) (b : bool) : UnitState :=
  mkUnit (u_flavor u) (u_config u) (cacheSize u) b (_isMuted u)
    (emitOnUnmute u) (_cachedValues u) (_cacheIndex u) (_initialValue u) (_value u)
    (_emitCount u) (emittedValue u) (eventsSubject u) (u_events u).

Definition set_muted (u : UnitState) (b : bool) : UnitState :=
  mkUnit (u_flavor u) (u_config u) (cacheSize u) (_isFrozen u) b
    (emitOnUnmute u) (_cachedValues u) (_cacheIndex u) (_initialValue u) (_value u)
    (_emitCount u) (emittedValue u) (eventsSubject u) (u_events u).

Definition set_events (u : UnitState) (on : bool) (es : list UnitEvent) : UnitState :=
  mkUnit (u_flavor u) (u_config u) (cacheSize u) (_isFrozen u) (_isMuted u)
    (emitOnUnmute u) (_cachedValues u) (_cacheIndex u) (_initialValue u) (_value u)
    (_emitCount u) (emittedValue u) on es.

(** Accessing [events$] materialises the events subject. *)
Definition accessEvents (u : UnitState) : UnitState := set_events u true (u_events u).

(** [if (this.eventsSubject && !this.isMuted) this.eventsSubject.next(e)]. *)
Definition pushEvent (u : UnitState) (e : UnitEvent) : UnitState :=
  if eventsSubject u && negb (_isMuted u) then set_events u true (e :: u_events u) else u.

Definition set_next_ref (w : world) (h : nat) : world := mkWorld h (stores w).

(** ** UnitBase: value access *)

Definition applyFallbackValue (f : flavor) (h : nat) (v : jsval) : nat * jsval :=
  match v with
  | JUndefined => defaultValue f h
  | _ => (h, v)
  end.

Definition rawValue (h : nat) (u : UnitState) : nat * jsval :=
  applyFallbackValue (u_flavor u) h (_value u).

Definition initialValueRaw (h : nat) (u : UnitState) : nat * jsval :=
  applyFallbackValue (u_flavor u) h (_initialValue u).

Definition deepCopyMaybe (u : UnitState) (h : nat) (v : jsval) : nat * jsval :=
  if cfg_immutable (u_config u) then deepCopy h v else (h, v).

(** [value()]: [deepCopyMaybe(rawValue())]. *)
Definition value (h : nat) (u : UnitState) : nat * jsval :=
  let '(h1, r) := rawValue h u in deepCopyMaybe u h1 r.

(** [isEmpty]: ListUnit and DictUnit compare the length with 0, the other
    flavors compare [rawValue() === defaultValue()]. *)
Definition isEmpty (h : nat) (u : UnitState) : bool :=
  let r := snd (rawValue h u) in
  match u_flavor u with
  | ListUnit => match r with JArr _ l => Nat.eqb (length l) 0 | _ => false end
  | DictUnit => match r with JObj _ ps => Nat.eqb (length ps) 0 | _ => false end
  | f => strict_eq r (snd (defaultValue f h))
  end.

(** [Base.emit(value = this.value())]: one push to the subscribers. *)
Definition emit (w : world) (u : UnitState) : world * UnitState :=
  let '(h, v) := value (next_ref w) u in
  (set_next_ref w h, set_emitted u (S (_emitCount u)) v).

(** ** UnitBase: the cache *)

(** [this._cachedValues[i] = v]: JavaScript extends the array (with holes,
    read as [undefined]) when [i] is past its end. *)
Definition arraySet (c : list jsval) (i : nat) (v : jsval) : list jsval :=
  if Nat.ltb i (length c) then firstn i c ++ [v] ++ skipn (S i) c
  else c ++ repeat JUndefined (i - length c) ++ [v].

(** [updateCache(value, cacheReplace)]; returns the new cache and index. *)
Definition updateCache (cs : option nat) (c : list jsval) (idx : nat) (v : jsval)
    (cacheReplace : bool) : list jsval * nat :=
  if cacheReplace then (arraySet c idx v, idx)
  else if Nat.eqb (length c) 0 || Nat.eqb idx (length c - 1) then
    let c1 := c ++ [v] in
    let c2 := if exceedsCacheSize (length c1) cs then tl c1 else c1 in
    (c2, length c2 - 1)
  else
    (* splice(cacheIndex + 1, cachedValuesCount - 1 - cacheIndex, value) *)
    (firstn (S idx) c ++ [v] ++ skipn (S idx + (length c - 1 - idx)) c, S idx).

(** [updateValueInPersistentStorage()]. *)
Definition updateValueInPersistentStorage (w : world) (u : UnitState) : world :=
  if cfg_persistent (u_config u) then
    let '(h, r) := rawValue (next_ref w) u in
    let key := match cfg_id (u_config u) with Some k => k | None => "undefined"%string end in
    save key r (cfg_storage (u_config u)) (set_next_ref w h)
  else w.

(** [updateValueAndCache(value, options, skipCache)]. *)
Definition updateValueAndCache (w : world) (u : UnitState) (v : jsval)
    (cacheReplace skipCache : bool) : world * UnitState :=
  let u1 :=
    if skipCache then u
    else let '(c, i) := updateCache (cacheSize u) (_cachedValues u) (_cacheIndex u) v cacheReplace in
         set_cache u c i in
  let u2 := set_value u1 v in
  let '(w3, u3) :=
    if _isMuted u2 then (w, set_emitOnUnmute u2 true)
    else emit w (set_emitOnUnmute u2 false) in
  (updateValueInPersistentStorage w3 u3, u3).

(** ** UnitBase: dispatching *)

Definition distinctCheck (u : UnitState) (raw v : jsval) : bool :=
  negb (cfg_distinctDispatchCheck (u_config u)) || negb (strict_eq v raw).

(** [UnitBase.wouldDispatch(value, force)], with [raw] the current raw value. *)
Definition wouldDispatchBase (u : UnitState) (raw v : jsval) (force : bool) : bool :=
  if _isFrozen u then false
  else if force then true
  else if match cfg_customDispatchCheck (u_config u) with
          | Some chk => negb (chk raw v)
          | None => false
          end then false
  else distinctCheck u raw v.

(** [wouldDispatch] as the flavor defines it. *)
Definition wouldDispatch (h : nat) (u : UnitState) (v : jsval) (force : bool) : bool :=
  let raw := snd (rawValue h u) in
  if overridesWouldDispatch (u_flavor u) then
    isValidValue (u_flavor u) v && wouldDispatchBase u raw v force
  else wouldDispatchBase u raw v force.

Inductive ValueOrProducer :=
| DValue (v : jsval)
| DProducer (p : jsval -> jsval).

(** Result of a call that may throw. *)
Inductive outcome (A : Type) :=
| Returns (a : A)
| Throws (message : string).
Arguments Returns {A} a.
Arguments Throws {A} message.

(** [dispatchActual(valueOrProducer, options)]: the body of [dispatch] for a
    Unit without [dispatchDebounce] or with [bypassDebounce: true]. *)
Definition dispatch (env : Environment) (w : world) (u : UnitState)
    (vp : ValueOrProducer) (o : DispatchOptions) : outcome (world * UnitState * bool) :=
  let '(w0, v) :=
    match vp with
    | DValue v => (w, v)
    | DProducer p => let '(h, cur) := value (next_ref w) u in (set_next_ref w h, p cur)
    end in
  if env_checkSerializability env && negb (isSerializable v) then Throws "TypeError"%string
  else if wouldDispatch (next_ref w0) u v (opt_force o) then
    let '(h, v') := deepCopyMaybe u (next_ref w0) v in
    let '(w1, u1) := updateValueAndCache (set_next_ref w0 h) u v' (opt_cacheReplace o) false in
    Returns (w1, pushEvent u1 (EventUnitDispatch v), true)
  else
    let raw := snd (rawValue (next_ref w0) u) in
    let failReason :=
      if _isFrozen u then FROZEN_UNIT
      else if isValidValue (u_flavor u) v then
        (if distinctCheck u raw v then CUSTOM_DISPATCH_CHECK else DISTINCT_CHECK)
      else INVALID_VALUE in
    Returns (w0, pushEvent u (EventUnitDispatchFail v failReason), false).

(** ** UnitBase: cache navigation *)

(** [jump(steps)]; [steps] is a number (fractional steps are not modelled). *)
Definition jump (w : world) (u : UnitState) (steps : num) : world * UnitState * bool :=
  if _isFrozen u then (w, u, false)
  else match steps with
  | NFin s =>
      let newIndex := (Z.of_nat (_cacheIndex u) + s)%Z in
      if Z.ltb newIndex 0 || Z.eqb newIndex (Z.of_nat (_cacheIndex u))
         || Z.gtb newIndex (Z.of_nat (length (_cachedValues u)) - 1) then (w, u, false)
      else
        let u1 := set_cacheIndex u (Z.to_nat newIndex) in
        let '(w2, u2) :=
          updateValueAndCache w u1 (nth (Z.to_nat newIndex) (_cachedValues u1) JUndefined) false true in
        (w2, pushEvent u2 (EventUnitJump s newIndex), true)
  | _ => (w, u, false)   (* NaN fails isNumber; +-Infinity is out of bounds *)
  end.

Definition goBack (w : world) (u : UnitState) := jump w u (NFin (-1)).
Definition goForward (w : world) (u : UnitState) := jump w u (NFin 1).
Definition jumpToStart (w : world) (u : UnitState) :=
  jump w u (NFin (- Z.of_nat (_cacheIndex u))).
Definition jumpToEnd (w : world) (u : UnitState) :=
  jump w u (NFin (Z.of_nat (length (_cachedValues u)) - 1 - Z.of_nat (_cacheIndex u))).

(** [clearCache(options)]. *)
Definition clearCache (u : UnitState) (o : ClearCacheOptions) : UnitState * bool :=
  let n := length (_cachedValues u) in
  let lf := leaveFirst o in
  let ll := leaveLast o in
  if _isFrozen u || Nat.eqb n 0 || (Nat.eqb n 1 && (lf || ll)) || (Nat.eqb n 2 && lf && ll)
  then (u, false)
  else
    let start := if lf then 1 else 0 in
    let deleteCount := n - start - (if ll then 1 else 0) in
    let c := firstn start (_cachedValues u) ++ skipn (start + deleteCount) (_cachedValues u) in
    (pushEvent (set_cache u c (length c - 1)) EventUnitClearCache, true).

(** ** UnitBase: clearing, resetting, freezing, muting *)

Definition clearValue (w : world) (u : UnitState) : world * UnitState * bool :=
  if _isFrozen u || Nat.eqb (_emitCount u) 0 || isEmpty (next_ref w) u then (w, u, false)
  else
    let '(h, d) := defaultValue (u_flavor u) (next_ref w) in
    let '(w1, u1) := updateValueAndCache (set_next_ref w h) u d false false in
    (w1, pushEvent u1 EventUnitClearValue, true).

Definition resetValue (w : world) (u : UnitState) : world * UnitState * bool :=
  let '(h0, r) := rawValue (next_ref w) u in
  let '(h1, i0) := initialValueRaw h0 u in
  if _isFrozen u || strict_eq r i0 then (set_next_ref w h1, u, false)
  else
    let '(h2, i) := initialValueRaw h1 u in
    let '(w3, u3) := updateValueAndCache (set_next_ref w h2) u i false false in
    (w3, pushEvent u3 EventUnitResetValue, true).

Definition freeze (u : UnitState) : UnitState :=
  if _isFrozen u then u else pushEvent (set_frozen u true) EventUnitFreeze.

Definition unfreeze (u : UnitState) : UnitState :=
  if negb (_isFrozen u) then u else pushEvent (set_frozen u false) EventUnitUnfreeze.

Definition mute (u : UnitState) : UnitState := set_muted u true.

Definition unmute (w : world) (u : UnitState) : world * UnitState :=
  if negb (_isMuted u) then (w, u)
  else
    let u1 := set_muted u false in
    let '(w2, u2) := if emitOnUnmute u1 then
                       let '(w', u') := emit w u1 in (w', set_emitOnUnmute u' false)
                     else (w, u1) in
    (w2, if eventsSubject u2 then set_events u2 true (EventUnitUnmute :: u_events u2) else u2).

(** [clear(options)]: unfreeze, clearValue, clearCache. *)
Definition clear (w : world) (u : UnitState) (o : ClearCacheOptions) : world * UnitState :=
  let u1 := unfreeze u in
  let '(w2, u2, _) := clearValue w u1 in
  let '(u3, _) := clearCache u2 o in
  (w2, pushEvent u3 EventUnitClear).

(** [reset(options = {leaveLast: true})]: unfreeze, resetValue, clearCache. *)
Definition reset (w : world) (u : UnitState) (o : ClearCacheOptions) : world * UnitState :=
  let u1 := unfreeze u in
  let '(w2, u2, _) := resetValue w u1 in
  let '(u3, _) := clearCache u2 o in
  (w2, pushEvent u3 EventUnitReset).

Definition resetDefaultOptions : ClearCacheOptions := mkCCOpts false true.

(** ** Construction ([Base] and [UnitBase] constructors) *)

(** Whitespace removed by [String.prototype.trim] (ASCII part). *)
Definition isTrimmed (c : ascii) : bool :=
  let n := nat_of_ascii c in
  Nat.eqb n 32 || (Nat.leb 9 n && Nat.leb n 13).

(** [isValidId(id)]: [typeof id === 'string' && !!id.trim().length]. *)
Definition isValidId (id : string) : bool :=
  existsb (fun c => negb (isTrimmed c)) (list_ascii_of_string id).

Definition isUndefined (v : jsval) : bool :=
  match v with JUndefined => true | _ => false end.

(** The fields as initialised before the constructor body runs. *)
Definition freshUnit (f : flavor) (cfg : UnitConfig) : UnitState :=
  mkUnit f cfg (computeCacheSize (cfg_cacheSize cfg)) false false false [] 0
    JUndefined JUndefined 0 JUndefined false [].

Definition shouldDispatchInitialValue (f : flavor) (iv : jsval) : bool :=
  negb (isUndefined iv) && isValidValue f iv.

Definition dispatchInitialValue (w : world) (u : UnitState) (iv : jsval) : world * UnitState :=
  if shouldDispatchInitialValue (u_flavor u) iv then
    let u1 := set_initialValue u iv in
    let '(h, i) := initialValueRaw (next_ref w) u1 in
    updateValueAndCache (set_next_ref w h) u1 i false false
  else
    let '(h, d) := defaultValue (u_flavor u) (next_ref w) in
    updateValueAndCache (set_next_ref w h) u d false false.

Definition unitKey (cfg : UnitConfig) : string :=
  match cfg_id cfg with Some k => k | None => "undefined"%string end.

Definition restoreValueFromPersistentStorage (env : Environment) (w : world) (u : UnitState)
    (iv : jsval) : outcome (world * UnitState) :=
  let '(w1, savedState) := retrieve (unitKey (u_config u)) (cfg_storage (u_config u)) w in
  if truthy savedState then Returns (dispatchInitialValue w1 u (get_prop savedState "value"%string))
  else if env_checkSerializability env && negb (isSerializable iv) then Throws "TypeError"%string
  else
    let '(h, iv') := deepCopyMaybe u (next_ref w1) iv in
    Returns (dispatchInitialValue (set_next_ref w1 h) u iv').

(** [new XUnit(config)] for the flavor [f] and the merged configuration
    [cfg] ([dispatchDebounce] off). *)
Definition construct (env : Environment) (w : world) (f : flavor) (cfg : UnitConfig)
    : outcome (world * UnitState) :=
  let idError :=
    match cfg_id cfg with
    | Some id => negb (isValidId id)
    | None => cfg_persistent cfg
    end in
  if idError then Throws "TypeError"%string
  else
    let u := freshUnit f cfg in
    let iv := cfg_initialValue cfg in
    if cfg_persistent cfg then restoreValueFromPersistentStorage env w u iv
    else if env_checkSerializability env && negb (isSerializable iv) then Throws "TypeError"%string
    else
      let '(h, iv') := deepCopyMaybe u (next_ref w) iv in
      Returns (dispatchInitialValue (set_next_ref w h) u iv').

(** ** Selection (checks/common.ts [checkPath], lib/selection.ts) *)

Definition checkPath (path : list jsval) : outcome unit :=
  match path with
  | [] => Throws "TypeError"%string
  | _ =>
      if existsb (fun key => match key with JStr _ | JNum _ => false | _ => true end) path
      then Throws "TypeError"%string
      else Returns tt
  end.

Record Selection := mkSelection {
  sel_unit : UnitState;
  sel_path : list jsval
}.

(** [new Selection(unit, path)]. *)
Definition newSelection (u : UnitState) (path : list jsval) : outcome Selection :=
  if negb (isNonPrimitive (u_flavor u)) then Throws "TypeError"%string
  else match checkPath path with
       | Throws m => Throws m
       | Returns _ => Returns (mkSelection u path)
       end.

(** ** AsyncSystemBase (lib/creators.ts) *)

(** Each field is the boolean the code tests on the configuration. *)
Record AsyncSystemConfig := mkSysConfig {
  clearErrorOnData : bool;          (* config.clearErrorOnData !== false *)
  clearErrorOnQuery : bool;         (* === true *)
  clearDataOnQuery : bool;          (* === true *)
  clearDataOnError : bool;          (* === true *)
  clearQueryOnData : bool;          (* === true *)
  clearQueryOnError : bool;         (* === true *)
  autoUpdatePendingValue : bool;    (* config.autoUpdatePendingValue !== false *)
  freezeQueryWhilePending : bool    (* === true *)
}.

Record AsyncSystemState := mkSys {
  queryUnit : UnitState;
  dataUnit : UnitState;
  errorUnit : UnitState;
  pendingUnit : UnitState;
  sys_config : AsyncSystemConfig;
  relationshipsAutoPaused : bool;
  relationshipsManuallyPaused : bool;
  sys_emitCount : nat;
  sys_emittedValue : jsval * jsval * jsval * jsval
}.

Inductive Role := RQuery | RData | RError | RPending.

Definition member (s : AsyncSystemState) (r : Role) : UnitState :=
  match r with
  | RQuery => queryUnit s
  | RData => dataUnit s
  | RError => errorUnit s
  | RPending => pendingUnit s
  end.

Definition set_member (s : AsyncSystemState) (r : Role) (u : UnitState) : AsyncSystemState :=
  match r with
  | RQuery => mkSys u (dataUnit s) (errorUnit s) (pendingUnit s) (sys_config s)
               (relationshipsAutoPaused s) (relationshipsManuallyPaused s) (sys_emitCount s) (sys_emittedValue s)
  | RData => mkSys (queryUnit s) u (errorUnit s) (pendingUnit s) (sys_config s)
               (relationshipsAutoPaused s) (relationshipsManuallyPaused s) (sys_emitCount s) (sys_emittedValue s)
  | RError => mkSys (queryUnit s) (dataUnit s) u (pendingUnit s) (sys_config s)
               (relationshipsAutoPaused s) (relationshipsManuallyPaused s) (sys_emitCount s) (sys_emittedValue s)
  | RPending => mkSys (queryUnit s) (dataUnit s) (errorUnit s) u (sys_config s)
               (relationshipsAutoPaused s) (relationshipsManuallyPaused s) (sys_emitCount s) (sys_emittedValue s)
  end.

Definition set_autoPaused (s : AsyncSystemState) (b : bool) : AsyncSystemState :=
  mkSys (queryUnit s) (dataUnit s) (errorUnit s) (pendingUnit s) (sys_config s)
    b (relationshipsManuallyPaused s) (sys_emitCount s) (sys_emittedValue s).

Definition relationshipsWorking (s : AsyncSystemState) : bool :=
  negb (relationshipsAutoPaused s) && negb (relationshipsManuallyPaused s).

(** [combinedEmittedValues()]. *)
Definition combinedEmittedValues (s : AsyncSystemState) : jsval * jsval * jsval * jsval :=
  (emittedValue (queryUnit s), emittedValue (dataUnit s),
   emittedValue (errorUnit s), emittedValue (pendingUnit s)).

(** [emit()] of the system: one combined-value push. *)
Definition sysEmit (s : AsyncSystemState) : AsyncSystemState :=
  mkSys (queryUnit s) (dataUnit s) (errorUnit s) (pendingUnit s) (sys_config s)
    (relationshipsAutoPaused s) (relationshipsManuallyPaused s)
    (S (sys_emitCount s)) (combinedEmittedValues s).

(** Continuation run when a member pushes a value ([future$] subscription). *)
Definition Reaction := Role -> world -> AsyncSystemState -> world * AsyncSystemState.

(** Runs an operation on a member; if the member pushed, its subscriber
    [react] runs (synchronously, as RxJS subjects do). *)
Definition runMember (react : Reaction) (r : Role) (op : world -> UnitState -> world * UnitState)
    (w : world) (s : AsyncSystemState) : world * AsyncSystemState :=
  let u := member s r in
  let '(w1, u1) := op w u in
  let s1 := set_member s r u1 in
  if Nat.ltb (_emitCount u) (_emitCount u1) then react r w1 s1 else (w1, s1).

Definition clearValueOp (w : world) (u : UnitState) : world * UnitState :=
  let '(w1, u1, _) := clearValue w u in (w1, u1).

(** [pendingUnit.dispatch(isPending, {bypassDebounce: true})]; a boolean is
    serializable, so this dispatch never throws. *)
Definition dispatchOp (env : Environment) (v : jsval) (w : world) (u : UnitState) : world * UnitState :=
  match dispatch env w u (DValue v) noOptions with
  | Returns (w1, u1, _) => (w1, u1)
  | Throws _ => (w, u)
  end.

Definition autoUpdatePendingValueStep (env : Environment) (react : Reaction) (isPending : bool)
    (w : world) (s : AsyncSystemState) : world * AsyncSystemState :=
  if autoUpdatePendingValue (sys_config s) then runMember react RPending (dispatchOp env (JBool isPending)) w s
  else (w, s).

Definition executeQueryUnitRelationship (env : Environment) (react : Reaction) (w : world)
    (s : AsyncSystemState) : world * AsyncSystemState :=
  let s0 := set_autoPaused s true in
  let '(w1, s1) := autoUpdatePendingValueStep env react true w s0 in
  let '(w2, s2) := if clearDataOnQuery (sys_config s1) then runMember react RData clearValueOp w1 s1 else (w1, s1) in
  let '(w3, s3) := if clearErrorOnQuery (sys_config s2) then runMember react RError clearValueOp w2 s2 else (w2, s2) in
  (w3, sysEmit (set_autoPaused s3 false)).

Definition executeDataUnitRelationship (env : Environment) (react : Reaction) (w : world)
    (s : AsyncSystemState) : world * AsyncSystemState :=
  let s0 := set_autoPaused s true in
  let '(w1, s1) := autoUpdatePendingValueStep env react false w s0 in
  let '(w2, s2) :=
    if negb (clearErrorOnQuery (sys_config s1)) && clearErrorOnData (sys_config s1)
    then runMember react RError clearValueOp w1 s1 else (w1, s1) in
  let '(w3, s3) := if clearQueryOnData (sys_config s2) then runMember react RQuery clearValueOp w2 s2 else (w2, s2) in
  (w3, sysEmit (set_autoPaused s3 false)).

Definition executeErrorUnitRelationship (env : Environment) (react : Reaction) (w : world)
    (s : AsyncSystemState) : world * AsyncSystemState :=
  let s0 := set_autoPaused s true in
  let '(w1, s1) := autoUpdatePendingValueStep env react false w s0 in
  let '(w2, s2) :=
    if negb (clearDataOnQuery (sys_config s1)) && clearDataOnError (sys_config s1)
    then runMember react RData clearValueOp w1 s1 else (w1, s1) in
  let '(w3, s3) := if clearQueryOnError (sys_config s2) then runMember react RQuery clearValueOp w2 s2 else (w2, s2) in
  (w3, sysEmit (set_autoPaused s3 false)).

Definition toggleQueryUnitFreezeMaybe (s : AsyncSystemState) (isPending : jsval) : AsyncSystemState :=
  if freezeQueryWhilePending (sys_config s) then
    set_member s RQuery (if truthy isPending then freeze (queryUnit s) else unfreeze (queryUnit s))
  else s.

(** The four [future$] subscriptions of [createRelationshipsAmongMemberUnits];
    [react] handles pushes made while a rule runs. *)
Definition subscriber (env : Environment) (react : Reaction) (r : Role) (w : world)
    (s : AsyncSystemState) : world * AsyncSystemState :=
  match r with
  | RQuery => if relationshipsWorking s then executeQueryUnitRelationship env react w s else (w, s)
  | RData => if relationshipsWorking s then executeDataUnitRelationship env react w s else (w, s)
  | RError => if relationshipsWorking s then executeErrorUnitRelationship env react w s else (w, s)
  | RPending =>
      let s1 := if negb (relationshipsManuallyPaused s)
                then toggleQueryUnitFreezeMaybe s (emittedValue (pendingUnit s)) else s in
      if relationshipsWorking s1 then (w, sysEmit s1) else (w, s1)
  end.

(** Subscriber cascade, bounded by [fuel] nested pushes.  A rule runs with
    [relationshipsAutoPaused = true], so the pushes it causes run no rule and
    nesting stops at depth two; [reactionFuel] leaves room to spare. *)
Fixpoint onMemberEmit (env : Environment) (fuel : nat) : Reaction :=
  fun r w s =>
    match fuel with
    | 0 => (w, s)
    | S k => subscriber env (onMemberEmit env k) r w s
    end.

Definition reactionFuel : nat := 3.

(** [system.dataUnit.dispatch(value, options)] seen from the system. *)
Definition dispatchToData (env : Environment) (w : world) (s : AsyncSystemState) (v : jsval)
    (o : DispatchOptions) : outcome (world * AsyncSystemState * bool) :=
  let u := dataUnit s in
  match dispatch env w u (DValue v) o with
  | Throws m => Throws m
  | Returns (w1, u1, b) =>
      let s1 := set_member s RData u1 in
      let '(w2, s2) :=
        if Nat.ltb (_emitCount u) (_emitCount u1) then onMemberEmit env reactionFuel RData w1 s1
        else (w1, s1) in
      Returns (w2, s2, b)
  end.

(** [new AsyncSystemBase(query, data, error, pending, config)]: emits once. *)
Definition newAsyncSystemBase (q d e p : UnitState) (cfg : AsyncSystemConfig) : AsyncSystemState :=
  sysEmit (mkSys q d e p cfg false false 0 (JUndefined, JUndefined, JUndefined, JUndefined)).

(** ** Concrete Units used by the examples below *)

Definition env0 : Environment := mkEnv false.
Definition envChecked : Environment := mkEnv true.
Definition w0 : world := mkWorld 0 [].

(** A configuration with every option left at its default. *)
Definition plainConfig (iv : jsval) : UnitConfig :=
  mkConfig None JUndefined iv false false 0 false None.

Definition rejectAll : jsval -> jsval -> bool := fun _ _ => false.

(** The Unit a successful construction yields (the empty Unit otherwise). *)
Definition constructed (env : Environment) (w : world) (f : flavor) (cfg : UnitConfig)
    : world * UnitState :=
  match construct env w f cfg with
  | Returns p => p
  | Throws _ => (w, freshUnit f cfg)
  end.

(** The state after a dispatch without options (unchanged if it throws). *)
Definition afterDispatch (env : Environment) (wu : world * UnitState) (v : jsval)
    : world * UnitState :=
  match dispatch env (fst wu) (snd wu) (DValue v) noOptions with
  | Returns (w, u, _) => (w, u)
  | Throws _ => wu
  end.

Definition afterJump (wu : world * UnitState) (steps : num) : world * UnitState :=
  let '(w, u, _) := jump (fst wu) (snd wu) steps in (w, u).

Definition str (s : string) : jsval := JStr s.

(** The reason a rejected dispatch reports, by the priority the code
    implements: frozen, then invalid value, then a failed distinct check,
    then a failed custom check ([force] unset and the check rejecting). *)
Definition failReasonOrder (u : UnitState) (raw v : jsval) (force : bool)
    (r : DispatchFailReason) : Prop :=
  (r = FROZEN_UNIT <-> _isFrozen u = true) /\
  (r = INVALID_VALUE <-> _isFrozen u = false /\ isValidValue (u_flavor u) v = false) /\
  (r = DISTINCT_CHECK <->
     _isFrozen u = false /\ isValidValue (u_flavor u) v = true /\
     cfg_distinctDispatchCheck (u_config u) = true /\ strict_eq v raw = true) /\
  (r = CUSTOM_DISPATCH_CHECK <->
     _isFrozen u = false /\ isValidValue (u_flavor u) v = true /\
     (cfg_distinctDispatchCheck (u_config u) = false \/ strict_eq v raw = false) /\
     force = false /\
     exists chk, cfg_customDispatchCheck (u_config u) = Some chk /\ chk raw v = false).

(** A StringUnit holding "a" with the distinct check on, a custom check that
    rejects everything, and its events stream accessed. *)
Definition cfgBothChecks : UnitConfig :=
  mkConfig None JUndefined (str "a") false false 0 true (Some rejectAll).

Definition unitBothChecks : UnitState :=
  accessEvents (snd (constructed env0 w0 StringUnit cfgBothChecks)).

(** What a call can change of a Unit's observable contents: value, cache,
    cache index, emit count, last emitted value, frozen flag. *)
Definition unitContents (u : UnitState) :=
  (_value u, _cachedValues u, _cacheIndex u, _emitCount u, emittedValue u, _isFrozen u).

Definition noCacheOptions : ClearCacheOptions := mkCCOpts false false.

(** A StringUnit constructed with "a", then frozen. *)
Definition worldA : world := fst (constructed env0 w0 StringUnit (plainConfig (str "a"))).
Definition frozenA : UnitState := freeze (snd (constructed env0 w0 StringUnit (plainConfig (str "a")))).
Definition unitA : UnitState := snd (constructed env0 w0 StringUnit (plainConfig (str "a"))).

(** A StringUnit constructed with "a" whose custom dispatch check rejects
    every value, and the same Unit after [clearValue]. *)
Definition cfgRejectAll : UnitConfig :=
  mkConfig None JUndefined (str "a") false false 0 false (Some rejectAll).
Definition worldRejectAll : world := fst (constructed env0 w0 StringUnit cfgRejectAll).
Definition unitRejectAll : UnitState := snd (constructed env0 w0 StringUnit cfgRejectAll).
Definition worldCleared : world := fst (fst (clearValue worldRejectAll unitRejectAll)).
Definition unitCleared : UnitState := snd (fst (clearValue worldRejectAll unitRejectAll)).

(** [cfg] with its distinct check and custom dispatch check replaced. *)
Definition setChecks (cfg : UnitConfig) (d : bool) (chk : option (jsval -> jsval -> bool))
    : UnitConfig :=
  mkConfig (cfg_id cfg) (cfg_cacheSize cfg) (cfg_initialValue cfg) (cfg_immutable cfg)
    (cfg_persistent cfg) (cfg_storage cfg) d chk.

(** [u] with its configuration replaced. *)
Definition withConfig (u : UnitState) (cfg : UnitConfig) : UnitState :=
  mkUnit (u_flavor u) cfg (cacheSize u) (_isFrozen u) (_isMuted u) (emitOnUnmute u)
    (_cachedValues u) (_cacheIndex u) (_initialValue u) (_value u) (_emitCount u)
    (emittedValue u) (eventsSubject u) (u_events u).

(** Two configurations that agree on everything but the dispatch checks. *)
Definition sameButChecks (c1 c2 : UnitConfig) : Prop :=
  cfg_id c1 = cfg_id c2 /\ cfg_immutable c1 = cfg_immutable c2 /\
  cfg_persistent c1 = cfg_persistent c2 /\ cfg_storage c1 = cfg_storage c2.

(** The result of a construction with the Unit's configuration replaced. *)
Definition mapUnit (c : UnitConfig) (r : outcome (world * UnitState)) : outcome (world * UnitState) :=
  match r with
  | Returns (w, u) => Returns (w, withConfig u c)
  | Throws m => Throws m
  end.

(** [cacheSize] (with [None] for [Infinity]) is at least [n]. *)
Definition capacityAtLeast (cs : option nat) (n : nat) : Prop :=
  match cs with
  | Some k => n <= k
  | None => True
  end.

(** A StringUnit with a cache of 4 values, and the states after dispatching
    "v1" to "v4" on it, going back twice, and dispatching "v5". *)
Definition cfgCache4 : UnitConfig :=
  mkConfig None (JNum (NFin 4)) JUndefined false false 0 false None.
Definition stage0 : world * UnitState := constructed env0 w0 StringUnit cfgCache4.
Definition stage1 : world * UnitState := afterDispatch env0 stage0 (str "v1").
Definition stage2 : world * UnitState := afterDispatch env0 stage1 (str "v2").
Definition stage3 : world * UnitState := afterDispatch env0 stage2 (str "v3").
Definition stage4 : world * UnitState := afterDispatch env0 stage3 (str "v4").
Definition stage6 : world * UnitState := afterJump (afterJump stage4 (NFin (-1))) (NFin (-1)).
Definition stage7 : world * UnitState := afterDispatch env0 stage6 (str "v5").

(** The cache invariant: the index is in range (or 0 on an empty cache) and
    the cache holds at most [cacheSize] values, [cacheSize] being at least 1. *)
Definition cacheInvariant (cs : option nat) (c : list jsval) (idx : nat) : Prop :=
  ((length c = 0 /\ idx = 0) \/ idx < length c) /\
  capacityAtLeast cs (length c) /\ capacityAtLeast cs 1.

Definition cacheWellFormed (u : UnitState) : Prop :=
  cacheInvariant (cacheSize u) (_cachedValues u) (_cacheIndex u).

(** [cachedValues[cacheIndex] === value]: the current value sits at the index. *)
Definition currentInCache (u : UnitState) : Prop :=
  nth_error (_cachedValues u) (_cacheIndex u) = Some (_value u).

(** ** Persistence round trip *)

(** A value survives [JSON.parse(JSON.stringify(v))] with its shape, wherever
    the parsed arrays and objects are allocated; [undefined] has no JSON form
    and is read back as a missing property. *)
Definition survivesJson (v : jsval) : Prop :=
  match stringify v with
  | Some j => forall h, strip (snd (parse h j)) = strip v
  | None => v = JUndefined
  end.

Definition cfgPersist (iv : jsval) : UnitConfig :=
  mkConfig (Some "k"%string) JUndefined iv false true 0 false None.

Definition persistA : world * UnitState := constructed env0 w0 NumUnit (cfgPersist (JNum (NFin 1))).

(** ** Orchestrator (AsyncSystem) examples *)

(** The default AsyncSystem configuration: [clearErrorOnData] and
    [autoUpdatePendingValue] on, everything else off. *)
Definition defaultSysConfig : AsyncSystemConfig :=
  mkSysConfig true false false false false false true false.

(** The same with [clearErrorOnQuery: true]. *)
Definition errOnQuerySysConfig : AsyncSystemConfig :=
  mkSysConfig true true false false false false true false.

Definition queryA : UnitState := snd (constructed env0 w0 StringUnit (plainConfig JUndefined)).
Definition dataA : UnitState := snd (constructed env0 w0 StringUnit (plainConfig JUndefined)).
Definition errorA : UnitState := snd (constructed env0 w0 GenericUnit (plainConfig (str "boom"))).
Definition pendingA : UnitState := snd (constructed env0 w0 BoolUnit (plainConfig (JBool true))).

Definition sysDefault : AsyncSystemState :=
  newAsyncSystemBase queryA dataA errorA pendingA defaultSysConfig.
Definition sysErrOnQuery : AsyncSystemState :=
  newAsyncSystemBase queryA dataA errorA pendingA errOnQuerySysConfig.
Definition sysMutedData : AsyncSystemState :=
  newAsyncSystemBase queryA (mute dataA) errorA pendingA defaultSysConfig.

(** ** Further UnitBase operations (lib/abstract-unit-base.ts; [Base] is in src/unnamed/part_004) *)

(** [Base.replay()]: [this.emit(this.emittedValue)] (the value is passed, so
    no copy is made), then [EventReplay] on [events$] (the model records the
    events of an accessed [events$], as for the other events). *)
Definition baseReplay (u : UnitState) : UnitState :=
  let u1 := set_emitted u (S (_emitCount u)) (emittedValue u) in
  if eventsSubject u1 then set_events u1 true (EventReplay (emittedValue u) :: u_events u1) else u1.

(** [UnitBase.replay()]. *)
Definition replay (u : UnitState) : UnitState * bool :=
  if _isFrozen u || _isMuted u then (u, false) else (baseReplay u, true).

(** [clearPersistentStorage(storage)]: removes every key that starts with
    [KeyPrefix]. *)
Definition clearPersistentStorage (sid : nat) (w : world) : world :=
  mkWorld (next_ref w)
    (filter (fun e => negb (Nat.eqb sid (fst (fst e)) && prefix KeyPrefix (snd (fst e)))) (stores w)).

(** [clearPersistedValue()]. *)
Definition clearPersistedValue (w : world) (u : UnitState) : world * UnitState * bool :=
  if cfg_persistent (u_config u) then
    (remove (unitKey (u_config u)) (cfg_storage (u_config u)) w,
     pushEvent u EventUnitClearPersistedValue, true)
  else (w, u, false).

(** ** utils/funcs (utils/logger.ts): indices and searches *)

(** [isValidIndex(i)] for a number [i]: [a[i] = 1] only grows an empty array
    when [i] is an array index, an integer in [0, 2^32 - 2]. *)
Definition isValidIndex (i : num) : bool :=
  match i with
  | NFin z => (0 <=? z)%Z && (z <=? 4294967294)%Z
  | _ => false
  end.

(** [normalizeIndex(index, arrLength)]. *)
Definition normalizeIndex (index : num) (arrLength : nat) : num :=
  let n := Z.of_nat arrLength in
  match index with
  | NFin z => if (z <? 0)%Z then (if (z <? - n)%Z then NFin 0 else NFin (n + z)) else NFin z
  | NNegInf => NFin 0        (* -Infinity < -arrLength *)
  | NInf | NNaN => index     (* not < 0 *)
  end.

(** SameValueZero on numbers, the equality of a [Set]. *)
Definition sameValueZero (a b : num) : bool :=
  match a, b with
  | NNaN, NNaN => true
  | _, _ => num_strict_eq a b
  end.

(** [deDuplicate(arr)]: [[...new Set(arr)]], first occurrences in order;
    [seen] holds the set's elements, newest first. *)
Fixpoint deDuplicateAcc {A : Type} (eqb : A -> A -> bool) (seen l : list A) : list A :=
  match l with
  | [] => rev seen
  | x :: t =>
      if existsb (eqb x) seen then deDuplicateAcc eqb seen t
      else deDuplicateAcc eqb (x :: seen) t
  end.

Definition deDuplicate {A : Type} (eqb : A -> A -> bool) (l : list A) : list A :=
  deDuplicateAcc eqb [] l.

(** [index < arrLength] for a number [index]. *)
Definition ltLength (index : num) (arrLength : nat) : bool :=
  match index with
  | NFin z => (z <? Z.of_nat arrLength)%Z
  | NNegInf => true
  | NInf | NNaN => false
  end.

(** [sanitizeIndices(indices, arrLength)]. *)
Definition sanitizeIndices (indices : list num) (arrLength : nat) : list num :=
  deDuplicate sameValueZero
    (filter (fun index => ltLength index arrLength && isValidIndex index)
       (map (fun index => normalizeIndex index arrLength) indices)).

(** The [while] loop of [findIndex] from [i], [k] rounds left. *)
Fixpoint scanForward (p : jsval -> bool) (c : list jsval) (i k : nat) : Z :=
  match k with
  | 0 => (-1)%Z
  | S k' => if p (nth i c JUndefined) then Z.of_nat i else scanForward p c (S i) k'
  end.

(** [findIndex(array, predicate, fromIndex)] with a number [fromIndex]. *)
Definition findIndex (c : list jsval) (p : jsval -> bool) (fromIndex : num) : Z :=
  let len := Z.of_nat (length c) in
  let i := match fromIndex with
           | NFin z => if isValidIndex fromIndex then Z.max 0 (Z.min z (len - 1)) else 0%Z
           | _ => 0%Z
           end in
  scanForward p c (Z.to_nat i) (length c - Z.to_nat i).

(** The [while (i > -1)] loop of [findIndexBackwards] from [i >= 0]. *)
Fixpoint scanBackward (p : jsval -> bool) (c : list jsval) (i : nat) : Z :=
  if p (nth i c JUndefined) then Z.of_nat i
  else match i with
       | 0 => (-1)%Z
       | S j => scanBackward p c j
       end.

(** [findIndexBackwards(array, predicate, fromIndex)] with a number [fromIndex]. *)
Definition findIndexBackwards (c : list jsval) (p : jsval -> bool) (fromIndex : num) : Z :=
  let len := Z.of_nat (length c) in
  let i := match fromIndex with
           | NFin z => if isValidIndex fromIndex then Z.max 0 (Z.min z (len - 1)) else (len - 1)%Z
           | _ => (len - 1)%Z
           end in
  if (i <? 0)%Z then (-1)%Z else scanBackward p c (Z.to_nat i).

(** ** GenericUnit: skipping nil values (src/unnamed/part_002) *)

(** [v != null]. *)
Definition notNil (v : jsval) : bool :=
  match v with
  | JUndefined | JNull => false
  | _ => true
  end.

(** [goToNonNilValue(direction)]; [back] is [direction === 'BACK']. *)
Definition goToNonNilValue (w : world) (u : UnitState) (back : bool) : world * UnitState * bool :=
  if _isFrozen u then (w, u, false)
  else
    let lastNonNilValueIndex :=
      if back
      then findIndexBackwards (_cachedValues u) notNil (NFin (Z.of_nat (_cacheIndex u) - 1))
      else findIndex (_cachedValues u) notNil (NFin (Z.of_nat (_cacheIndex u) + 1)) in
    if (lastNonNilValueIndex =? -1)%Z then (w, u, false)
    else jump w u (NFin (lastNonNilValueIndex - Z.of_nat (_cacheIndex u))).

(** [GenericUnit.goBack(skipNilValues)] and [GenericUnit.goForward(skipNilValues)]. *)
Definition GenericUnit_goBack (w : world) (u : UnitState) (skipNilValues : bool) :=
  if skipNilValues then goToNonNilValue w u true else goBack w u.

Definition GenericUnit_goForward (w : world) (u : UnitState) (skipNilValues : bool) :=
  if skipNilValues then goToNonNilValue w u false else goForward w u.

(** ** ListUnit (its class is in lib/persistence.ts) *)

(** The items of a ListUnit's raw value (always an array). *)
Definition listItems (v : jsval) : list jsval :=
  match v with
  | JArr _ l => l
  | _ => []
  end.

(** [this.length]: [this.rawValue().length]. *)
Definition listLength (h : nat) (u : UnitState) : nat :=
  length (listItems (snd (rawValue h u))).

(** [this.deepCopyMaybe(items)] on the array of the arguments [items]; only
    its items are used (they are spread), so its own reference is irrelevant. *)
Definition deepCopyItemsMaybe (u : UnitState) (h : nat) (items : list jsval) : nat * list jsval :=
  let '(h', v) := deepCopyMaybe u h (JArr 0 items) in (h', listItems v).

(** [checkSerializabilityMaybe(o)]. *)
Definition serializabilityFails (env : Environment) (o : jsval) : bool :=
  env_checkSerializability env && negb (isSerializable o).

(** [set(index, item)]; writing past the end extends the array (its holes
    read as [undefined]). *)
Definition set (env : Environment) (w : world) (u : UnitState) (index : num) (item : jsval)
    : outcome (world * UnitState) :=
  if _isFrozen u || negb (isValidIndex index) then Returns (w, u)
  else if serializabilityFails env item then Throws "TypeError"%string
  else
    let '(h1, raw) := rawValue (next_ref w) u in
    let l := listItems raw in
    (* [listShallowCopy] is the array [h1] *)
    let i := match normalizeIndex index (length l) with NFin z => Z.to_nat z | _ => 0 end in
    let '(h2, item') := deepCopyMaybe u (S h1) item in
    let '(w3, u3) := updateValueAndCache (set_next_ref w h2) u (JArr h1 (arraySet l i item')) false false in
    Returns (w3, pushEvent u3 (EventListUnitSet index item)).

(** [push(...items)]: returns the new length. *)
Definition push (env : Environment) (w : world) (u : UnitState) (items : list jsval)
    : outcome (world * UnitState * nat) :=
  if _isFrozen u || Nat.eqb (length items) 0 then Returns (w, u, listLength (next_ref w) u)
  else if serializabilityFails env (JArr 0 items) then Throws "TypeError"%string
  else
    let '(h1, raw) := rawValue (next_ref w) u in
    let '(h2, items') := deepCopyItemsMaybe u (S h1) items in
    let l' := listItems raw ++ items' in
    let '(w3, u3) := updateValueAndCache (set_next_ref w h2) u (JArr h1 l') false false in
    Returns (w3, pushEvent u3 (EventListUnitPush items), length l').

(** [pop()]: returns the removed item ([undefined] when nothing is done). *)
Definition pop (w : world) (u : UnitState) : world * UnitState * jsval :=
  if _isFrozen u || Nat.eqb (listLength (next_ref w) u) 0 then (w, u, JUndefined)
  else
    let '(h1, raw) := rawValue (next_ref w) u in
    let l := listItems raw in
    let '(h2, poppedItem) := deepCopyMaybe u (S h1) (last l JUndefined) in
    let '(w3, u3) := updateValueAndCache (set_next_ref w h2) u (JArr h1 (removelast l)) false false in
    (w3, pushEvent u3 (EventListUnitPop poppedItem), poppedItem).

(** [shift()]: returns the removed item ([undefined] when nothing is done). *)
Definition shift (w : world) (u : UnitState) : world * UnitState * jsval :=
  if _isFrozen u || Nat.eqb (listLength (next_ref w) u) 0 then (w, u, JUndefined)
  else
    let '(h1, raw) := rawValue (next_ref w) u in
    let l := listItems raw in
    let '(h2, shiftedItem) := deepCopyMaybe u (S h1) (hd JUndefined l) in
    let '(w3, u3) := updateValueAndCache (set_next_ref w h2) u (JArr h1 (tl l)) false false in
    (w3, pushEvent u3 (EventListUnitShift shiftedItem), shiftedItem).

(** [unshift(...items)]: returns the new length. *)
Definition unshift (env : Environment) (w : world) (u : UnitState) (items : list jsval)
    : outcome (world * UnitState * nat) :=
  if _isFrozen u || Nat.eqb (length items) 0 then Returns (w, u, listLength (next_ref w) u)
  else if serializabilityFails env (JArr 0 items) then Throws "TypeError"%string
  else
    let '(h1, raw) := rawValue (next_ref w) u in
    let '(h2, items') := deepCopyItemsMaybe u (S h1) items in
    let l' := items' ++ listItems raw in
    let '(w3, u3) := updateValueAndCache (set_next_ref w h2) u (JArr h1 l') false false in
    Returns (w3, pushEvent u3 (EventListUnitUnshift items), length l').

(** [Array.prototype.splice]'s [actualStart] for a number [start]. *)
Definition spliceStart (start : num) (len : nat) : nat :=
  let n := Z.of_nat len in
  match start with
  | NFin z => if (z <? 0)%Z then Z.to_nat (Z.max (n + z) 0) else Z.to_nat (Z.min z n)
  | NInf => len
  | NNegInf | NNaN => 0
  end.

(** Its [actualDeleteCount] when a [deleteCount] argument is passed ([None]
    is [undefined]; [undefined] and NaN count as 0). *)
Definition spliceDeleteCount (deleteCount : option num) (len actualStart : nat) : nat :=
  match deleteCount with
  | Some (NFin z) => Z.to_nat (Z.max 0 (Z.min z (Z.of_nat (len - actualStart))))
  | Some NInf => len - actualStart
  | _ => 0
  end.

(** [deleteCount == 0]. *)
Definition looseEqZero (deleteCount : option num) : bool :=
  match deleteCount with
  | Some (NFin z) => (z =? 0)%Z
  | _ => false
  end.

(** [splice(start, deleteCount, ...items)]: returns the array of removed items. *)
Definition splice (env : Environment) (w : world) (u : UnitState) (start : num)
    (deleteCount : option num) (items : list jsval) : outcome (world * UnitState * jsval) :=
  if _isFrozen u || ((looseEqZero deleteCount || Nat.eqb (listLength (next_ref w) u) 0)
                     && Nat.eqb (length items) 0)
  then Returns (set_next_ref w (S (next_ref w)), u, JArr (next_ref w) [])   (* [return []] *)
  else if serializabilityFails env (JArr 0 items) then Throws "TypeError"%string
  else
    let '(h1, raw) := rawValue (next_ref w) u in
    let l := listItems raw in
    let '(h2, items') := deepCopyItemsMaybe u (S h1) items in
    let s := spliceStart start (length l) in
    let dc := spliceDeleteCount deleteCount (length l) s in
    let removed := firstn dc (skipn s l) in
    let l' := firstn s l ++ items' ++ skipn (s + dc) l in
    let '(h3, removedItems) := deepCopyMaybe u (S h2) (JArr h2 removed) in
    let '(w4, u4) := updateValueAndCache (set_next_ref w h3) u (JArr h1 l') false false in
    Returns (w4, pushEvent u4 (EventListUnitSplice start deleteCount removedItems items), removedItems).

(** [insert(start, ...items)]: [splice(start, 0, ...items)], then the new length. *)
Definition insert (env : Environment) (w : world) (u : UnitState) (start : num) (items : list jsval)
    : outcome (world * UnitState * nat) :=
  if _isFrozen u || Nat.eqb (length items) 0 then Returns (w, u, listLength (next_ref w) u)
  else if serializabilityFails env (JArr 0 items) then Throws "TypeError"%string
  else
    match splice env w u start (Some (NFin 0)) items with
    | Returns (w1, u1, _) => Returns (w1, u1, listLength (next_ref w1) u1)
    | Throws m => Throws m
    end.

(** The bounds of [Array.prototype.fill(item, start, end)]: a number is
    relative as [splice]'s [start] is; [undefined] ([None]) is [0] for [start]
    and the length for [end]. *)
Definition fillStart (start : option num) (len : nat) : nat :=
  match start with
  | Some s => spliceStart s len
  | None => 0
  end.

Definition fillEnd (end_ : option num) (len : nat) : nat :=
  match end_ with
  | Some e => spliceStart e len
  | None => len
  end.

(** [fill(item, start, end)]: one copy of [item] is written at every index
    from [start] to [end] (excluded). *)
Definition fill (env : Environment) (w : world) (u : UnitState) (item : jsval)
    (start end_ : option num) : outcome (world * UnitState) :=
  if _isFrozen u || Nat.eqb (listLength (next_ref w) u) 0 then Returns (w, u)
  else if serializabilityFails env item then Throws "TypeError"%string
  else
    let '(h1, raw) := rawValue (next_ref w) u in
    let l := listItems raw in
    let '(h2, item') := deepCopyMaybe u (S h1) item in
    let s := fillStart start (length l) in
    let e := fillEnd end_ (length l) in
    let l' := firstn s l ++ repeat item' (e - s) ++ skipn (Nat.max s e) l in
    let '(w3, u3) := updateValueAndCache (set_next_ref w h2) u (JArr h1 l') false false in
    Returns (w3, pushEvent u3 (EventListUnitFill item start end_)).

(** [reverse()]. *)
Definition reverse (w : world) (u : UnitState) : world * UnitState :=
  if _isFrozen u || Nat.eqb (listLength (next_ref w) u) 0 then (w, u)
  else
    let '(h1, raw) := rawValue (next_ref w) u in
    let '(w2, u2) :=
      updateValueAndCache (set_next_ref w (S h1)) u (JArr h1 (rev (listItems raw))) false false in
    (w2, pushEvent u2 EventListUnitReverse).

(** ** AsyncSystemBase: pausing the relationships (lib/creators.ts) *)

Definition unitsEmitCounts (s : AsyncSystemState) : nat * nat * nat * nat :=
  (_emitCount (queryUnit s), _emitCount (dataUnit s), _emitCount (errorUnit s),
   _emitCount (pendingUnit s)).

Definition set_manuallyPaused (s : AsyncSystemState) (b : bool) : AsyncSystemState :=
  mkSys (queryUnit s) (dataUnit s) (errorUnit s) (pendingUnit s) (sys_config s)
    (relationshipsAutoPaused s) b (sys_emitCount s) (sys_emittedValue s).

(** [a.join() !== b.join()] for two arrays of four counts. *)
Definition countsDiffer (a b : nat * nat * nat * nat) : bool :=
  let '(a1, a2, a3, a4) := a in
  let '(b1, b2, b3, b4) := b in
  negb (Nat.eqb a1 b1 && Nat.eqb a2 b2 && Nat.eqb a3 b3 && Nat.eqb a4 b4).

(** [pauseRelationships()]; the second component is
    [unitsEmitCountsBeforePausing] ([None] while never assigned). *)
Definition pauseRelationships (s : AsyncSystemState) (saved : option (nat * nat * nat * nat))
    : AsyncSystemState * option (nat * nat * nat * nat) :=
  if relationshipsManuallyPaused s then (s, saved)
  else (set_manuallyPaused s true, Some (unitsEmitCounts s)).

(** [resumeRelationships()]; [undefined.join()] throws. *)
Definition resumeRelationships (s : AsyncSystemState) (saved : option (nat * nat * nat * nat))
    : outcome AsyncSystemState :=
  if negb (relationshipsManuallyPaused s) then Returns s
  else
    let s1 := set_manuallyPaused s false in
    match saved with
    | None => Throws "TypeError"%string
    | Some c => if countsDiffer c (unitsEmitCounts s1) then Returns (sysEmit s1) else Returns s1
    end.

(** ** Concrete Units used by the further properties *)

(** A GenericUnit with a cache of four given [undefined], "x", [null], "y",
    and the same Unit with its cursor moved to the first and the second entry. *)
Definition gen0 : world * UnitState := constructed env0 w0 GenericUnit cfgCache4.
Definition gen1 : world * UnitState := afterDispatch env0 gen0 (str "x").
Definition gen2 : world * UnitState := afterDispatch env0 gen1 JNull.
Definition gen3 : world * UnitState := afterDispatch env0 gen2 (str "y").
Definition genAtStart : world * UnitState := afterJump gen3 (NFin (-3)).
Definition genAtX : world * UnitState := afterJump gen3 (NFin (-2)).

(** [unitA] muted, then given "b". *)
Definition mutedB : world * UnitState := afterDispatch env0 (worldA, mute unitA) (str "b").

(** The result of a call that returned, or [d] if it threw. *)
Definition returnedOr {A : Type} (d : A) (o : outcome A) : A :=
  match o with
  | Returns a => a
  | Throws _ => d
  end.

(** An immutable ListUnit holding ["a"], and the results of pushing and
    unshifting ["b"] on it. *)
Definition cfgListA : UnitConfig :=
  mkConfig None JUndefined (JArr 0 [str "a"]) true false 0 false None.
Definition listA : world * UnitState := constructed env0 (mkWorld 1 []) ListUnit cfgListA.
Definition listPushedB : world * UnitState * nat :=
  returnedOr (fst listA, snd listA, 0) (push env0 (fst listA) (snd listA) [str "b"]).
Definition listUnshiftedB : world * UnitState * nat :=
  returnedOr (fst listA, snd listA, 0) (unshift env0 (fst listA) (snd listA) [str "b"]).

(** [sysDefault] paused, then its data Unit given "data". *)
Definition sysPausedData : world * AsyncSystemState * bool :=
  returnedOr (w0, sysDefault, false)
    (dispatchToData env0 w0 (fst (pauseRelationships sysDefault None)) (str "data") noOptions).

(** * Properties *)

(** ** Sanity checks of the model on concrete runs *)

Example construct_string_example :
  snd (rawValue 0 (snd (constructed env0 w0 StringUnit (plainConfig (str "a"))))) = str "a".
Proof. reflexivity. Qed.

Example dispatch_string_example :
  let wu := afterDispatch env0 (constructed env0 w0 StringUnit (plainConfig (str "a"))) (str "b") in
  _value (snd wu) = str "b" /\ _cachedValues (snd wu) = [str "a"; str "b"]
  /\ _cacheIndex (snd wu) = 1 /\ _emitCount (snd wu) = 2.
Proof. repeat split; reflexivity. Qed.

Example dispatch_invalid_example :
  dispatch env0 w0 (snd (constructed env0 w0 NumUnit (plainConfig (JNum (NFin 1))))) (DValue (str "x")) noOptions
  = Returns (w0, snd (constructed env0 w0 NumUnit (plainConfig (JNum (NFin 1)))), false).
Proof. reflexivity. Qed.

(** ** Admission *)

Lemma wouldDispatchBase_spec (u : UnitState) (raw v : jsval) (force : bool) :
  wouldDispatchBase u raw v force = true <->
  (_isFrozen u = false /\
   (force = true \/
    ((match cfg_customDispatchCheck (u_config u) with
      | Some chk => chk raw v = true
      | None => True
      end) /\
     (cfg_distinctDispatchCheck (u_config u) = false \/ strict_eq v raw = false)))).
Proof.
  unfold wouldDispatchBase, distinctCheck.
  destruct (_isFrozen u); [split; [discriminate | intros [H _]; discriminate]|].
  destruct force; [split; auto|].
  destruct (cfg_customDispatchCheck (u_config u)) as [chk|]; [destruct (chk raw v)|];
    destruct (cfg_distinctDispatchCheck (u_config u)), (strict_eq v raw); simpl;
    intuition congruence.
Qed.

Lemma wouldDispatch_spec (h : nat) (u : UnitState) (v : jsval) (force : bool) :
  let raw := snd (rawValue h u) in
  wouldDispatch h u v force = true <->
  (_isFrozen u = false /\ isValidValue (u_flavor u) v = true /\
   (force = true \/
    ((match cfg_customDispatchCheck (u_config u) with
      | Some chk => chk raw v = true
      | None => True
      end) /\
     (cfg_distinctDispatchCheck (u_config u) = false \/ strict_eq v raw = false)))).
Proof.
  intros raw. unfold wouldDispatch. fold raw.
  pose proof (wouldDispatchBase_spec u raw v force) as Hb.
  destruct (overridesWouldDispatch (u_flavor u)) eqn:Ho.
  - rewrite andb_true_iff, Hb. tauto.
  - assert (Hv : isValidValue (u_flavor u) v = true) by (destruct (u_flavor u); easy).
    rewrite Hb, Hv. tauto.
Qed.

(** C1: a dispatch of a value that returns reports acceptance ([true])
    exactly when the Unit is not frozen, the flavor's [isValidValue] accepts
    the value, and either [force] is set or both the custom dispatch check
    (if configured) accepts (current, value) and the distinct check (if
    enabled) finds the value not strictly equal to the current one.  A
    dispatch throws only when the serializability check is on and the value
    is not serializable. *)
Theorem dispatch_accepted_iff (env : Environment) (w : world) (u : UnitState) (v : jsval)
    (o : DispatchOptions) :
  let raw := snd (rawValue (next_ref w) u) in
  match dispatch env w u (DValue v) o with
  | Returns (_, _, accepted) =>
      accepted = true <->
      (_isFrozen u = false /\ isValidValue (u_flavor u) v = true /\
       (opt_force o = true \/
        ((match cfg_customDispatchCheck (u_config u) with
          | Some chk => chk raw v = true
          | None => True
          end) /\
         (cfg_distinctDispatchCheck (u_config u) = false \/ strict_eq v raw = false))))
  | Throws _ => env_checkSerializability env = true /\ isSerializable v = false
  end.
Proof.
  intros raw. unfold dispatch.
  destruct (env_checkSerializability env && negb (isSerializable v)) eqn:Hs.
  - apply andb_prop in Hs as [H1 H2]. apply negb_true_iff in H2. auto.
  - pose proof (wouldDispatch_spec (next_ref w) u v (opt_force o)) as Hspec.
    simpl in Hspec. fold raw in Hspec.
    destruct (wouldDispatch (next_ref w) u v (opt_force o)) eqn:Hw.
    + destruct (deepCopyMaybe u (next_ref w) v) as [h v'].
      destruct (updateValueAndCache (set_next_ref w h) u v' (opt_cacheReplace o) false) as [w1 u1].
      split; [intros _; apply Hspec; reflexivity | reflexivity].
    + split; [discriminate | intros Hc; apply Hspec in Hc; discriminate].
Qed.

(** C5: a rejected dispatch (events stream accessed, Unit not muted) pushes
    exactly one [EventUnitDispatchFail] whose reason follows the order
    FROZEN_UNIT, INVALID_VALUE, DISTINCT_CHECK, CUSTOM_DISPATCH_CHECK: when
    the value is valid and both the distinct check and the custom check
    reject it, the reason is DISTINCT_CHECK. *)
Theorem dispatch_fail_reason (env : Environment) (w : world) (u : UnitState) (v : jsval)
    (o : DispatchOptions) (w' : world) (u' : UnitState)
    (Hsub : eventsSubject u = true) (Hmute : _isMuted u = false)
    (Hrej : dispatch env w u (DValue v) o = Returns (w', u', false)) :
  exists r, u_events u' = EventUnitDispatchFail v r :: u_events u /\
            failReasonOrder u (snd (rawValue (next_ref w) u)) v (opt_force o) r.
Proof.
  unfold dispatch in Hrej.
  destruct (env_checkSerializability env && negb (isSerializable v)); [discriminate|].
  pose proof (wouldDispatch_spec (next_ref w) u v (opt_force o)) as Hspec.
  simpl in Hspec. set (raw := snd (rawValue (next_ref w) u)) in *.
  destruct (wouldDispatch (next_ref w) u v (opt_force o)) eqn:Hw.
  - destruct (deepCopyMaybe u (next_ref w) v) as [h v'].
    destruct (updateValueAndCache (set_next_ref w h) u v' (opt_cacheReplace o) false).
    discriminate.
  - injection Hrej as <- <-. unfold pushEvent. rewrite Hsub, Hmute. simpl.
    eexists. split; [reflexivity|].
    unfold failReasonOrder, distinctCheck.
    destruct (_isFrozen u), (isValidValue (u_flavor u) v),
      (cfg_distinctDispatchCheck (u_config u)), (strict_eq v raw), (opt_force o),
      (cfg_customDispatchCheck (u_config u)) as [chk|];
      try destruct (chk raw v) eqn:Hc; simpl;
      repeat split; intros; try discriminate;
      try solve [intuition congruence];
      try solve [destruct Hspec as [_ Hs]; exfalso;
                 discriminate Hs; intuition congruence];
      try solve [eexists; split; [reflexivity|]; assumption];
      firstorder congruence.
Qed.

Lemma dispatch_fail_reason_witness :
  exists w' u', dispatch env0 w0 unitBothChecks (DValue (str "a")) noOptions = Returns (w', u', false) /\
  exists r, u_events u' = EventUnitDispatchFail (str "a") r :: u_events unitBothChecks /\
            failReasonOrder unitBothChecks (snd (rawValue (next_ref w0) unitBothChecks)) (str "a")
              (opt_force noOptions) r.
Proof.
  do 2 eexists. split; [reflexivity|].
  eapply (dispatch_fail_reason env0 w0 unitBothChecks (str "a") noOptions);
    [reflexivity | reflexivity | reflexivity].
Defined.

(** C5 counterexample: the custom check and the distinct check both reject
    "a", and the reason reported is DISTINCT_CHECK, not CUSTOM_DISPATCH_CHECK. *)
Lemma dispatch_fail_reason_counterexample :
  cfg_customDispatchCheck (u_config unitBothChecks) = Some rejectAll /\
  rejectAll (str "a") (str "a") = false /\
  cfg_distinctDispatchCheck (u_config unitBothChecks) = true /\
  snd (rawValue (next_ref w0) unitBothChecks) = str "a" /\
  exists w' u', dispatch env0 w0 unitBothChecks (DValue (str "a")) noOptions = Returns (w', u', false) /\
  hd_error (u_events u') = Some (EventUnitDispatchFail (str "a") DISTINCT_CHECK).
Proof.
  repeat split; try reflexivity.
  do 2 eexists. split; reflexivity.
Qed.

(** ** Selection *)

(** C9: [new Selection(unit, path)] throws exactly when the Unit is not a
    ListUnit, DictUnit or GenericUnit, or the path is empty, or some segment
    is neither a string nor a number; every number, negative or not, is an
    accepted segment. *)
Theorem newSelection_throws_iff (u : UnitState) (path : list jsval) :
  (exists m, newSelection u path = Throws m) <->
  (isNonPrimitive (u_flavor u) = false \/ path = [] \/
   exists k, In k path /\ (forall s, k <> JStr s) /\ (forall n, k <> JNum n)).
Proof.
  unfold newSelection, checkPath.
  destruct (isNonPrimitive (u_flavor u)); simpl.
  - destruct path as [|k0 t].
    + split; [intros _; auto | intros _; eexists; reflexivity].
    + destruct (existsb _ (k0 :: t)) eqn:E.
      * apply existsb_exists in E as [k [Hin Hk]].
        split; [intros _ | intros _; eexists; reflexivity].
        right; right. exists k. split; [exact Hin|].
        destruct k; try discriminate; split; intros; discriminate.
      * split; [intros [m Hm]; discriminate|].
        intros [H|[H|[k [Hin [Hs Hn]]]]]; try discriminate.
        assert (Hf : existsb (fun key => match key with JStr _ | JNum _ => false | _ => true end)
                       (k0 :: t) = true).
        { apply existsb_exists. exists k. split; [exact Hin|].
          destruct k; try reflexivity; [exfalso; eapply Hn; reflexivity
                                       | exfalso; eapply Hs; reflexivity]. }
        rewrite Hf in E. discriminate.
  - split; [intros _; auto | intros _; eexists; reflexivity].
Qed.

(** C9 counterexample: a ListUnit accepts the path [[-1]] (and [[NaN]]). *)
Lemma newSelection_counterexample :
  (exists sel, newSelection (freshUnit ListUnit (plainConfig JUndefined)) [JNum (NFin (-1))] = Returns sel)
  /\ (exists sel, newSelection (freshUnit ListUnit (plainConfig JUndefined)) [JNum NNaN] = Returns sel).
Proof. split; eexists; reflexivity. Qed.

(** ** Frozen Units *)

Lemma wouldDispatch_frozen (h : nat) (u : UnitState) (v : jsval) (force : bool) :
  _isFrozen u = true -> wouldDispatch h u v force = false.
Proof.
  intros Hf. destruct (wouldDispatch h u v force) eqn:E; [|reflexivity].
  apply wouldDispatch_spec in E as [E _]. congruence.
Qed.

Lemma pushEvent_contents (u : UnitState) (e : UnitEvent) :
  unitContents (pushEvent u e) = unitContents u.
Proof. unfold pushEvent. destruct (eventsSubject u && negb (_isMuted u)); reflexivity. Qed.

Lemma jump_frozen (w : world) (u : UnitState) (steps : num) :
  _isFrozen u = true -> jump w u steps = (w, u, false).
Proof. intros Hf. unfold jump. rewrite Hf. reflexivity. Qed.

Lemma pushEvent_frozen (u : UnitState) (e : UnitEvent) :
  _isFrozen (pushEvent u e) = _isFrozen u.
Proof. unfold pushEvent. destruct (eventsSubject u && negb (_isMuted u)); reflexivity. Qed.

Lemma unfreeze_idem (u : UnitState) : unfreeze (unfreeze u) = unfreeze u.
Proof.
  unfold unfreeze. destruct (_isFrozen u) eqn:Hf; simpl.
  - rewrite pushEvent_frozen. reflexivity.
  - rewrite Hf. reflexivity.
Qed.




(** ** [updateValueAndCache] and [pushEvent] *)

Lemma pushEvent_is_set_events (u : UnitState) (e : UnitEvent) :
  exists on es, pushEvent u e = set_events u on es.
Proof.
  unfold pushEvent. destruct (eventsSubject u && negb (_isMuted u)).
  - do 2 eexists; reflexivity.
  - exists (eventsSubject u), (u_events u). destruct u; reflexivity.
Qed.

Lemma updateValueAndCache_spec (w : world) (u : UnitState) (v : jsval) (cr sc : bool) :
  let '(w', u') := updateValueAndCache w u v cr sc in
  _value u' = v /\
  (if _isMuted u then _emitCount u' = _emitCount u /\ emitOnUnmute u' = true
   else _emitCount u' = S (_emitCount u) /\ emitOnUnmute u' = false) /\
  (if sc then _cachedValues u' = _cachedValues u /\ _cacheIndex u' = _cacheIndex u
   else (_cachedValues u', _cacheIndex u') =
        updateCache (cacheSize u) (_cachedValues u) (_cacheIndex u) v cr) /\
  _isFrozen u' = _isFrozen u /\ _isMuted u' = _isMuted u /\ u_flavor u' = u_flavor u /\
  u_config u' = u_config u /\ cacheSize u' = cacheSize u /\
  _initialValue u' = _initialValue u /\ eventsSubject u' = eventsSubject u /\
  u_events u' = u_events u.
Proof.
  unfold updateValueAndCache.
  destruct sc.
  - simpl. destruct (_isMuted u) eqn:Hm; simpl; try rewrite Hm.
    + repeat split; congruence.
    + unfold emit. destruct (value (next_ref w) _).
      simpl. repeat split; congruence.
  - destruct (updateCache (cacheSize u) (_cachedValues u) (_cacheIndex u) v cr) as [c i] eqn:Hc.
    simpl. destruct (_isMuted u) eqn:Hm; simpl; try rewrite Hm.
    + repeat split; congruence.
    + unfold emit. destruct (value (next_ref w) _).
      simpl. repeat split; congruence.
Qed.

(** ** clearValue and resetValue *)



(** ** Construction does not consult the dispatch checks *)

Section SameButChecks.
Variable u : UnitState.
Variable c : UnitConfig.
Hypothesis Hc : sameButChecks (u_config u) c.

Lemma emit_withConfig (w : world) :
  emit w (withConfig u c) = (fst (emit w u), withConfig (snd (emit w u)) c).
Proof.
  destruct Hc as (_ & Himm & _ & _).
  unfold emit, value, deepCopyMaybe, rawValue. simpl. rewrite <- Himm.
  destruct (applyFallbackValue (u_flavor u) (next_ref w) (_value u)) as [h r].
  destruct (cfg_immutable (u_config u)); [destruct (deepCopy h r)|]; reflexivity.
Qed.

Lemma updateValueInPersistentStorage_withConfig (w : world) :
  updateValueInPersistentStorage w (withConfig u c) = updateValueInPersistentStorage w u.
Proof.
  destruct Hc as (Hid & _ & Hp & Hs).
  unfold updateValueInPersistentStorage, rawValue. simpl. rewrite <- Hid, <- Hp, <- Hs.
  reflexivity.
Qed.
End SameButChecks.

Lemma updateValueAndCache_withConfig (u : UnitState) (c : UnitConfig) (w : world) (v : jsval)
    (cr sc : bool) :
  sameButChecks (u_config u) c ->
  updateValueAndCache w (withConfig u c) v cr sc =
  (fst (updateValueAndCache w u v cr sc), withConfig (snd (updateValueAndCache w u v cr sc)) c).
Proof.
  intros Hc. unfold updateValueAndCache.
  set (u1 := if sc then u else let '(c0, i) := updateCache (cacheSize u) (_cachedValues u)
                                                  (_cacheIndex u) v cr in set_cache u c0 i).
  assert (H1 : (if sc then withConfig u c
                else let '(c0, i) := updateCache (cacheSize (withConfig u c))
                                       (_cachedValues (withConfig u c)) (_cacheIndex (withConfig u c)) v cr
                     in set_cache (withConfig u c) c0 i) = withConfig u1 c).
  { subst u1. destruct sc; [reflexivity|]. simpl.
    destruct (updateCache _ _ _ v cr); reflexivity. }
  rewrite H1.
  assert (Hc1 : sameButChecks (u_config u1) c).
  { subst u1. destruct sc; [exact Hc|]. destruct (updateCache _ _ _ v cr); exact Hc. }
  change (set_value (withConfig u1 c) v) with (withConfig (set_value u1 v) c).
  simpl. destruct (_isMuted u1).
  - change (set_emitOnUnmute (withConfig (set_value u1 v) c) true)
      with (withConfig (set_emitOnUnmute (set_value u1 v) true) c).
    rewrite updateValueInPersistentStorage_withConfig by exact Hc1. reflexivity.
  - change (set_emitOnUnmute (withConfig (set_value u1 v) c) false)
      with (withConfig (set_emitOnUnmute (set_value u1 v) false) c).
    rewrite emit_withConfig by exact Hc1.
    destruct (emit w (set_emitOnUnmute (set_value u1 v) false)) as [w3 u3] eqn:He. simpl.
    rewrite updateValueInPersistentStorage_withConfig; [reflexivity|].
    unfold emit in He. destruct (value _ _) in He. injection He as _ <-. exact Hc1.
Qed.

Lemma dispatchInitialValue_withConfig (u : UnitState) (c : UnitConfig) (w : world) (iv : jsval) :
  sameButChecks (u_config u) c ->
  dispatchInitialValue w (withConfig u c) iv =
  (fst (dispatchInitialValue w u iv), withConfig (snd (dispatchInitialValue w u iv)) c).
Proof.
  intros Hc. unfold dispatchInitialValue. simpl.
  destruct (shouldDispatchInitialValue (u_flavor u) iv).
  - change (set_initialValue (withConfig u c) iv) with (withConfig (set_initialValue u iv) c).
    change (initialValueRaw (next_ref w) (withConfig (set_initialValue u iv) c))
      with (initialValueRaw (next_ref w) (set_initialValue u iv)).
    destruct (initialValueRaw (next_ref w) (set_initialValue u iv)) as [h i].
    apply updateValueAndCache_withConfig. exact Hc.
  - destruct (defaultValue (u_flavor u) (next_ref w)) as [h d].
    apply updateValueAndCache_withConfig. exact Hc.
Qed.

Lemma restoreValueFromPersistentStorage_withConfig (env : Environment) (u : UnitState)
    (c : UnitConfig) (w : world) (iv : jsval) :
  sameButChecks (u_config u) c ->
  restoreValueFromPersistentStorage env w (withConfig u c) iv =
  mapUnit c (restoreValueFromPersistentStorage env w u iv).
Proof.
  intros Hc. pose proof Hc as (Hid & Himm & _ & Hs).
  unfold restoreValueFromPersistentStorage, unitKey, deepCopyMaybe. simpl.
  rewrite <- Hid, <- Hs, <- Himm.
  destruct (retrieve _ _ w) as [w1 saved].
  destruct (truthy saved).
  - rewrite dispatchInitialValue_withConfig by exact Hc.
    destruct (dispatchInitialValue w1 u _); reflexivity.
  - destruct (env_checkSerializability env && negb (isSerializable iv)); [reflexivity|].
    destruct (if cfg_immutable (u_config u) then deepCopy (next_ref w1) iv else (next_ref w1, iv)).
    rewrite dispatchInitialValue_withConfig by exact Hc.
    destruct (dispatchInitialValue _ u _); reflexivity.
Qed.

(** ** [deepCopy] preserves the shape of a value *)

Lemma deepCopy_strip (v : jsval) : forall h, strip (snd (deepCopy h v)) = strip v.
Proof.
  induction v as [| | b | n | s | r l Hl | r ps Hps | r] using jsval_ind'; intros h;
    try reflexivity.
  - revert h. induction Hl as [|x t Hx Ht IH]; intros h; [reflexivity|].
    simpl. destruct (deepCopy h x) as [h' x'] eqn:E.
    specialize (IH h'). simpl in IH.
    destruct ((fix go (h0 : nat) (l0 : list jsval) {struct l0} : nat * list jsval :=
                 match l0 with
                 | [] => (h0, [])
                 | x0 :: t0 =>
                     let '(h'0, x'0) := deepCopy h0 x0 in
                     let '(h'', t') := go h'0 t0 in (h'', x'0 :: t')
                 end) h' t) as [h'' t'] eqn:E2.
    simpl in IH |- *. injection IH as IH. rewrite IH.
    specialize (Hx h). rewrite E in Hx. simpl in Hx. rewrite Hx. reflexivity.
  - revert h. induction Hps as [|[k x] t Hx Ht IH]; intros h; [reflexivity|].
    simpl. destruct (deepCopy h x) as [h' x'] eqn:E.
    specialize (IH h'). simpl in IH.
    destruct ((fix go (h0 : nat) (ps0 : list (string * jsval)) {struct ps0}
                 : nat * list (string * jsval) :=
                 match ps0 with
                 | [] => (h0, [])
                 | (k0, x0) :: t0 =>
                     let '(h'0, x'0) := deepCopy h0 x0 in
                     let '(h'', t') := go h'0 t0 in (h'', (k0, x'0) :: t')
                 end) h' t) as [h'' t'] eqn:E2.
    simpl in IH |- *. injection IH as IH. rewrite IH.
    specialize (Hx h). simpl in Hx. rewrite E in Hx. simpl in Hx. rewrite Hx. reflexivity.
Qed.

Lemma isValidValue_strip (f : flavor) (a b : jsval) :
  strip a = strip b -> isValidValue f a = isValidValue f b.
Proof.
  intros H. destruct a, b; simpl in H; try discriminate;
    try (injection H as H; subst); destruct f; reflexivity.
Qed.

Lemma isUndefined_strip (a b : jsval) : strip a = strip b -> isUndefined a = isUndefined b.
Proof. intros H. destruct a, b; simpl in H; try discriminate; reflexivity. Qed.

Lemma deepCopyMaybe_strip (u : UnitState) (h : nat) (v : jsval) :
  strip (snd (deepCopyMaybe u h v)) = strip v.
Proof. unfold deepCopyMaybe. destruct (cfg_immutable (u_config u)); [apply deepCopy_strip | reflexivity]. Qed.

(** [dispatchInitialValue] installs a defined valid value as is. *)
Lemma dispatchInitialValue_valid (w : world) (u : UnitState) (iv : jsval) :
  isUndefined iv = false -> isValidValue (u_flavor u) iv = true ->
  let '(w', u') := dispatchInitialValue w u iv in
  _value u' = iv /\ _initialValue u' = iv /\
  (if _isMuted u then _emitCount u' = _emitCount u else _emitCount u' = S (_emitCount u)).
Proof.
  intros Hu Hv. unfold dispatchInitialValue, shouldDispatchInitialValue.
  rewrite Hu, Hv. simpl.
  assert (Hi : initialValueRaw (next_ref w) (set_initialValue u iv) = (next_ref w, iv)).
  { unfold initialValueRaw, applyFallbackValue. simpl. destruct iv; easy. }
  rewrite Hi.
  pose proof (updateValueAndCache_spec (set_next_ref w (next_ref w)) (set_initialValue u iv) iv false false)
    as Hs.
  destruct (updateValueAndCache _ _ iv false false) as [w' u'].
  destruct Hs as (Hval & Hem & _ & _ & _ & _ & _ & _ & Hiv & _).
  simpl in Hem, Hiv. split; [exact Hval|]. split; [exact Hiv|].
  destruct (_isMuted u); tauto.
Qed.




(** ** The cache under dispatch and navigation *)

Lemma dispatch_accepted_state (env : Environment) (w : world) (u : UnitState) (v : jsval)
    (o : DispatchOptions) (w' : world) (u' : UnitState) :
  dispatch env w u (DValue v) o = Returns (w', u', true) ->
  _isFrozen u = false /\ isValidValue (u_flavor u) v = true /\
  strip (_value u') = strip v /\
  (_cachedValues u', _cacheIndex u') =
    updateCache (cacheSize u) (_cachedValues u) (_cacheIndex u) (_value u') (opt_cacheReplace o) /\
  cacheSize u' = cacheSize u /\ _isFrozen u' = _isFrozen u /\ _isMuted u' = _isMuted u /\
  u_flavor u' = u_flavor u /\ u_config u' = u_config u /\
  (if _isMuted u then _emitCount u' = _emitCount u else _emitCount u' = S (_emitCount u)).
Proof.
  intros H. unfold dispatch in H.
  destruct (env_checkSerializability env && negb (isSerializable v)); [discriminate|].
  destruct (wouldDispatch (next_ref w) u v (opt_force o)) eqn:Hw; [|discriminate].
  apply wouldDispatch_spec in Hw as (Hf & Hv & _).
  pose proof (deepCopyMaybe_strip u (next_ref w) v) as Hs.
  destruct (deepCopyMaybe u (next_ref w) v) as [h v']. simpl in Hs.
  pose proof (updateValueAndCache_spec (set_next_ref w h) u v' (opt_cacheReplace o) false) as Hu.
  destruct (updateValueAndCache (set_next_ref w h) u v' (opt_cacheReplace o) false) as [w1 u1].
  injection H as _ <-.
  destruct (pushEvent_is_set_events u1 (EventUnitDispatch v)) as [on [es ->]]. simpl.
  destruct Hu as (Hval & Hem & Hc & Hfr & Hmu & Hfl & Hcf & Hcs & _).
  rewrite Hval. repeat split; try assumption; try congruence.
  destruct (_isMuted u); tauto.
Qed.

(** [updateCache] after a navigation back: everything after the index goes. *)
Lemma updateCache_branch (cs : option nat) (c : list jsval) (idx : nat) (v : jsval) :
  S idx < length c ->
  updateCache cs c idx v false = (firstn (S idx) c ++ [v], S idx).
Proof.
  intros H. unfold updateCache.
  replace (Nat.eqb (length c) 0) with false by (symmetry; apply Nat.eqb_neq; lia).
  replace (Nat.eqb idx (length c - 1)) with false by (symmetry; apply Nat.eqb_neq; lia).
  cbn [orb]. rewrite (skipn_all2 c) by lia. rewrite app_nil_r. reflexivity.
Qed.

(** [updateCache] at the last slot appends and evicts from the front only:
    a suffix [s] shorter than the capacity stays in place. *)
Lemma updateCache_append_suffix (cs : option nat) (c : list jsval) (idx : nat) (v : jsval)
    (s : list jsval) :
  idx = length c - 1 -> capacityAtLeast cs (S (length s)) -> (exists pre, c = pre ++ s) ->
  let '(c', i') := updateCache cs c idx v false in
  (exists pre', c' = pre' ++ s ++ [v]) /\ i' = length c' - 1.
Proof.
  intros Hidx Hcap [pre ->]. unfold updateCache.
  rewrite Hidx, Nat.eqb_refl, orb_true_r.
  destruct (exceedsCacheSize (length ((pre ++ s) ++ [v])) cs) eqn:Hex.
  - destruct cs as [k|]; [|discriminate]. simpl in Hcap, Hex.
    apply Nat.ltb_lt in Hex. rewrite !length_app in Hex. simpl in Hex.
    destruct pre as [|p pre']; [simpl in Hex; lia|].
    split; [exists pre'; simpl; rewrite <- app_assoc; reflexivity | reflexivity].
  - split; [exists pre; rewrite <- app_assoc; reflexivity | reflexivity].
Qed.

(** Any accepted dispatch without [cacheReplace] leaves the index at the last
    slot, holding the dispatched value, on a cache whose index is in range. *)
Lemma updateCache_last (cs : option nat) (c : list jsval) (idx : nat) (v : jsval) :
  capacityAtLeast cs 1 -> idx <= length c - 1 ->
  let '(c', i') := updateCache cs c idx v false in
  (exists pre', c' = pre' ++ [v]) /\ i' = length c' - 1.
Proof.
  intros Hcap Hidx.
  destruct (Nat.eq_dec idx (length c - 1)) as [E|E].
  - pose proof (updateCache_append_suffix cs c idx v [] E Hcap
                  (ex_intro _ c (eq_sym (app_nil_r c)))) as H.
    destruct (updateCache cs c idx v false) as [c' i']. exact H.
  - rewrite updateCache_branch by lia.
    split; [eexists; reflexivity|].
    rewrite length_app, length_firstn, Nat.min_l by lia. simpl. lia.
Qed.

(** A successful [jump] moves the index and installs the cached value there,
    without touching the cache. *)
Lemma jump_success (w : world) (u : UnitState) (s : Z) :
  _isFrozen u = false ->
  (0 <= Z.of_nat (_cacheIndex u) + s)%Z -> s <> 0%Z ->
  (Z.of_nat (_cacheIndex u) + s <= Z.of_nat (length (_cachedValues u)) - 1)%Z ->
  exists w' u', jump w u (NFin s) = (w', u', true) /\
    _cachedValues u' = _cachedValues u /\
    _cacheIndex u' = Z.to_nat (Z.of_nat (_cacheIndex u) + s) /\
    _value u' = nth (_cacheIndex u') (_cachedValues u) JUndefined /\
    cacheSize u' = cacheSize u /\ _isFrozen u' = false /\ _isMuted u' = _isMuted u /\
    u_flavor u' = u_flavor u /\ u_config u' = u_config u /\
    (if _isMuted u then _emitCount u' = _emitCount u else _emitCount u' = S (_emitCount u)).
Proof.
  intros Hf H1 H2 H3. unfold jump. rewrite Hf.
  replace (Z.ltb (Z.of_nat (_cacheIndex u) + s) 0) with false by (symmetry; apply Z.ltb_ge; lia).
  replace (Z.eqb (Z.of_nat (_cacheIndex u) + s) (Z.of_nat (_cacheIndex u))) with false
    by (symmetry; apply Z.eqb_neq; lia).
  replace (Z.gtb (Z.of_nat (_cacheIndex u) + s) (Z.of_nat (length (_cachedValues u)) - 1)) with false
    by (symmetry; rewrite Z.gtb_ltb; apply Z.ltb_ge; lia).
  cbn [orb].
  set (i := Z.to_nat (Z.of_nat (_cacheIndex u) + s)).
  pose proof (updateValueAndCache_spec w (set_cacheIndex u i)
                (nth i (_cachedValues (set_cacheIndex u i)) JUndefined) false true) as Hu.
  destruct (updateValueAndCache w (set_cacheIndex u i) _ false true) as [w2 u2].
  destruct (pushEvent_is_set_events u2 (EventUnitJump s (Z.of_nat (_cacheIndex u) + s))) as [on [es ->]].
  destruct Hu as (Hval & Hem & [Hc Hi] & Hfr & Hmu & Hfl & Hcf & Hcs & _).
  simpl in *. exists w2, (set_events u2 on es). simpl.
  rewrite Hi. repeat split; try congruence.
  destruct (_isMuted u); tauto.
Qed.

Lemma goForward_at_last (w : world) (u : UnitState) :
  _cacheIndex u = length (_cachedValues u) - 1 -> goForward w u = (w, u, false).
Proof.
  intros H. unfold goForward, jump. destruct (_isFrozen u); [reflexivity|].
  replace (Z.gtb (Z.of_nat (_cacheIndex u) + 1) (Z.of_nat (length (_cachedValues u)) - 1)) with true
    by (symmetry; rewrite Z.gtb_ltb; apply Z.ltb_lt; lia).
  rewrite orb_true_r. reflexivity.
Qed.

Lemma capacityAtLeast_mono (cs : option nat) (m n : nat) :
  capacityAtLeast cs m -> n <= m -> capacityAtLeast cs n.
Proof. destruct cs; simpl; lia. Qed.

Lemma dispatch_step_last (env : Environment) (w : world) (u : UnitState) (v : jsval)
    (w' : world) (u' : UnitState) :
  capacityAtLeast (cacheSize u) 1 -> _cacheIndex u <= length (_cachedValues u) - 1 ->
  dispatch env w u (DValue v) noOptions = Returns (w', u', true) ->
  (exists pre', _cachedValues u' = pre' ++ [_value u']) /\
  _cacheIndex u' = length (_cachedValues u') - 1 /\ strip (_value u') = strip v /\
  cacheSize u' = cacheSize u /\ _isFrozen u' = false.
Proof.
  intros Hcap Hidx Hd.
  apply dispatch_accepted_state in Hd as (Hf & _ & Hs & Hc & Hcs & Hfr & _).
  pose proof (updateCache_last (cacheSize u) (_cachedValues u) (_cacheIndex u) (_value u') Hcap Hidx)
    as H.
  change (opt_cacheReplace noOptions) with false in Hc. rewrite <- Hc in H. destruct H as [H1 H2].
  repeat split; try assumption; congruence.
Qed.

Lemma dispatch_step_suffix (env : Environment) (w : world) (u : UnitState) (v : jsval)
    (w' : world) (u' : UnitState) (s : list jsval) :
  capacityAtLeast (cacheSize u) (S (length s)) ->
  _cacheIndex u = length (_cachedValues u) - 1 -> (exists pre, _cachedValues u = pre ++ s) ->
  dispatch env w u (DValue v) noOptions = Returns (w', u', true) ->
  (exists pre', _cachedValues u' = pre' ++ s ++ [_value u']) /\
  _cacheIndex u' = length (_cachedValues u') - 1 /\ strip (_value u') = strip v /\
  cacheSize u' = cacheSize u /\ _isFrozen u' = false.
Proof.
  intros Hcap Hidx Hpre Hd.
  apply dispatch_accepted_state in Hd as (Hf & _ & Hs & Hc & Hcs & Hfr & _).
  pose proof (updateCache_append_suffix (cacheSize u) (_cachedValues u) (_cacheIndex u) (_value u') s
                Hidx Hcap Hpre) as H.
  change (opt_cacheReplace noOptions) with false in Hc. rewrite <- Hc in H. destruct H as [H1 H2].
  repeat split; try assumption; congruence.
Qed.

Lemma firstn_drop_last_two (p : list jsval) (a b c d e : jsval) :
  firstn (S (length p + 1)) (p ++ [a; b; c; d]) ++ [e] = p ++ [a; b; e].
Proof. induction p as [|y p IH]; [reflexivity|]. simpl in *. rewrite IH. reflexivity. Qed.



Example branch_scenario_example :
  _cachedValues (snd stage4) = [str "v1"; str "v2"; str "v3"; str "v4"] /\
  _cachedValues (snd stage7) = [str "v1"; str "v2"; str "v5"] /\
  _cacheIndex (snd stage7) = 2 /\
  goForward (fst stage7) (snd stage7) = (fst stage7, snd stage7, false).
Proof. vm_compute. repeat split; reflexivity. Qed.

(** ** The cache invariant *)

Lemma computeCacheSize_ge1 (c : jsval) : capacityAtLeast (computeCacheSize c) 1.
Proof.
  destruct c as [| | | [z| | |] | | | |]; simpl; try lia.
Qed.

Lemma updateCache_invariant (cs : option nat) (c : list jsval) (idx : nat) (v : jsval) (cr : bool) :
  cacheInvariant cs c idx ->
  let '(c', i') := updateCache cs c idx v cr in
  cacheInvariant cs c' i' /\ nth_error c' i' = Some v.
Proof.
  intros (Hidx & Hlen & Hone). destruct cr.
  - unfold updateCache, arraySet. destruct (Nat.ltb idx (length c)) eqn:Hlt.
    + apply Nat.ltb_lt in Hlt.
      assert (L : length (firstn idx c ++ [v] ++ skipn (S idx) c) = length c).
      { rewrite !length_app, length_firstn, length_skipn. simpl. lia. }
      split; [unfold cacheInvariant; rewrite L; auto |].
      rewrite nth_error_app2 by (rewrite length_firstn; lia).
      rewrite length_firstn. replace (idx - Nat.min idx (length c)) with 0 by lia. reflexivity.
    + apply Nat.ltb_ge in Hlt. destruct Hidx as [[H0 ->]|H]; [|lia].
      destruct c; [|discriminate]. simpl.
      split; [unfold cacheInvariant; simpl; auto | reflexivity].
  - destruct (Nat.eqb (length c) 0 || Nat.eqb idx (length c - 1)) eqn:Hm.
    + unfold updateCache. rewrite Hm.
      destruct (exceedsCacheSize (length (c ++ [v])) cs) eqn:Hex.
      * destruct cs as [k|]; [|discriminate]. simpl in Hex, Hlen, Hone.
        apply Nat.ltb_lt in Hex. rewrite length_app in Hex. simpl in Hex.
        destruct c as [|x c0]; [simpl in Hex; lia|]. simpl in *.
        unfold cacheInvariant. simpl. rewrite length_app. simpl.
        split; [split; [right; lia | split; lia] |].
        rewrite nth_error_app2 by lia. replace (length c0 + 1 - 1 - length c0) with 0 by lia.
        reflexivity.
      * destruct cs as [k|] eqn:Hcs.
        -- simpl in Hex. apply Nat.ltb_ge in Hex. unfold cacheInvariant. simpl.
           rewrite length_app in *. simpl in *.
           split; [split; [right; lia | split; lia] |].
           rewrite nth_error_app2 by lia. replace (length c + 1 - 1 - length c) with 0 by lia.
           reflexivity.
        -- unfold cacheInvariant. simpl. rewrite length_app. simpl.
           split; [split; [right; lia | auto] |].
           rewrite nth_error_app2 by lia. replace (length c + 1 - 1 - length c) with 0 by lia.
           reflexivity.
    + apply orb_false_iff in Hm as [H1 H2]. apply Nat.eqb_neq in H1, H2.
      assert (Hlt : S idx < length c) by (destruct Hidx as [[]|]; lia).
      rewrite (updateCache_branch cs c idx v Hlt).
      assert (L : length (firstn (S idx) c ++ [v]) = S (S idx)).
      { rewrite length_app, length_firstn, Nat.min_l by lia. simpl. lia. }
      split.
      * unfold cacheInvariant. rewrite L. split; [right; lia|].
        split; [|exact Hone]. apply (capacityAtLeast_mono _ _ _ Hlen). lia.
      * rewrite nth_error_app2 by (rewrite length_firstn; lia).
        rewrite length_firstn. replace (S idx - Nat.min (S idx) (length c)) with 0 by lia.
        reflexivity.
Qed.

Lemma pushEvent_cache (u : UnitState) (e : UnitEvent) :
  _cachedValues (pushEvent u e) = _cachedValues u /\ _cacheIndex (pushEvent u e) = _cacheIndex u /\
  _value (pushEvent u e) = _value u /\ cacheSize (pushEvent u e) = cacheSize u.
Proof. destruct (pushEvent_is_set_events u e) as [on [es ->]]. repeat split. Qed.

(** The effect on the cache of [updateValueAndCache] without [skipCache]. *)
Lemma updateValueAndCache_cache (w : world) (u : UnitState) (v : jsval) (cr : bool) :
  let '(_, u') := updateValueAndCache w u v cr false in
  (_cachedValues u', _cacheIndex u') = updateCache (cacheSize u) (_cachedValues u) (_cacheIndex u) v cr /\
  _value u' = v /\ cacheSize u' = cacheSize u.
Proof.
  pose proof (updateValueAndCache_spec w u v cr false) as H.
  destruct (updateValueAndCache w u v cr false) as [w' u'].
  destruct H as (Hv & _ & Hc & _ & _ & _ & _ & Hcs & _). auto.
Qed.

(** Every dispatch, of a value or of a producer, either leaves the cache,
    index and value alone or updates them with [updateCache]. *)
Lemma dispatch_cache_effect (env : Environment) (w : world) (u : UnitState) (vp : ValueOrProducer)
    (o : DispatchOptions) (w' : world) (u' : UnitState) (b : bool) :
  dispatch env w u vp o = Returns (w', u', b) ->
  (b = false /\ _cachedValues u' = _cachedValues u /\ _cacheIndex u' = _cacheIndex u /\
   _value u' = _value u /\ cacheSize u' = cacheSize u) \/
  (b = true /\
   (_cachedValues u', _cacheIndex u') =
     updateCache (cacheSize u) (_cachedValues u) (_cacheIndex u) (_value u') (opt_cacheReplace o) /\
   cacheSize u' = cacheSize u).
Proof.
  intros H. unfold dispatch in H.
  destruct (match vp with
            | DValue v => (w, v)
            | DProducer p => let '(h, cur) := value (next_ref w) u in (set_next_ref w h, p cur)
            end) as [w0 v].
  destruct (env_checkSerializability env && negb (isSerializable v)); [discriminate|].
  destruct (wouldDispatch (next_ref w0) u v (opt_force o)).
  - destruct (deepCopyMaybe u (next_ref w0) v) as [h v'].
    pose proof (updateValueAndCache_cache (set_next_ref w0 h) u v' (opt_cacheReplace o)) as Hc.
    destruct (updateValueAndCache (set_next_ref w0 h) u v' (opt_cacheReplace o) false) as [w1 u1].
    injection H as _ <- <-. right.
    destruct (pushEvent_cache u1 (EventUnitDispatch v)) as (E1 & E2 & E3 & E4).
    rewrite E1, E2, E3, E4. destruct Hc as (Hc & Hv & Hcs). rewrite Hv. auto.
  - injection H as _ <- <-. left. split; [reflexivity|]. apply pushEvent_cache.
Qed.

Lemma jump_cache_effect (w : world) (u : UnitState) (s : num) (w' : world) (u' : UnitState) (b : bool) :
  cacheWellFormed u -> jump w u s = (w', u', b) ->
  (b = false /\ u' = u) \/
  (b = true /\ _cachedValues u' = _cachedValues u /\ _cacheIndex u' < length (_cachedValues u) /\
   _value u' = nth (_cacheIndex u') (_cachedValues u) JUndefined /\ cacheSize u' = cacheSize u).
Proof.
  intros Hwf H. destruct (_isFrozen u) eqn:Hf.
  - rewrite jump_frozen in H by exact Hf. injection H as _ <- <-. auto.
  - destruct s as [s| | |];
      try (unfold jump in H; rewrite Hf in H; injection H as _ <- <-; left; auto).
    destruct (Z.ltb (Z.of_nat (_cacheIndex u) + s) 0
              || Z.eqb (Z.of_nat (_cacheIndex u) + s) (Z.of_nat (_cacheIndex u))
              || Z.gtb (Z.of_nat (_cacheIndex u) + s) (Z.of_nat (length (_cachedValues u)) - 1)) eqn:Hc.
    + unfold jump in H. rewrite Hf in H. cbv beta iota zeta in H. rewrite Hc in H.
      injection H as _ <- <-. auto.
    + apply orb_false_iff in Hc as [Hc H3]. apply orb_false_iff in Hc as [H1 H2].
      apply Z.ltb_ge in H1. apply Z.eqb_neq in H2. rewrite Z.gtb_ltb in H3. apply Z.ltb_ge in H3.
      destruct (jump_success w u s Hf H1 ltac:(lia) H3)
        as (w2 & u2 & Hj & K & J & V & CS & _).
      rewrite Hj in H. injection H as <- <- <-. right.
      repeat split; try assumption. lia.
Qed.

Lemma clearValue_cache_effect (w : world) (u : UnitState) (w' : world) (u' : UnitState) (b : bool) :
  clearValue w u = (w', u', b) ->
  (b = false /\ u' = u) \/
  (b = true /\
   (_cachedValues u', _cacheIndex u') =
     updateCache (cacheSize u) (_cachedValues u) (_cacheIndex u) (_value u') false /\
   cacheSize u' = cacheSize u).
Proof.
  intros H. unfold clearValue in H.
  destruct (_isFrozen u || Nat.eqb (_emitCount u) 0 || isEmpty (next_ref w) u).
  - injection H as _ <- <-. auto.
  - destruct (defaultValue (u_flavor u) (next_ref w)) as [h d].
    pose proof (updateValueAndCache_cache (set_next_ref w h) u d false) as Hc.
    destruct (updateValueAndCache (set_next_ref w h) u d false false) as [w1 u1].
    injection H as _ <- <-. right.
    destruct (pushEvent_cache u1 EventUnitClearValue) as (E1 & E2 & E3 & E4).
    rewrite E1, E2, E3, E4. destruct Hc as (Hc & Hv & Hcs). rewrite Hv. auto.
Qed.

Lemma resetValue_cache_effect (w : world) (u : UnitState) (w' : world) (u' : UnitState) (b : bool) :
  resetValue w u = (w', u', b) ->
  (b = false /\ u' = u) \/
  (b = true /\
   (_cachedValues u', _cacheIndex u') =
     updateCache (cacheSize u) (_cachedValues u) (_cacheIndex u) (_value u') false /\
   cacheSize u' = cacheSize u).
Proof.
  intros H. unfold resetValue in H.
  destruct (rawValue (next_ref w) u) as [h0 r].
  destruct (initialValueRaw h0 u) as [h1 i0].
  destruct (_isFrozen u || strict_eq r i0).
  - injection H as _ <- <-. auto.
  - destruct (initialValueRaw h1 u) as [h2 i].
    pose proof (updateValueAndCache_cache (set_next_ref w h2) u i false) as Hc.
    destruct (updateValueAndCache (set_next_ref w h2) u i false false) as [w1 u1].
    injection H as _ <- <-. right.
    destruct (pushEvent_cache u1 EventUnitResetValue) as (E1 & E2 & E3 & E4).
    rewrite E1, E2, E3, E4. destruct Hc as (Hc & Hv & Hcs). rewrite Hv. auto.
Qed.

Lemma clearCache_invariant (u : UnitState) (o : ClearCacheOptions) (u' : UnitState) (b : bool) :
  cacheWellFormed u -> clearCache u o = (u', b) -> cacheWellFormed u'.
Proof.
  intros (Hidx & Hlen & Hone) H. unfold clearCache in H.
  destruct (_isFrozen u || Nat.eqb (length (_cachedValues u)) 0
            || Nat.eqb (length (_cachedValues u)) 1 && (leaveFirst o || leaveLast o)
            || Nat.eqb (length (_cachedValues u)) 2 && leaveFirst o && leaveLast o).
  - injection H as <- _. split; auto.
  - injection H as <- _.
    set (st := if leaveFirst o then 1 else 0) in *.
    set (dc := length (_cachedValues u) - st - (if leaveLast o then 1 else 0)) in *.
    set (c := firstn st (_cachedValues u) ++ skipn (st + dc) (_cachedValues u)).
    assert (L : length c <= length (_cachedValues u)).
    { subst c. rewrite length_app, length_firstn, length_skipn. lia. }
    destruct (pushEvent_cache (set_cache u c (length c - 1)) EventUnitClearCache) as (E1 & E2 & _ & E4).
    unfold cacheWellFormed, cacheInvariant. rewrite E1, E2, E4. simpl.
    split; [destruct (length c) eqn:Lc; [left; auto | right; lia] |].
    split; [apply (capacityAtLeast_mono _ _ _ Hlen L) | exact Hone].
Qed.

Lemma invariant_after_update (cs cs' : option nat) (c c' : list jsval) (idx idx' : nat) (v : jsval) (cr : bool) :
  cacheInvariant cs c idx -> (c', idx') = updateCache cs c idx v cr -> cs' = cs ->
  cacheInvariant cs' c' idx' /\ nth_error c' idx' = Some v.
Proof.
  intros Hinv Hc ->. pose proof (updateCache_invariant cs c idx v cr Hinv) as H.
  rewrite <- Hc in H. exact H.
Qed.

Lemma dispatchInitialValue_fresh_invariant (w : world) (f : flavor) (cfg : UnitConfig) (iv : jsval) :
  let '(_, u') := dispatchInitialValue w (freshUnit f cfg) iv in
  cacheWellFormed u' /\ currentInCache u'.
Proof.
  assert (Hinv : cacheInvariant (cacheSize (freshUnit f cfg)) [] 0).
  { split; [left; auto|]. split; [destruct (cacheSize (freshUnit f cfg)); simpl; lia |].
    apply computeCacheSize_ge1. }
  unfold dispatchInitialValue.
  destruct (shouldDispatchInitialValue (u_flavor (freshUnit f cfg)) iv).
  - destruct (initialValueRaw (next_ref w) (set_initialValue (freshUnit f cfg) iv)) as [h i].
    pose proof (updateValueAndCache_cache (set_next_ref w h) (set_initialValue (freshUnit f cfg) iv) i false)
      as Hc.
    destruct (updateValueAndCache _ _ i false false) as [w1 u1].
    destruct Hc as (Hc & Hv & Hcs).
    destruct (invariant_after_update _ (cacheSize u1) _ _ _ _ i false Hinv Hc Hcs) as [H1 H2].
    split; [exact H1 | unfold currentInCache; rewrite Hv; exact H2].
  - destruct (defaultValue (u_flavor (freshUnit f cfg)) (next_ref w)) as [h d].
    pose proof (updateValueAndCache_cache (set_next_ref w h) (freshUnit f cfg) d false) as Hc.
    destruct (updateValueAndCache _ _ d false false) as [w1 u1].
    destruct Hc as (Hc & Hv & Hcs).
    destruct (invariant_after_update _ (cacheSize u1) _ _ _ _ d false Hinv Hc Hcs) as [H1 H2].
    split; [exact H1 | unfold currentInCache; rewrite Hv; exact H2].
Qed.

Lemma construct_invariant (env : Environment) (w : world) (f : flavor) (cfg : UnitConfig)
    (w' : world) (u : UnitState) :
  construct env w f cfg = Returns (w', u) -> cacheWellFormed u /\ currentInCache u.
Proof.
  intros H. unfold construct in H.
  destruct (match cfg_id cfg with Some id => negb (isValidId id) | None => cfg_persistent cfg end);
    [discriminate|].
  destruct (cfg_persistent cfg).
  - unfold restoreValueFromPersistentStorage in H.
    destruct (retrieve _ _ w) as [w1 saved].
    destruct (truthy saved).
    + injection H as H.
      pose proof (dispatchInitialValue_fresh_invariant w1 f cfg (get_prop saved "value"%string)) as Hi.
      rewrite H in Hi. exact Hi.
    + destruct (env_checkSerializability env && negb (isSerializable (cfg_initialValue cfg)));
        [discriminate|].
      destruct (deepCopyMaybe _ _ _) as [h iv']. injection H as H.
      pose proof (dispatchInitialValue_fresh_invariant (set_next_ref w1 h) f cfg iv') as Hi.
      rewrite H in Hi. exact Hi.
  - destruct (env_checkSerializability env && negb (isSerializable (cfg_initialValue cfg)));
      [discriminate|].
    destruct (deepCopyMaybe _ _ _) as [h iv']. injection H as H.
    pose proof (dispatchInitialValue_fresh_invariant (set_next_ref w h) f cfg iv') as Hi.
    rewrite H in Hi. exact Hi.
Qed.

Lemma cacheWellFormed_same (u u' : UnitState) :
  _cachedValues u' = _cachedValues u -> _cacheIndex u' = _cacheIndex u -> cacheSize u' = cacheSize u ->
  cacheWellFormed u -> cacheWellFormed u'.
Proof. intros H1 H2 H3. unfold cacheWellFormed. rewrite H1, H2, H3. auto. Qed.

Lemma updated_invariant (u u' : UnitState) (cr : bool) :
  cacheWellFormed u ->
  (_cachedValues u', _cacheIndex u') =
    updateCache (cacheSize u) (_cachedValues u) (_cacheIndex u) (_value u') cr ->
  cacheSize u' = cacheSize u ->
  cacheWellFormed u' /\ currentInCache u'.
Proof. intros Hwf Hc Hcs. exact (invariant_after_update _ _ _ _ _ _ _ _ Hwf Hc Hcs). Qed.




(** ** Persistence *)

Lemma stringify_strip (a : jsval) : forall b, strip a = strip b -> stringify a = stringify b.
Proof.
  induction a as [| | x | n | s | r l Hl | r ps Hps | r] using jsval_ind'; intros b H;
    destruct b; simpl in H; try discriminate; try reflexivity.
  - injection H as ->. reflexivity.
  - injection H as ->. reflexivity.
  - injection H as ->. reflexivity.
  - injection H as H. simpl. do 2 f_equal. revert items H.
    induction Hl as [|x t Hx Ht IH]; intros [|y ys] H; simpl in H; try discriminate; [reflexivity|].
    injection H as H1 H2. simpl. rewrite (Hx y H1), (IH ys H2). reflexivity.
  - injection H as H. simpl. do 2 f_equal. revert props H.
    induction Hps as [|[k x] t Hx Ht IH]; intros [|[k' y] ys] H; simpl in H; try discriminate;
      [reflexivity|].
    injection H as Hk H1 H2. subst k'. simpl in Hx. simpl.
    rewrite (Hx y H1). destruct (stringify y); rewrite (IH ys H2); reflexivity.
Qed.

Lemma save_retrieve (k : string) (v : jsval) (sid : nat) (w : world) :
  exists n, snd (retrieve k sid (save k v sid w)) =
  JObj n (match stringify v with
          | Some j => [("value"%string, snd (parse (next_ref w) j))]
          | None => []
          end).
Proof.
  unfold retrieve, save, store_set. cbn [stores store_get].
  rewrite Nat.eqb_refl, String.eqb_refl. cbn [andb].
  destruct (stringify v) as [j|]; cbn [parse next_ref snd].
  - destruct (parse (next_ref w) j) as [h x]. eexists. reflexivity.
  - eexists. reflexivity.
Qed.

Lemma pushEvent_value (u : UnitState) (e : UnitEvent) :
  _value (pushEvent u e) = _value u /\ u_flavor (pushEvent u e) = u_flavor u /\
  u_config (pushEvent u e) = u_config u.
Proof. unfold pushEvent. destruct (_ && _); [destruct u; simpl; auto | auto]. Qed.

Lemma updateValueInPersistentStorage_saves (w : world) (u : UnitState) :
  cfg_persistent (u_config u) = true ->
  updateValueInPersistentStorage w u =
  save (unitKey (u_config u)) (snd (rawValue (next_ref w) u)) (cfg_storage (u_config u))
       (set_next_ref w (fst (rawValue (next_ref w) u))).
Proof.
  intros Hp. unfold updateValueInPersistentStorage, unitKey. rewrite Hp.
  destruct (rawValue (next_ref w) u); reflexivity.
Qed.

Lemma updateValueAndCache_world (w : world) (u : UnitState) (v : jsval) (cr sc : bool)
    (w' : world) (u' : UnitState) :
  updateValueAndCache w u v cr sc = (w', u') -> exists w3, w' = updateValueInPersistentStorage w3 u'.
Proof.
  unfold updateValueAndCache. intros H.
  destruct (_isMuted _); [|destruct (emit _ _)]; injection H as <- <-; eexists; reflexivity.
Qed.

(** An accepted dispatch on a persistent Unit saves its new raw value under
    its key. *)
Lemma dispatch_accepted_saves (env : Environment) (w : world) (u : UnitState) (v : jsval)
    (o : DispatchOptions) (w' : world) (u' : UnitState) :
  dispatch env w u (DValue v) o = Returns (w', u', true) -> cfg_persistent (u_config u) = true ->
  exists w'' h, w' = save (unitKey (u_config u)) (snd (rawValue h u')) (cfg_storage (u_config u)) w''.
Proof.
  intros H Hp. unfold dispatch in H.
  destruct (env_checkSerializability env && negb (isSerializable v)); [discriminate|].
  destruct (wouldDispatch (next_ref w) u v (opt_force o)); [|discriminate].
  destruct (deepCopyMaybe u (next_ref w) v) as [h v'].
  pose proof (updateValueAndCache_spec (set_next_ref w h) u v' (opt_cacheReplace o) false) as Hs.
  destruct (updateValueAndCache (set_next_ref w h) u v' (opt_cacheReplace o) false) as [w1 u1] eqn:E.
  injection H as <- <-.
  destruct Hs as (_ & _ & _ & _ & _ & _ & Hcf & _).
  destruct (updateValueAndCache_world _ _ _ _ _ _ _ E) as [w3 ->].
  rewrite updateValueInPersistentStorage_saves by congruence. rewrite Hcf.
  exists (set_next_ref w3 (fst (rawValue (next_ref w3) u1))), (next_ref w3).
  destruct (pushEvent_value u1 (EventUnitDispatch v)) as (V & F & _).
  unfold rawValue. rewrite V, F. reflexivity.
Qed.

Lemma rawValue_strip (u : UnitState) (y : jsval) (h : nat) :
  strip (_value u) = strip y -> isValidValue (u_flavor u) y = true ->
  strip (snd (rawValue h u)) = strip y.
Proof.
  unfold rawValue, applyFallbackValue.
  destruct (_value u); intros H Hv; try exact H.
  destruct y; simpl in H; try discriminate.
  destruct (u_flavor u); simpl in Hv; try discriminate; reflexivity.
Qed.

Lemma value_strip (u : UnitState) (y : jsval) (h : nat) :
  strip (_value u) = strip y -> isValidValue (u_flavor u) y = true ->
  strip (snd (value h u)) = strip y.
Proof.
  intros H Hv. pose proof (rawValue_strip u y h H Hv) as Hr.
  unfold value. destruct (rawValue h u) as [h1 r]. rewrite deepCopyMaybe_strip. exact Hr.
Qed.

Lemma dispatchInitialValue_flavor (w : world) (u : UnitState) (iv : jsval) :
  u_flavor (snd (dispatchInitialValue w u iv)) = u_flavor u.
Proof.
  unfold dispatchInitialValue. destruct (shouldDispatchInitialValue (u_flavor u) iv).
  - destruct (initialValueRaw (next_ref w) (set_initialValue u iv)) as [h i].
    pose proof (updateValueAndCache_spec (set_next_ref w h) (set_initialValue u iv) i false false) as Hs.
    destruct (updateValueAndCache (set_next_ref w h) (set_initialValue u iv) i false false) as [w' u'].
    destruct Hs as (_ & _ & _ & _ & _ & Hfl & _). exact Hfl.
  - destruct (defaultValue (u_flavor u) (next_ref w)) as [h d].
    pose proof (updateValueAndCache_spec (set_next_ref w h) u d false false) as Hs.
    destruct (updateValueAndCache (set_next_ref w h) u d false false) as [w' u'].
    destruct Hs as (_ & _ & _ & _ & _ & Hfl & _). exact Hfl.
Qed.

Lemma dispatchInitialValue_undefined_generic (w : world) (u : UnitState) :
  u_flavor u = GenericUnit -> _value (snd (dispatchInitialValue w u JUndefined)) = JUndefined.
Proof.
  intros Hf. unfold dispatchInitialValue, shouldDispatchInitialValue.
  cbn [isUndefined negb andb]. rewrite Hf. cbn [defaultValue].
  pose proof (updateValueAndCache_spec (set_next_ref w (next_ref w)) u JUndefined false false) as Hs.
  destruct (updateValueAndCache (set_next_ref w (next_ref w)) u JUndefined false false) as [w' u'].
  destruct Hs as (Hval & _). exact Hval.
Qed.




(** ** Orchestrator *)

Lemma isEmpty_h (h h' : nat) (u : UnitState) : isEmpty h u = isEmpty h' u.
Proof.
  unfold isEmpty, rawValue, applyFallbackValue.
  destruct (_value u); destruct (u_flavor u); reflexivity.
Qed.

Lemma onMemberEmit_paused (env : Environment) (n : nat) (r : Role) (w : world) (s : AsyncSystemState) :
  relationshipsAutoPaused s = true ->
  exists q, onMemberEmit env n r w s = (w, set_member s RQuery q).
Proof.
  intros Hp. destruct n as [|k]; cbn [onMemberEmit].
  - exists (queryUnit s). destruct s; reflexivity.
  - unfold subscriber, relationshipsWorking. destruct r; rewrite ?Hp; cbn [negb andb].
    1-3: exists (queryUnit s); destruct s; reflexivity.
    destruct (relationshipsManuallyPaused s); cbn [negb].
    + rewrite Hp. cbn [negb andb]. exists (queryUnit s); destruct s; reflexivity.
    + unfold toggleQueryUnitFreezeMaybe. destruct (freezeQueryWhilePending (sys_config s)).
      * cbn [set_member relationshipsAutoPaused]. rewrite Hp. cbn [negb andb]. eexists; reflexivity.
      * rewrite Hp. cbn [negb andb]. exists (queryUnit s); destruct s; reflexivity.
Qed.

Lemma runMember_paused (env : Environment) (n : nat) (r : Role)
    (op : world -> UnitState -> world * UnitState) (w : world) (s : AsyncSystemState) :
  relationshipsAutoPaused s = true ->
  exists q, runMember (onMemberEmit env n) r op w s =
    (fst (op w (member s r)), set_member (set_member s r (snd (op w (member s r)))) RQuery q).
Proof.
  intros Hp. unfold runMember. destruct (op w (member s r)) as [w1 u1]. cbn [fst snd].
  destruct (Nat.ltb _ _).
  - apply onMemberEmit_paused. destruct r; exact Hp.
  - exists (queryUnit (set_member s r u1)). destruct s, r; reflexivity.
Qed.

Lemma clearValueOp_default (w : world) (u : UnitState) :
  _isFrozen u = false -> _emitCount u <> 0 -> isEmpty (next_ref w) u = false ->
  exists h, _value (snd (clearValueOp w u)) = snd (defaultValue (u_flavor u) h).
Proof.
  intros Hf Hc He. unfold clearValueOp, clearValue. rewrite Hf, He.
  destruct (Nat.eqb_spec (_emitCount u) 0) as [E|_]; [contradiction|]. cbn [orb].
  exists (next_ref w).
  destruct (defaultValue (u_flavor u) (next_ref w)) as [h d].
  pose proof (updateValueAndCache_spec (set_next_ref w h) u d false false) as Hs.
  destruct (updateValueAndCache (set_next_ref w h) u d false false) as [w1 u1].
  destruct Hs as (Hval & _). cbn [snd].
  destruct (pushEvent_value u1 EventUnitClearValue) as (V & _). rewrite V. exact Hval.
Qed.

Lemma dispatchOp_pending_false (env : Environment) (w : world) (p : UnitState) :
  u_flavor p = BoolUnit -> _isFrozen p = false ->
  match cfg_customDispatchCheck (u_config p) with
  | Some chk => forall raw, chk raw (JBool false) = true
  | None => True
  end ->
  forall h, snd (rawValue h (snd (dispatchOp env (JBool false) w p))) = JBool false.
Proof.
  intros Hf Hz Hc h. unfold dispatchOp.
  destruct (dispatch env w p (DValue (JBool false)) noOptions) as [[[w1 p1] b]|m] eqn:E.
  - destruct b.
    + destruct (dispatch_accepted_state env w p (JBool false) noOptions w1 p1 E)
        as (_ & _ & Hval & _ & _ & _ & _ & Hfl & _).
      cbn [snd]. unfold rawValue. rewrite Hfl, Hf.
      destruct (_value p1); simpl in Hval; try discriminate.
      injection Hval as ->. reflexivity.
    + unfold dispatch in E. cbn [isSerializable negb] in E. rewrite andb_false_r in E.
      destruct (wouldDispatch (next_ref w) p (JBool false) (opt_force noOptions)) eqn:Hw.
      * destruct (deepCopyMaybe _ _ _). destruct (updateValueAndCache _ _ _ _ _).
        congruence.
      * injection E as _ <-.
        assert (Hs : strict_eq (JBool false) (snd (rawValue (next_ref w) p)) = true).
        { destruct (strict_eq (JBool false) (snd (rawValue (next_ref w) p))) eqn:Hq; [reflexivity|].
          exfalso. assert (Ht : wouldDispatch (next_ref w) p (JBool false) (opt_force noOptions) = true).
          { apply wouldDispatch_spec. rewrite Hz, Hf. split; [reflexivity|]. split; [reflexivity|].
            right. split; [|right; exact Hq].
            destruct (cfg_customDispatchCheck (u_config p)); [apply Hc | exact I]. }
          congruence. }
        cbn [snd]. destruct (pushEvent_value p (EventUnitDispatchFail (JBool false)
          (if _isFrozen p then FROZEN_UNIT
           else if isValidValue (u_flavor p) (JBool false)
                then if distinctCheck p (snd (rawValue (next_ref w) p)) (JBool false)
                     then CUSTOM_DISPATCH_CHECK else DISTINCT_CHECK
                else INVALID_VALUE))) as (V & F & _).
        unfold rawValue in *. rewrite V, F, Hf. rewrite Hf in Hs.
        destruct (_value p) as [| |x| | | | |]; simpl in Hs; try discriminate; [reflexivity|].
        destruct x; [discriminate | reflexivity].
  - exfalso. unfold dispatch in E. cbn [isSerializable negb] in E. rewrite andb_false_r in E.
    destruct (wouldDispatch _ _ _ _).
    + destruct (deepCopyMaybe _ _ _). destruct (updateValueAndCache _ _ _ _ _). discriminate.
    + discriminate.
Qed.




(** ** Further properties of the code *)

Lemma string_app_eqb (p a b : string) :
  String.eqb (p ++ a) (p ++ b) = String.eqb a b.
Proof.
  induction p as [|c p IH]; simpl; [reflexivity|].
  rewrite Ascii.eqb_refl. exact IH.
Qed.

Lemma store_get_remove (sid sid' : nat) (k k' : string) (st : list ((nat * string) * json)) :
  store_get sid' k' (store_remove sid k st) =
  if Nat.eqb sid' sid && String.eqb k' k then None else store_get sid' k' st.
Proof.
  induction st as [|[[s0 k0] j] t IH]; simpl.
  - destruct (Nat.eqb sid' sid && String.eqb k' k); reflexivity.
  - destruct (negb ((sid =? s0) && (k =? k0)%string)) eqn:Hk; simpl.
    + destruct (Nat.eqb_spec sid' s0), (String.eqb_spec k' k0); subst; simpl; try exact IH.
      destruct (Nat.eqb_spec s0 sid), (String.eqb_spec k0 k); subst; simpl; try reflexivity.
      rewrite Nat.eqb_refl, String.eqb_refl in Hk. discriminate.
    + rewrite IH. apply negb_false_iff, andb_true_iff in Hk. destruct Hk as [H1 H2].
      apply Nat.eqb_eq in H1. apply String.eqb_eq in H2. subst.
      destruct (Nat.eqb sid' s0 && String.eqb k' k0); reflexivity.
Qed.

Lemma prefix_app (p k : string) : prefix p (p ++ k) = true.
Proof.
  induction p as [|c p IH]; simpl; [destruct k; reflexivity|].
  destruct (ascii_dec c c); [exact IH | contradiction].
Qed.

Lemma store_get_clear (sid sid' : nat) (k : string) (st : list ((nat * string) * json)) :
  prefix KeyPrefix k = true ->
  store_get sid' k (filter (fun e => negb (Nat.eqb sid (fst (fst e)) && prefix KeyPrefix (snd (fst e)))) st) =
  if Nat.eqb sid' sid then None else store_get sid' k st.
Proof.
  intros Hp. induction st as [|[[s0 k0] j] t IH]; simpl.
  - destruct (Nat.eqb sid' sid); reflexivity.
  - destruct (Nat.eqb_spec sid s0) as [->|Hs]; simpl.
    + destruct (prefix KeyPrefix k0) eqn:Hk0; simpl.
      * rewrite IH. destruct (Nat.eqb_spec sid' s0) as [->|]; simpl; [reflexivity|].
        reflexivity.
      * rewrite IH. destruct (Nat.eqb_spec sid' s0) as [->|]; simpl; [|reflexivity].
        destruct (String.eqb_spec k k0) as [->|]; [congruence|reflexivity].
    + rewrite IH. destruct (Nat.eqb_spec sid' s0) as [->|]; simpl.
      * apply Nat.eqb_neq in Hs. rewrite Nat.eqb_sym, Hs. reflexivity.
      * reflexivity.
Qed.

(** X1: [retrieve] after [remove(key, storage)] finds nothing (null) under the removed key of that storage; any other key or storage reads what it read before the removal. *)
Theorem remove_then_retrieve (k k' : string) (sid sid' : nat) (w : world) :
  retrieve k' sid' (remove k sid w) =
  if Nat.eqb sid' sid && String.eqb k' k then (remove k sid w, JNull)
  else let '(w1, v) := retrieve k' sid' w in (mkWorld (next_ref w1) (stores (remove k sid w)), v).
Proof.
  unfold retrieve, remove. cbn [stores next_ref].
  rewrite store_get_remove, string_app_eqb.
  destruct (Nat.eqb sid' sid && String.eqb k' k); [reflexivity|].
  destruct (store_get sid' (KeyPrefix ++ k') (stores w)) as [j|]; [|reflexivity].
  destruct (parse (next_ref w) j); reflexivity.
Qed.

(** X2: [retrieve] after [clearPersistentStorage(storage)] finds nothing (null) for any key of the cleared storage; other storages read what they read before. *)
Theorem clearPersistentStorage_then_retrieve (k : string) (sid sid' : nat) (w : world) :
  retrieve k sid' (clearPersistentStorage sid w) =
  if Nat.eqb sid' sid then (clearPersistentStorage sid w, JNull)
  else let '(w1, v) := retrieve k sid' w in
       (mkWorld (next_ref w1) (stores (clearPersistentStorage sid w)), v).
Proof.
  unfold retrieve, clearPersistentStorage. cbn [stores next_ref].
  rewrite store_get_clear by apply prefix_app.
  destruct (Nat.eqb sid' sid); [reflexivity|].
  destruct (store_get sid' (KeyPrefix ++ k) (stores w)) as [j|]; [|reflexivity].
  destruct (parse (next_ref w) j); reflexivity.
Qed.

(** X3: [clearPersistedValue] returns whether the Unit is persistent and never changes the Unit's contents; for a persistent Unit the stored value of its key is gone afterwards, for any other Unit nothing changes. *)
Theorem clearPersistedValue_spec (w : world) (u : UnitState) :
  let '(w', u', b) := clearPersistedValue w u in
  b = cfg_persistent (u_config u) /\ unitContents u' = unitContents u /\
  if b then snd (retrieve (unitKey (u_config u)) (cfg_storage (u_config u)) w') = JNull /\
            next_ref w' = next_ref w
  else w' = w /\ u' = u.
Proof.
  unfold clearPersistedValue. destruct (cfg_persistent (u_config u)); [|auto].
  split; [reflexivity|]. split; [apply pushEvent_contents|].
  unfold retrieve, remove. cbn [stores next_ref].
  rewrite store_get_remove, Nat.eqb_refl, String.eqb_refl. split; reflexivity.
Qed.

(** X4: [replay] of a frozen or muted Unit does nothing and returns false; otherwise it returns true and emits once more (emit count plus one) without changing the value, the cache or the emitted value. *)
Theorem replay_spec (u : UnitState) :
  let '(u', b) := replay u in
  if _isFrozen u || _isMuted u then u' = u /\ b = false
  else b = true /\ _emitCount u' = S (_emitCount u) /\ emittedValue u' = emittedValue u /\
       _value u' = _value u /\ _cachedValues u' = _cachedValues u /\
       _cacheIndex u' = _cacheIndex u /\ _isMuted u' = false /\ _isFrozen u' = false.
Proof.
  unfold replay, baseReplay.
  destruct (_isFrozen u) eqn:Hf, (_isMuted u) eqn:Hm; simpl; try (split; reflexivity).
  destruct (eventsSubject u); simpl; rewrite ?Hf, ?Hm; repeat split.
Qed.

(** X5: [jumpToStart] and [jumpToEnd] move to the first and last cached value when the Unit is not frozen, the cache is not empty and the cursor is not already there (returning true, the cache unchanged); otherwise they change nothing and return false. *)
Theorem jumpToStart_jumpToEnd_spec (w : world) (u : UnitState) :
  (let '(w', u', b) := jumpToStart w u in
   if negb (_isFrozen u) && negb (Nat.eqb (_cacheIndex u) 0) && negb (Nat.eqb (length (_cachedValues u)) 0)
   then b = true /\ _cacheIndex u' = 0 /\ _value u' = nth 0 (_cachedValues u) JUndefined /\
        _cachedValues u' = _cachedValues u
   else (w', u', b) = (w, u, false)) /\
  (let '(w', u', b) := jumpToEnd w u in
   if negb (_isFrozen u) && negb (Nat.eqb (length (_cachedValues u)) 0)
      && negb (Nat.eqb (_cacheIndex u) (length (_cachedValues u) - 1))
   then b = true /\ _cacheIndex u' = length (_cachedValues u) - 1 /\
        _value u' = last (_cachedValues u) JUndefined /\ _cachedValues u' = _cachedValues u
   else (w', u', b) = (w, u, false)).
Proof.
  split.
  - unfold jumpToStart.
    destruct (_isFrozen u) eqn:Hf; [simpl; unfold jump; rewrite Hf; reflexivity|].
    destruct (Nat.eqb_spec (_cacheIndex u) 0) as [H0|H0].
    + simpl. unfold jump. rewrite Hf, H0. simpl. reflexivity.
    + destruct (Nat.eqb_spec (length (_cachedValues u)) 0) as [Hl|Hl].
      * simpl. unfold jump. rewrite Hf, Hl.
        replace (Z.of_nat (_cacheIndex u) + - Z.of_nat (_cacheIndex u))%Z with 0%Z by lia.
        simpl. destruct (Z.of_nat (_cacheIndex u)); reflexivity.
      * simpl.
        destruct (jump_success w u (- Z.of_nat (_cacheIndex u))) as (w' & u' & E & Hc & Hi & Hv & _);
          [assumption|lia|lia|lia|].
        rewrite E. rewrite Hi in Hv. rewrite Hi.
        replace (Z.to_nat (Z.of_nat (_cacheIndex u) + - Z.of_nat (_cacheIndex u))) with 0 in * by lia.
        auto.
  - unfold jumpToEnd.
    destruct (_isFrozen u) eqn:Hf; [simpl; unfold jump; rewrite Hf; reflexivity|].
    destruct (Nat.eqb_spec (length (_cachedValues u)) 0) as [Hl|Hl].
    + unfold jump. rewrite Hf, Hl.
      replace (Z.of_nat (_cacheIndex u) + (Z.of_nat 0 - 1 - Z.of_nat (_cacheIndex u)))%Z with (-1)%Z by lia.
      simpl. reflexivity.
    + destruct (Nat.eqb_spec (_cacheIndex u) (length (_cachedValues u) - 1)) as [He|He].
      * unfold jump. rewrite Hf.
        replace (Z.of_nat (length (_cachedValues u)) - 1 - Z.of_nat (_cacheIndex u))%Z with 0%Z by lia.
        rewrite Z.add_0_r, Z.eqb_refl, orb_true_r.
        destruct (Nat.eqb_spec (length (_cachedValues u)) 0); [lia|].
        destruct (Nat.eqb_spec (_cacheIndex u) (length (_cachedValues u) - 1)); [|lia].
        reflexivity.
      * simpl.
        destruct (jump_success w u (Z.of_nat (length (_cachedValues u)) - 1 - Z.of_nat (_cacheIndex u)))
          as (w' & u' & E & Hc & Hi & Hv & _); [assumption|lia|lia|lia|].
        rewrite E. rewrite Hi in Hv. rewrite Hi.
        replace (Z.to_nat (Z.of_nat (_cacheIndex u) +
                   (Z.of_nat (length (_cachedValues u)) - 1 - Z.of_nat (_cacheIndex u))))
          with (length (_cachedValues u) - 1) in * by lia.
        rewrite Hv, Hc. repeat split.
        destruct (_cachedValues u) as [|x c] using rev_ind; [simpl in Hl; lia|].
        rewrite last_last, length_app, app_nth2 by (simpl; lia). simpl.
        replace (length c + 1 - 1 - length c) with 0 by lia. reflexivity.
Qed.

Lemma skipn_pred_length (c : list jsval) :
  c <> [] -> skipn (length c - 1) c = [last c JUndefined].
Proof.
  intros Hc. destruct c as [|x c] using rev_ind; [congruence|].
  rewrite last_last, length_app. simpl. replace (length c + 1 - 1) with (length c) by lia.
  rewrite skipn_app, skipn_all, Nat.sub_diag. reflexivity.
Qed.

(** X6: [clearCache] never changes the value, the emit count, the emitted value or the frozen state; when it clears, the cache keeps only the first and/or last entry asked for and the cursor is on its last entry, else the cache and cursor are untouched. *)
Theorem clearCache_spec (u : UnitState) (o : ClearCacheOptions) :
  let '(u', b) := clearCache u o in
  _value u' = _value u /\ _emitCount u' = _emitCount u /\ emittedValue u' = emittedValue u /\
  _isFrozen u' = _isFrozen u /\
  if b then
    _cachedValues u' =
      (if leaveFirst o then firstn 1 (_cachedValues u) else []) ++
      (if leaveLast o then [last (_cachedValues u) JUndefined] else []) /\
    _cacheIndex u' = length (_cachedValues u') - 1
  else _cachedValues u' = _cachedValues u /\ _cacheIndex u' = _cacheIndex u.
Proof.
  unfold clearCache.
  set (c := _cachedValues u).
  destruct (_isFrozen u || Nat.eqb (length c) 0 || (Nat.eqb (length c) 1 && (leaveFirst o || leaveLast o))
            || (Nat.eqb (length c) 2 && leaveFirst o && leaveLast o)) eqn:G.
  - repeat split.
  - repeat rewrite orb_false_iff in G. destruct G as [[[Hf Hn0] Hn1] Hn2].
    apply Nat.eqb_neq in Hn0.
    pose proof (pushEvent_contents (set_cache u (firstn (if leaveFirst o then 1 else 0) c ++
               skipn ((if leaveFirst o then 1 else 0) +
                      (length c - (if leaveFirst o then 1 else 0) - (if leaveLast o then 1 else 0))) c)
               (length (firstn (if leaveFirst o then 1 else 0) c ++
               skipn ((if leaveFirst o then 1 else 0) +
                      (length c - (if leaveFirst o then 1 else 0) - (if leaveLast o then 1 else 0))) c) - 1))
               EventUnitClearCache) as Hpc.
    destruct (pushEvent_is_set_events (set_cache u (firstn (if leaveFirst o then 1 else 0) c ++
               skipn ((if leaveFirst o then 1 else 0) +
                      (length c - (if leaveFirst o then 1 else 0) - (if leaveLast o then 1 else 0))) c)
               (length (firstn (if leaveFirst o then 1 else 0) c ++
               skipn ((if leaveFirst o then 1 else 0) +
                      (length c - (if leaveFirst o then 1 else 0) - (if leaveLast o then 1 else 0))) c) - 1))
               EventUnitClearCache) as [on [es ->]].
    cbn [_cachedValues _cacheIndex _value _emitCount emittedValue _isFrozen set_events set_cache].
    rewrite Hf. repeat split.
    assert (Hc : c <> []) by (intro E; rewrite E in Hn0; simpl in Hn0; lia).
    destruct (leaveFirst o), (leaveLast o); cbn beta iota.
    + rewrite orb_true_r, andb_true_r in Hn1. rewrite !andb_true_r in Hn2.
      apply Nat.eqb_neq in Hn1. apply Nat.eqb_neq in Hn2.
      replace (1 + (length c - 1 - 1)) with (length c - 1) by lia.
      rewrite skipn_pred_length by assumption. reflexivity.
    + replace (1 + (length c - 1 - 0)) with (length c) by lia. rewrite skipn_all. reflexivity.
    + replace (0 + (length c - 0 - 1)) with (length c - 1) by lia.
      apply skipn_pred_length; assumption.
    + replace (0 + (length c - 0 - 0)) with (length c) by lia. apply skipn_all.
Qed.

Lemma unfreeze_is (u : UnitState) :
  exists on es, unfreeze u = set_events (set_frozen u false) on es.
Proof.
  unfold unfreeze. destruct (_isFrozen u) eqn:Hf; simpl.
  - apply pushEvent_is_set_events.
  - exists (eventsSubject u), (u_events u). destruct u; simpl in *; subst; reflexivity.
Qed.

Lemma isEmpty_fields (h : nat) (u u' : UnitState) :
  u_flavor u' = u_flavor u -> _value u' = _value u -> isEmpty h u' = isEmpty h u.
Proof. intros Hf Hv. unfold isEmpty, rawValue. rewrite Hf, Hv. reflexivity. Qed.

(** X7: [clear()] with its default options empties the cache and unfreezes the Unit; the value becomes the flavor's default unless the Unit never emitted or is already empty. *)
Theorem clear_default_spec (w : world) (u : UnitState) :
  let '(w', u') := clear w u noCacheOptions in
  _cachedValues u' = [] /\ _isFrozen u' = false /\
  if Nat.eqb (_emitCount u) 0 || isEmpty (next_ref w) u then _value u' = _value u
  else _value u' = snd (defaultValue (u_flavor u) (next_ref w)).
Proof.
  unfold clear. destruct (unfreeze_is u) as [on [es ->]].
  set (u1 := set_events (set_frozen u false) on es).
  assert (He : isEmpty (next_ref w) u1 = isEmpty (next_ref w) u) by (apply isEmpty_fields; reflexivity).
  assert (Hclr : forall u2, _isFrozen u2 = false ->
            let '(u3, _) := clearCache u2 noCacheOptions in
            _cachedValues u3 = [] /\ _isFrozen u3 = false /\ _value u3 = _value u2).
  { intros u2 Hf2. unfold clearCache. cbn [leaveFirst leaveLast noCacheOptions].
    rewrite Hf2, !andb_false_r, !orb_false_r. simpl.
    destruct (Nat.eqb_spec (length (_cachedValues u2)) 0) as [H0|H0].
    - repeat split; auto. destruct (_cachedValues u2); [reflexivity|simpl in H0; lia].
    - destruct (pushEvent_is_set_events (set_cache u2 (skipn (length (_cachedValues u2) - 0 - 0) (_cachedValues u2))
                 (length (skipn (length (_cachedValues u2) - 0 - 0) (_cachedValues u2)) - 1))
                 EventUnitClearCache) as [on2 [es2 ->]].
      cbn. repeat split; auto. rewrite !Nat.sub_0_r. apply skipn_all. }
  unfold clearValue. change (_isFrozen u1) with false. change (_emitCount u1) with (_emitCount u).
  rewrite He. cbn [orb].
  destruct (Nat.eqb (_emitCount u) 0 || isEmpty (next_ref w) u) eqn:G.
  - specialize (Hclr u1 eq_refl). destruct (clearCache u1 noCacheOptions) as [u3 b3].
    destruct Hclr as (Hc & Hf & Hv).
    destruct (pushEvent_is_set_events u3 EventUnitClear) as [on3 [es3 ->]]. cbn.
    repeat split; auto.
  - destruct (defaultValue (u_flavor u1) (next_ref w)) as [h d] eqn:Hd.
    pose proof (updateValueAndCache_spec (set_next_ref w h) u1 d false false) as Hu.
    destruct (updateValueAndCache (set_next_ref w h) u1 d false false) as [w2 u2].
    destruct Hu as (Hv2 & _ & _ & Hf2 & _).
    destruct (pushEvent_is_set_events u2 EventUnitClearValue) as [on4 [es4 ->]].
    specialize (Hclr (set_events u2 on4 es4) Hf2).
    destruct (clearCache (set_events u2 on4 es4) noCacheOptions) as [u3 b3].
    destruct Hclr as (Hc & Hf & Hv).
    destruct (pushEvent_is_set_events u3 EventUnitClear) as [on3 [es3 ->]]. cbn.
    repeat split; auto. rewrite Hv. cbn. rewrite Hv2.
    change (u_flavor u1) with (u_flavor u) in Hd. rewrite Hd. reflexivity.
Qed.

Lemma clearCache_fields (u : UnitState) (o : ClearCacheOptions) :
  let '(u', _) := clearCache u o in
  _value u' = _value u /\ _isFrozen u' = _isFrozen u /\ _emitCount u' = _emitCount u /\
  emittedValue u' = emittedValue u /\ u_flavor u' = u_flavor u /\ u_config u' = u_config u /\
  _isMuted u' = _isMuted u.
Proof.
  unfold clearCache. destruct (_ || _ || _ || _); [repeat split|].
  match goal with |- context [pushEvent ?x ?e] =>
    destruct (pushEvent_is_set_events x e) as [on [es ->]] end.
  repeat split.
Qed.

Lemma clearCache_leaveLast (u : UnitState) (pre : list jsval) (v : jsval) :
  _isFrozen u = false -> _cachedValues u = pre ++ [v] -> _cacheIndex u = length pre ->
  let '(u', _) := clearCache u resetDefaultOptions in
  _cachedValues u' = [v] /\ _cacheIndex u' = 0.
Proof.
  intros Hf Hc Hi. unfold clearCache. cbn [leaveFirst leaveLast resetDefaultOptions].
  rewrite Hf, Hc, length_app. cbn [length].
  rewrite !andb_false_r, orb_false_r, orb_true_r, andb_true_r.
  destruct pre as [|x pre].
  - simpl. rewrite Hc in *. split; [reflexivity|]. simpl in Hi. exact Hi.
  - cbn [length]. replace (S (length pre) + 1 =? 0) with false by (symmetry; apply Nat.eqb_neq; lia).
    replace (S (length pre) + 1 =? 1) with false by (symmetry; apply Nat.eqb_neq; lia).
    cbn [orb].
    match goal with |- context [pushEvent ?x ?e] =>
      destruct (pushEvent_is_set_events x e) as [on [es ->]] end.
    cbn. change (x :: pre ++ [v]) with ((x :: pre) ++ [v]).
    replace (length pre + 1 - 0) with (length (x :: pre)) by (simpl; lia).
    rewrite skipn_app, skipn_all, Nat.sub_diag. simpl. split; reflexivity.
Qed.

(** X8: [reset()] with its default options on a well formed cache unfreezes the Unit; unless the value already equals the initial value, the value becomes the initial value and the cache holds just that value with the cursor at 0. *)
Theorem reset_default_spec (w : world) (u : UnitState) :
  cacheWellFormed u ->
  let '(w', u') := reset w u resetDefaultOptions in
  _isFrozen u' = false /\
  let '(h0, r) := rawValue (next_ref w) u in
  let '(h1, i0) := initialValueRaw h0 u in
  if strict_eq r i0 then _value u' = _value u
  else _value u' = snd (initialValueRaw h1 u) /\ _cachedValues u' = [_value u'] /\ _cacheIndex u' = 0.
Proof.
  intros [Hidx [_ Hcap]].
  unfold reset. destruct (unfreeze_is u) as [on [es ->]].
  set (u1 := set_events (set_frozen u false) on es).
  unfold resetValue.
  change (rawValue (next_ref w) u1) with (rawValue (next_ref w) u).
  destruct (rawValue (next_ref w) u) as [h0 r].
  change (initialValueRaw h0 u1) with (initialValueRaw h0 u).
  destruct (initialValueRaw h0 u) as [h1 i0].
  change (_isFrozen u1) with false. cbn [orb].
  destruct (strict_eq r i0).
  - pose proof (clearCache_fields u1 resetDefaultOptions) as Hf.
    destruct (clearCache u1 resetDefaultOptions) as [u3 b3].
    destruct Hf as (Hv & Hfr & _).
    destruct (pushEvent_is_set_events u3 EventUnitReset) as [on3 [es3 ->]]. cbn.
    split; [exact Hfr|exact Hv].
  - change (initialValueRaw h1 u1) with (initialValueRaw h1 u).
    destruct (initialValueRaw h1 u) as [h2 i] eqn:Hi2. cbn [snd].
    pose proof (updateValueAndCache_spec (set_next_ref w h2) u1 i false false) as Hu.
    destruct (updateValueAndCache (set_next_ref w h2) u1 i false false) as [w2 u2].
    destruct Hu as (Hv2 & _ & Hc2 & Hf2 & _).
    pose proof (updateCache_last (cacheSize u) (_cachedValues u) (_cacheIndex u) i Hcap) as Hl.
    change (cacheSize u1) with (cacheSize u) in Hc2.
    change (_cachedValues u1) with (_cachedValues u) in Hc2.
    change (_cacheIndex u1) with (_cacheIndex u) in Hc2.
    destruct (updateCache (cacheSize u) (_cachedValues u) (_cacheIndex u) i false) as [c' i'].
    destruct Hl as [[pre' ->] ->]; [destruct Hidx as [[_ ->]|]; lia|].
    injection Hc2 as Hc2 Hi2'.
    destruct (pushEvent_is_set_events u2 EventUnitResetValue) as [on4 [es4 ->]].
    pose proof (clearCache_fields (set_events u2 on4 es4) resetDefaultOptions) as Hf.
    pose proof (clearCache_leaveLast (set_events u2 on4 es4) pre' i Hf2 Hc2) as Hll.
    destruct (clearCache (set_events u2 on4 es4) resetDefaultOptions) as [u3 b3].
    destruct Hf as (Hv & Hfr & _).
    destruct Hll as [Hc3 Hi3]; [cbn; rewrite Hi2', length_app; simpl; lia|].
    destruct (pushEvent_is_set_events u3 EventUnitReset) as [on3 [es3 ->]]. cbn.
    rewrite Hc3, Hv. cbn. rewrite Hv2. repeat split; auto. rewrite Hfr. cbn. rewrite Hf2. reflexivity.
Qed.

Lemma scanBackward_spec (p : jsval -> bool) (c : list jsval) (i : nat) :
  (scanBackward p c i = (-1)%Z /\ forall k, k <= i -> p (nth k c JUndefined) = false) \/
  (exists j, scanBackward p c i = Z.of_nat j /\ j <= i /\ p (nth j c JUndefined) = true /\
     forall k, j < k <= i -> p (nth k c JUndefined) = false).
Proof.
  induction i as [|i IH]; simpl.
  - destruct (p (nth 0 c JUndefined)) eqn:E.
    + right. exists 0. repeat split; auto; lia.
    + left. split; [reflexivity|]. intros k Hk. replace k with 0 by lia. exact E.
  - destruct (p (nth (S i) c JUndefined)) eqn:E.
    + right. exists (S i). repeat split; auto; lia.
    + destruct IH as [[H1 H2]|(j & H1 & H2 & H3 & H4)].
      * left. split; [exact H1|]. intros k Hk.
        destruct (Nat.eq_dec k (S i)) as [->|]; [exact E|apply H2; lia].
      * right. exists j. repeat split; auto; try lia.
        intros k Hk. destruct (Nat.eq_dec k (S i)) as [->|]; [exact E|apply H4; lia].
Qed.

Lemma scanForward_spec (p : jsval -> bool) (c : list jsval) (k : nat) : forall i,
  (scanForward p c i k = (-1)%Z /\ forall m, i <= m < i + k -> p (nth m c JUndefined) = false) \/
  (exists j, scanForward p c i k = Z.of_nat j /\ i <= j < i + k /\ p (nth j c JUndefined) = true /\
     forall m, i <= m < j -> p (nth m c JUndefined) = false).
Proof.
  induction k as [|k IH]; intros i; simpl.
  - left. split; [reflexivity|]. intros; lia.
  - destruct (p (nth i c JUndefined)) eqn:E.
    + right. exists i. repeat split; auto; lia.
    + destruct (IH (S i)) as [[H1 H2]|(j & H1 & H2 & H3 & H4)].
      * left. split; [exact H1|]. intros m Hm.
        destruct (Nat.eq_dec m i) as [->|]; [exact E|apply H2; lia].
      * right. exists j. repeat split; auto; try lia.
        intros m Hm. destruct (Nat.eq_dec m i) as [->|]; [exact E|apply H4; lia].
Qed.

Lemma jump_zero (w : world) (u : UnitState) : jump w u (NFin 0) = (w, u, false).
Proof.
  unfold jump. destruct (_isFrozen u); [reflexivity|].
  rewrite Z.add_0_r, Z.eqb_refl, orb_true_r. reflexivity.
Qed.


(** X10: GenericUnit's [goBack(true)] with the cursor at 0 does not stay put: it jumps to the last non-nil cached value after position 0 and returns true. *)
Theorem GenericUnit_goBack_skipNilValues_at_start (w : world) (u : UnitState) (j : nat) :
  _isFrozen u = false -> _cacheIndex u = 0 -> (Z.of_nat (length (_cachedValues u)) < 4294967295)%Z ->
  0 < j -> j < length (_cachedValues u) -> notNil (nth j (_cachedValues u) JUndefined) = true ->
  (forall k, j < k < length (_cachedValues u) -> notNil (nth k (_cachedValues u) JUndefined) = false) ->
  exists w' u', GenericUnit_goBack w u true = (w', u', true) /\ _cacheIndex u' = j /\
    _value u' = nth j (_cachedValues u) JUndefined.
Proof.
  intros Hf H0 Hl Hj0 Hj1 Hj2 Hj3. unfold GenericUnit_goBack, goToNonNilValue, findIndexBackwards.
  rewrite Hf, H0. cbn [Z.of_nat isValidIndex].
  change (((0 <=? 0 - 1) && (0 - 1 <=? 4294967294))%Z) with false. cbv iota beta.
  replace (Z.of_nat (length (_cachedValues u)) - 1 <? 0)%Z with false by (symmetry; apply Z.ltb_ge; lia).
  destruct (scanBackward_spec notNil (_cachedValues u) (Z.to_nat (Z.of_nat (length (_cachedValues u)) - 1)))
    as [[-> Hn]|(j' & -> & Hj'1 & Hj'2 & Hj'3)].
  - rewrite Hn in Hj2; [discriminate|lia].
  - assert (j' = j).
    { destruct (Nat.lt_trichotomy j' j) as [Hlt|[Heq|Hgt]]; [|exact Heq|].
      - rewrite Hj'3 in Hj2; [discriminate|lia].
      - rewrite Hj3 in Hj'2; [discriminate|lia]. }
    subst j'.
    replace (Z.of_nat j =? -1)%Z with false by (symmetry; apply Z.eqb_neq; lia).
    destruct (jump_success w u (Z.of_nat j - 0)) as (w' & u' & E & Hc & Hi & Hv & _);
      [assumption|rewrite H0; lia|lia|rewrite H0; lia|].
    rewrite H0 in Hi. cbn [Z.of_nat] in Hi. rewrite Z.add_0_l, Z.sub_0_r, Nat2Z.id in Hi.
    exists w', u'. repeat split; auto. rewrite Hv, Hi. reflexivity.
Qed.


Ltac by_eval := first [vm_compute; reflexivity | vm_compute; lia].


Lemma GenericUnit_goBack_skipNilValues_at_start_witness :
  _cachedValues (snd genAtStart) = [JUndefined; str "x"; JNull; str "y"] /\
  exists w' u', GenericUnit_goBack (fst genAtStart) (snd genAtStart) true = (w', u', true) /\
    _cacheIndex u' = 3 /\ _value u' = nth 3 (_cachedValues (snd genAtStart)) JUndefined.
Proof.
  split; [by_eval|].
  apply GenericUnit_goBack_skipNilValues_at_start; by_eval.
Defined.


Lemma reset_default_spec_witness :
  cacheWellFormed (snd stage4) /\
  let '(w', u') := reset (fst stage4) (snd stage4) resetDefaultOptions in
  _isFrozen u' = false /\
  let '(h0, r) := rawValue (next_ref (fst stage4)) (snd stage4) in
  let '(h1, i0) := initialValueRaw h0 (snd stage4) in
  if strict_eq r i0 then _value u' = _value (snd stage4)
  else _value u' = snd (initialValueRaw h1 (snd stage4)) /\ _cachedValues u' = [_value u'] /\
       _cacheIndex u' = 0.
Proof.
  assert (H : cacheWellFormed (snd stage4)).
  { unfold cacheWellFormed, cacheInvariant. vm_compute. split; [right; lia|split; lia]. }
  split; [exact H|]. exact (reset_default_spec (fst stage4) (snd stage4) H).
Defined.

Lemma value_set_muted (h : nat) (u : UnitState) (b : bool) : value h (set_muted u b) = value h u.
Proof. reflexivity. Qed.

(** X12: A dispatch accepted by a muted Unit updates the value without emitting; [unmute] then emits once, with the current value, and clears the muted and emit-on-unmute flags. *)
Theorem mute_dispatch_unmute (env : Environment) (w : world) (u : UnitState) (v : jsval)
    (o : DispatchOptions) (w1 : world) (u1 : UnitState) :
  dispatch env w (mute u) (DValue v) o = Returns (w1, u1, true) ->
  _emitCount u1 = _emitCount u /\ emittedValue u1 = emittedValue u /\ strip (_value u1) = strip v /\
  let '(w2, u2) := unmute w1 u1 in
  _emitCount u2 = S (_emitCount u) /\ emittedValue u2 = snd (value (next_ref w1) u1) /\
  _value u2 = _value u1 /\ _isMuted u2 = false /\ emitOnUnmute u2 = false.
Proof.
  intros H. unfold dispatch in H.
  destruct (env_checkSerializability env && negb (isSerializable v)); [discriminate|].
  destruct (wouldDispatch (next_ref w) (mute u) v (opt_force o)); [|discriminate].
  destruct (deepCopyMaybe (mute u) (next_ref w) v) as [h v'] eqn:Hd.
  assert (Hs : strip v' = strip v).
  { pose proof (deepCopyMaybe_strip (mute u) (next_ref w) v) as Hc. rewrite Hd in Hc. exact Hc. }
  unfold updateValueAndCache in H.
  destruct (updateCache (cacheSize (mute u)) (_cachedValues (mute u)) (_cacheIndex (mute u)) v'
              (opt_cacheReplace o)) as [c i].
  cbn [_isMuted set_value set_cache mute set_muted] in H.
  injection H as <- <-. unfold pushEvent. cbn [_isMuted set_emitOnUnmute set_value set_cache mute set_muted].
  rewrite andb_false_r.
  cbn [_emitCount emittedValue _value set_emitOnUnmute set_value set_cache mute set_muted].
  split; [reflexivity|split; [reflexivity|split; [exact Hs|]]].
  unfold unmute. cbn [negb _isMuted set_muted set_emitOnUnmute set_value set_cache emitOnUnmute].
  unfold emit. rewrite value_set_muted. destruct (value _ _) as [h2 e2] eqn:He.
  destruct (eventsSubject _); cbn; repeat split; reflexivity.
Qed.

Lemma mute_dispatch_unmute_witness :
  dispatch env0 worldA (mute unitA) (DValue (str "b")) noOptions = Returns (fst mutedB, snd mutedB, true) /\
  _emitCount (snd mutedB) = _emitCount unitA /\ emittedValue (snd mutedB) = emittedValue unitA /\
  strip (_value (snd mutedB)) = strip (str "b") /\
  let '(w2, u2) := unmute (fst mutedB) (snd mutedB) in
  _emitCount u2 = S (_emitCount unitA) /\ emittedValue u2 = snd (value (next_ref (fst mutedB)) (snd mutedB)) /\
  _value u2 = _value (snd mutedB) /\ _isMuted u2 = false /\ emitOnUnmute u2 = false.
Proof.
  assert (H : dispatch env0 worldA (mute unitA) (DValue (str "b")) noOptions =
              Returns (fst mutedB, snd mutedB, true)) by by_eval.
  split; [exact H|]. exact (mute_dispatch_unmute env0 worldA unitA (str "b") noOptions _ _ H).
Defined.

Lemma jump_true_inv (w : world) (u : UnitState) (s : Z) (w' : world) (u' : UnitState) :
  jump w u (NFin s) = (w', u', true) ->
  _isFrozen u = false /\ (0 <= Z.of_nat (_cacheIndex u) + s)%Z /\ s <> 0%Z /\
  (Z.of_nat (_cacheIndex u) + s <= Z.of_nat (length (_cachedValues u)) - 1)%Z.
Proof.
  intros H. unfold jump in H. destruct (_isFrozen u); [discriminate|].
  destruct (Z.ltb _ 0) eqn:E1; [discriminate|].
  destruct (Z.eqb _ _) eqn:E2; [discriminate|].
  destruct (Z.gtb _ _) eqn:E3; [discriminate|].
  apply Z.ltb_ge in E1. apply Z.eqb_neq in E2. rewrite Z.gtb_ltb in E3. apply Z.ltb_ge in E3.
  repeat split; lia.
Qed.



Lemma sameValueZero_iff (a b : num) : sameValueZero a b = true <-> a = b.
Proof.
  destruct a, b; cbn; split; intros H; try discriminate; try reflexivity;
    try (apply Z.eqb_eq in H; subst; reflexivity);
    try (injection H as ->; apply Z.eqb_refl).
Qed.

Lemma deDuplicateAcc_spec {A : Type} (eqb : A -> A -> bool)
    (Heq : forall a b, eqb a b = true <-> a = b) (l : list A) : forall seen,
  NoDup seen ->
  NoDup (deDuplicateAcc eqb seen l) /\
  forall x, In x (deDuplicateAcc eqb seen l) <-> In x seen \/ In x l.
Proof.
  induction l as [|y t IH]; intros seen Hs; cbn [deDuplicateAcc].
  - split; [apply NoDup_rev; exact Hs|]. intros x. rewrite <- in_rev. cbn. tauto.
  - destruct (existsb (eqb y) seen) eqn:E.
    + apply existsb_exists in E. destruct E as (z & Hz & Hyz). apply Heq in Hyz. subst z.
      destruct (IH seen Hs) as [H1 H2]. split; [exact H1|].
      intros x. rewrite H2. cbn. split; [tauto|].
      intros [Hx|[<-|Hx]]; auto.
    + assert (Hn : ~ In y seen).
      { intros Hy. assert (existsb (eqb y) seen = true) as E'
          by (apply existsb_exists; exists y; split; [exact Hy|apply Heq; reflexivity]).
        congruence. }
      destruct (IH (y :: seen) (NoDup_cons _ Hn Hs)) as [H1 H2]. split; [exact H1|].
      intros x. rewrite H2. cbn. tauto.
Qed.

(** X14: [sanitizeIndices] returns no duplicates, and exactly the normalized forms of the given indices that are valid indices below the length. *)
Theorem sanitizeIndices_spec (indices : list num) (n : nat) :
  NoDup (sanitizeIndices indices n) /\
  forall x, In x (sanitizeIndices indices n) <->
    (exists i, In i indices /\ normalizeIndex i n = x) /\
    exists z, x = NFin z /\ (0 <= z < Z.of_nat n)%Z /\ (z <= 4294967294)%Z.
Proof.
  unfold sanitizeIndices, deDuplicate.
  destruct (deDuplicateAcc_spec sameValueZero sameValueZero_iff
              (filter (fun index => ltLength index n && isValidIndex index)
                 (map (fun index => normalizeIndex index n) indices)) [] (NoDup_nil _)) as [H1 H2].
  split; [exact H1|]. intros x. rewrite H2, filter_In, in_map_iff. cbn.
  split.
  - intros [[]|[[i [Hi Hin]] Hx]]. split; [exists i; split; assumption|].
    apply andb_true_iff in Hx as [Hl Hv].
    destruct x as [z| | |]; try discriminate. exists z. cbn in Hl, Hv.
    apply andb_true_iff in Hv as [Hv1 Hv2]. apply Z.ltb_lt in Hl. apply Z.leb_le in Hv1, Hv2.
    repeat split; auto; lia.
  - intros [[i [Hin Hi]] (z & -> & Hz & Hz')]. right. split; [exists i; split; assumption|].
    cbn. apply andb_true_iff. split; [apply Z.ltb_lt; lia|].
    apply andb_true_iff. split; apply Z.leb_le; lia.
Qed.

(** X15: [findIndex] returns the first position at or after the clamped start whose item satisfies the predicate, or -1 when none does. *)
Theorem findIndex_spec (c : list jsval) (p : jsval -> bool) (fromIndex : num) :
  let len := Z.of_nat (length c) in
  let s := Z.to_nat (match fromIndex with
                     | NFin z => if isValidIndex fromIndex then Z.max 0 (Z.min z (len - 1)) else 0%Z
                     | _ => 0%Z
                     end) in
  (findIndex c p fromIndex = (-1)%Z /\ forall m, s <= m < length c -> p (nth m c JUndefined) = false) \/
  (exists j, findIndex c p fromIndex = Z.of_nat j /\ s <= j < length c /\ p (nth j c JUndefined) = true /\
     forall m, s <= m < j -> p (nth m c JUndefined) = false).
Proof.
  intros len s. unfold findIndex. fold len. fold s.
  destruct (scanForward_spec p c (length c - s) s) as [[H1 H2]|(j & H1 & H2 & H3 & H4)].
  - left. split; [exact H1|]. intros m Hm. apply H2. lia.
  - right. exists j. repeat split; auto; lia.
Qed.

(** X16: [findIndexBackwards] returns the last position at or before the clamped start whose item satisfies the predicate, or -1 when none does (always -1 when the start is negative). *)
Theorem findIndexBackwards_spec (c : list jsval) (p : jsval -> bool) (fromIndex : num) :
  let len := Z.of_nat (length c) in
  let i := match fromIndex with
           | NFin z => if isValidIndex fromIndex then Z.max 0 (Z.min z (len - 1)) else (len - 1)%Z
           | _ => (len - 1)%Z
           end in
  if (i <? 0)%Z then findIndexBackwards c p fromIndex = (-1)%Z
  else
    (findIndexBackwards c p fromIndex = (-1)%Z /\
       forall m, m <= Z.to_nat i -> p (nth m c JUndefined) = false) \/
    (exists j, findIndexBackwards c p fromIndex = Z.of_nat j /\ j <= Z.to_nat i /\
       p (nth j c JUndefined) = true /\
       forall m, j < m <= Z.to_nat i -> p (nth m c JUndefined) = false).
Proof.
  intros len i. unfold findIndexBackwards. fold len. fold i.
  destruct (i <? 0)%Z; [reflexivity|]. apply scanBackward_spec.
Qed.

Lemma listItems_strip (v : jsval) (xs : list shape) :
  strip v = SArr xs -> map strip (listItems v) = xs.
Proof. destruct v; cbn; intros H; try discriminate. injection H as <-. reflexivity. Qed.

Lemma deepCopyItemsMaybe_strip (u : UnitState) (h : nat) (items : list jsval) :
  map strip (snd (deepCopyItemsMaybe u h items)) = map strip items.
Proof.
  unfold deepCopyItemsMaybe. pose proof (deepCopyMaybe_strip u h (JArr 0 items)) as H.
  destruct (deepCopyMaybe u h (JArr 0 items)) as [h' v]. apply listItems_strip. exact H.
Qed.

Lemma deepCopyMaybe_strip_pair (u : UnitState) (h h' : nat) (v v' : jsval) :
  deepCopyMaybe u h v = (h', v') -> strip v' = strip v.
Proof. intros E. pose proof (deepCopyMaybe_strip u h v) as H. rewrite E in H. exact H. Qed.

Lemma deepCopyItemsMaybe_strip_pair (u : UnitState) (h h' : nat) (items items' : list jsval) :
  deepCopyItemsMaybe u h items = (h', items') -> map strip items' = map strip items.
Proof. intros E. pose proof (deepCopyItemsMaybe_strip u h items) as H. rewrite E in H. exact H. Qed.

(** The common tail of the list operations: [updateValueAndCache] of a new
    value without [skipCache], then an event. *)
Lemma update_then_event (w : world) (u : UnitState) (v : jsval) (e : UnitEvent) :
  let '(w3, u3) := updateValueAndCache w u v false false in
  _value (pushEvent u3 e) = v /\
  (if _isMuted u then _emitCount (pushEvent u3 e) = _emitCount u
   else _emitCount (pushEvent u3 e) = S (_emitCount u)) /\
  _isFrozen (pushEvent u3 e) = _isFrozen u /\ u_flavor (pushEvent u3 e) = u_flavor u /\
  u_config (pushEvent u3 e) = u_config u /\ _isMuted (pushEvent u3 e) = _isMuted u.
Proof.
  pose proof (updateValueAndCache_spec w u v false false) as H.
  destruct (updateValueAndCache w u v false false) as [w3 u3].
  destruct (pushEvent_is_set_events u3 e) as [on [es ->]].
  destruct H as (Hv & Hm & _ & Hf & Hmu & Hfl & Hc & _). cbn. rewrite Hv, Hf, Hfl, Hc, Hmu.
  repeat split; auto. destruct (_isMuted u); tauto.
Qed.

Lemma rawValue_arr (h r : nat) (u : UnitState) (l : list jsval) :
  _value u = JArr r l -> rawValue h u = (h, JArr r l).
Proof. intros H. unfold rawValue. rewrite H. reflexivity. Qed.

Lemma listLength_arr (h r : nat) (u : UnitState) (l : list jsval) :
  _value u = JArr r l -> listLength h u = length l.
Proof. intros H. unfold listLength. rewrite (rawValue_arr h r u l H). reflexivity. Qed.

(** X17: ListUnit's [push] of no items or on a frozen Unit changes nothing and returns the length; it throws only for non-serializable items; otherwise the list becomes the old items followed by (copies of) the new ones, the new length is returned and the Unit emits unless muted. *)
Theorem push_spec (env : Environment) (w : world) (u : UnitState) (items : list jsval) :
  let l := listItems (snd (rawValue (next_ref w) u)) in
  match push env w u items with
  | Throws _ => _isFrozen u = false /\ items <> [] /\ serializabilityFails env (JArr 0 items) = true
  | Returns (w1, u1, n) =>
      if _isFrozen u || Nat.eqb (length items) 0 then (w1, u1) = (w, u) /\ n = length l
      else n = length l + length items /\
           (exists r, _value u1 = JArr r (listItems (_value u1))) /\
           map strip (listItems (_value u1)) = map strip l ++ map strip items /\
           (if _isMuted u then _emitCount u1 = _emitCount u else _emitCount u1 = S (_emitCount u))
  end.
Proof.
  intros l. unfold push.
  destruct (_isFrozen u || Nat.eqb (length items) 0) eqn:Eg.
  - split; reflexivity.
  - apply orb_false_iff in Eg as [Ef Ei].
    destruct (serializabilityFails env (JArr 0 items)) eqn:Es.
    + repeat split; auto. intros ->. discriminate.
    + subst l. destruct (rawValue (next_ref w) u) as [h1 raw].
      destruct (deepCopyItemsMaybe u (S h1) items) as [h2 items'] eqn:Ed.
      pose proof (update_then_event (set_next_ref w h2) u (JArr h1 (listItems raw ++ items'))
                    (EventListUnitPush items)) as Hu.
      destruct (updateValueAndCache _ _ _ _ _) as [w3 u3].
      destruct Hu as (Hv & Hm & _). cbn [snd]. rewrite Hv. cbn [listItems].
      pose proof (deepCopyItemsMaybe_strip_pair _ _ _ _ _ Ed) as Hs.
      pose proof (f_equal (@length _) Hs) as Hl. rewrite !length_map in Hl.
      rewrite length_app, map_app, Hs, Hl.
      repeat split; auto. eexists; reflexivity.
Qed.

(** X18: ListUnit's [unshift] of no items or on a frozen Unit changes nothing and returns the length; it throws only for non-serializable items; otherwise the list becomes (copies of) the new items followed by the old ones, the new length is returned and the Unit emits unless muted. *)
Theorem unshift_spec (env : Environment) (w : world) (u : UnitState) (items : list jsval) :
  let l := listItems (snd (rawValue (next_ref w) u)) in
  match unshift env w u items with
  | Throws _ => _isFrozen u = false /\ items <> [] /\ serializabilityFails env (JArr 0 items) = true
  | Returns (w1, u1, n) =>
      if _isFrozen u || Nat.eqb (length items) 0 then (w1, u1) = (w, u) /\ n = length l
      else n = length items + length l /\
           (exists r, _value u1 = JArr r (listItems (_value u1))) /\
           map strip (listItems (_value u1)) = map strip items ++ map strip l /\
           (if _isMuted u then _emitCount u1 = _emitCount u else _emitCount u1 = S (_emitCount u))
  end.
Proof.
  intros l. unfold unshift.
  destruct (_isFrozen u || Nat.eqb (length items) 0) eqn:Eg.
  - split; reflexivity.
  - apply orb_false_iff in Eg as [Ef Ei].
    destruct (serializabilityFails env (JArr 0 items)) eqn:Es.
    + repeat split; auto. intros ->. discriminate.
    + subst l. destruct (rawValue (next_ref w) u) as [h1 raw].
      destruct (deepCopyItemsMaybe u (S h1) items) as [h2 items'] eqn:Ed.
      pose proof (update_then_event (set_next_ref w h2) u (JArr h1 (items' ++ listItems raw))
                    (EventListUnitUnshift items)) as Hu.
      destruct (updateValueAndCache _ _ _ _ _) as [w3 u3].
      destruct Hu as (Hv & Hm & _). cbn [snd]. rewrite Hv. cbn [listItems].
      pose proof (deepCopyItemsMaybe_strip_pair _ _ _ _ _ Ed) as Hs.
      pose proof (f_equal (@length _) Hs) as Hl. rewrite !length_map in Hl.
      rewrite length_app, map_app, Hs, Hl.
      repeat split; auto. eexists; reflexivity.
Qed.

(** X19: ListUnit's [pop] on a frozen or empty list changes nothing and returns undefined; otherwise it returns (a copy of) the last item, the list loses its last item and the Unit emits unless muted. *)
Theorem pop_spec (w : world) (u : UnitState) :
  let l := listItems (snd (rawValue (next_ref w) u)) in
  let '(w1, u1, y) := pop w u in
  if _isFrozen u || Nat.eqb (length l) 0 then (w1, u1, y) = (w, u, JUndefined)
  else strip y = strip (last l JUndefined) /\ (exists r, _value u1 = JArr r (removelast l)) /\
       (if _isMuted u then _emitCount u1 = _emitCount u else _emitCount u1 = S (_emitCount u)).
Proof.
  intros l. unfold pop. fold (listLength (next_ref w) u).
  change (length l) with (listLength (next_ref w) u).
  destruct (_isFrozen u || Nat.eqb (listLength (next_ref w) u) 0) eqn:Eg; [reflexivity|].
  subst l. destruct (rawValue (next_ref w) u) as [h1 raw].
  destruct (deepCopyMaybe u (S h1) (last (listItems raw) JUndefined)) as [h2 y] eqn:Ed.
  pose proof (update_then_event (set_next_ref w h2) u (JArr h1 (removelast (listItems raw)))
                (EventListUnitPop y)) as Hu.
  destruct (updateValueAndCache _ _ _ _ _) as [w3 u3].
  destruct Hu as (Hv & Hm & _). cbn [snd].
  split; [exact (deepCopyMaybe_strip_pair _ _ _ _ _ Ed)|]. split; [exists h1; exact Hv|exact Hm].
Qed.

(** X20: ListUnit's [shift] on a frozen or empty list changes nothing and returns undefined; otherwise it returns (a copy of) the first item, the list loses its first item and the Unit emits unless muted. *)
Theorem shift_spec (w : world) (u : UnitState) :
  let l := listItems (snd (rawValue (next_ref w) u)) in
  let '(w1, u1, y) := shift w u in
  if _isFrozen u || Nat.eqb (length l) 0 then (w1, u1, y) = (w, u, JUndefined)
  else strip y = strip (hd JUndefined l) /\ (exists r, _value u1 = JArr r (tl l)) /\
       (if _isMuted u then _emitCount u1 = _emitCount u else _emitCount u1 = S (_emitCount u)).
Proof.
  intros l. unfold shift.
  change (length l) with (listLength (next_ref w) u).
  destruct (_isFrozen u || Nat.eqb (listLength (next_ref w) u) 0) eqn:Eg; [reflexivity|].
  subst l. destruct (rawValue (next_ref w) u) as [h1 raw].
  destruct (deepCopyMaybe u (S h1) (hd JUndefined (listItems raw))) as [h2 y] eqn:Ed.
  pose proof (update_then_event (set_next_ref w h2) u (JArr h1 (tl (listItems raw)))
                (EventListUnitShift y)) as Hu.
  destruct (updateValueAndCache _ _ _ _ _) as [w3 u3].
  destruct Hu as (Hv & Hm & _). cbn [snd].
  split; [exact (deepCopyMaybe_strip_pair _ _ _ _ _ Ed)|]. split; [exists h1; exact Hv|exact Hm].
Qed.

Lemma push_effect (env : Environment) (w : world) (u : UnitState) (items : list jsval)
    (w1 : world) (u1 : UnitState) (n : nat) :
  _isFrozen u = false -> items <> [] -> push env w u items = Returns (w1, u1, n) ->
  exists r items', _value u1 = JArr r (listItems (snd (rawValue (next_ref w) u)) ++ items') /\
    map strip items' = map strip items /\ _isFrozen u1 = false.
Proof.
  intros Hf Hi H. unfold push in H. rewrite Hf in H.
  destruct items as [|x t]; [congruence|]. cbn [orb length Nat.eqb] in H.
  destruct (serializabilityFails env (JArr 0 (x :: t))); [discriminate|].
  destruct (rawValue (next_ref w) u) as [h1 raw].
  destruct (deepCopyItemsMaybe u (S h1) (x :: t)) as [h2 items'] eqn:Ed.
  pose proof (update_then_event (set_next_ref w h2) u (JArr h1 (listItems raw ++ items'))
                (EventListUnitPush (x :: t))) as Hu.
  destruct (updateValueAndCache _ _ _ _ _) as [w3 u3].
  injection H as _ <- _. destruct Hu as (Hv & _ & Hfr & _).
  exists h1, items'. repeat split; auto.
  - exact (deepCopyItemsMaybe_strip_pair _ _ _ _ _ Ed).
  - rewrite Hfr. exact Hf.
Qed.

Lemma unshift_effect (env : Environment) (w : world) (u : UnitState) (items : list jsval)
    (w1 : world) (u1 : UnitState) (n : nat) :
  _isFrozen u = false -> items <> [] -> unshift env w u items = Returns (w1, u1, n) ->
  exists r items', _value u1 = JArr r (items' ++ listItems (snd (rawValue (next_ref w) u))) /\
    map strip items' = map strip items /\ _isFrozen u1 = false.
Proof.
  intros Hf Hi H. unfold unshift in H. rewrite Hf in H.
  destruct items as [|x t]; [congruence|]. cbn [orb length Nat.eqb] in H.
  destruct (serializabilityFails env (JArr 0 (x :: t))); [discriminate|].
  destruct (rawValue (next_ref w) u) as [h1 raw].
  destruct (deepCopyItemsMaybe u (S h1) (x :: t)) as [h2 items'] eqn:Ed.
  pose proof (update_then_event (set_next_ref w h2) u (JArr h1 (items' ++ listItems raw))
                (EventListUnitUnshift (x :: t))) as Hu.
  destruct (updateValueAndCache _ _ _ _ _) as [w3 u3].
  injection H as _ <- _. destruct Hu as (Hv & _ & Hfr & _).
  exists h1, items'. repeat split; auto.
  - exact (deepCopyItemsMaybe_strip_pair _ _ _ _ _ Ed).
  - rewrite Hfr. exact Hf.
Qed.

Lemma pop_effect (w : world) (u : UnitState) (r : nat) (l : list jsval) :
  _isFrozen u = false -> _value u = JArr r l -> l <> [] ->
  let '(w1, u1, y) := pop w u in
  strip y = strip (last l JUndefined) /\ exists r', _value u1 = JArr r' (removelast l).
Proof.
  intros Hf Hv Hl. unfold pop. rewrite (listLength_arr _ _ _ _ Hv), Hf, (rawValue_arr _ _ _ _ Hv).
  destruct l as [|x t]; [congruence|]. cbn [orb length Nat.eqb listItems].
  destruct (deepCopyMaybe u _ _) as [h2 y] eqn:Ed.
  pose proof (update_then_event (set_next_ref w h2) u (JArr (next_ref w) (removelast (x :: t)))
                (EventListUnitPop y)) as Hu.
  destruct (updateValueAndCache _ _ _ _ _) as [w3 u3]. destruct Hu as (Hu & _).
  split; [exact (deepCopyMaybe_strip_pair _ _ _ _ _ Ed)|]. eexists; exact Hu.
Qed.

Lemma shift_effect (w : world) (u : UnitState) (r : nat) (l : list jsval) :
  _isFrozen u = false -> _value u = JArr r l -> l <> [] ->
  let '(w1, u1, y) := shift w u in
  strip y = strip (hd JUndefined l) /\ exists r', _value u1 = JArr r' (tl l).
Proof.
  intros Hf Hv Hl. unfold shift. rewrite (listLength_arr _ _ _ _ Hv), Hf, (rawValue_arr _ _ _ _ Hv).
  destruct l as [|x t]; [congruence|]. cbn [orb length Nat.eqb listItems].
  destruct (deepCopyMaybe u _ _) as [h2 y] eqn:Ed.
  pose proof (update_then_event (set_next_ref w h2) u (JArr (next_ref w) (tl (x :: t)))
                (EventListUnitShift y)) as Hu.
  destruct (updateValueAndCache _ _ _ _ _) as [w3 u3]. destruct Hu as (Hu & _).
  split; [exact (deepCopyMaybe_strip_pair _ _ _ _ _ Ed)|]. eexists; exact Hu.
Qed.

(** X21: On a ListUnit that is not frozen, pushing one item and then popping gives back (a copy of) that item and the original list. *)
Theorem push_then_pop (env : Environment) (w : world) (u : UnitState) (x : jsval)
    (w1 : world) (u1 : UnitState) (n : nat) :
  _isFrozen u = false -> push env w u [x] = Returns (w1, u1, n) ->
  let '(w2, u2, y) := pop w1 u1 in
  strip y = strip x /\ exists r, _value u2 = JArr r (listItems (snd (rawValue (next_ref w) u))).
Proof.
  intros Hf H.
  destruct (push_effect env w u [x] w1 u1 n Hf ltac:(discriminate) H) as (r & items' & Hv & Hs & Hf1).
  destruct items' as [|x' [|]]; try discriminate. injection Hs as Hs.
  pose proof (pop_effect w1 u1 r _ Hf1 Hv ltac:(destruct (listItems _); discriminate)) as Hp.
  destruct (pop w1 u1) as [[w2 u2] y]. rewrite last_last, removelast_last in Hp.
  rewrite <- Hs. exact Hp.
Qed.

(** X22: On a ListUnit that is not frozen, unshifting one item and then shifting gives back (a copy of) that item and the original list. *)
Theorem unshift_then_shift (env : Environment) (w : world) (u : UnitState) (x : jsval)
    (w1 : world) (u1 : UnitState) (n : nat) :
  _isFrozen u = false -> unshift env w u [x] = Returns (w1, u1, n) ->
  let '(w2, u2, y) := shift w1 u1 in
  strip y = strip x /\ exists r, _value u2 = JArr r (listItems (snd (rawValue (next_ref w) u))).
Proof.
  intros Hf H.
  destruct (unshift_effect env w u [x] w1 u1 n Hf ltac:(discriminate) H) as (r & items' & Hv & Hs & Hf1).
  destruct items' as [|x' [|]]; try discriminate. injection Hs as Hs.
  pose proof (shift_effect w1 u1 r _ Hf1 Hv ltac:(discriminate)) as Hp.
  destruct (shift w1 u1) as [[w2 u2] y]. cbn [hd tl app] in Hp.
  rewrite <- Hs. exact Hp.
Qed.


Lemma push_then_pop_witness :
  _isFrozen (snd listA) = false /\
  push env0 (fst listA) (snd listA) [str "b"] =
    Returns (fst (fst listPushedB), snd (fst listPushedB), snd listPushedB) /\
  let '(w2, u2, y) := pop (fst (fst listPushedB)) (snd (fst listPushedB)) in
  strip y = strip (str "b") /\
  exists r, _value u2 = JArr r (listItems (snd (rawValue (next_ref (fst listA)) (snd listA)))).
Proof.
  assert (H1 : _isFrozen (snd listA) = false) by by_eval.
  assert (H2 : push env0 (fst listA) (snd listA) [str "b"] =
               Returns (fst (fst listPushedB), snd (fst listPushedB), snd listPushedB)) by by_eval.
  split; [exact H1|split; [exact H2|]]. exact (push_then_pop _ _ _ _ _ _ _ H1 H2).
Defined.

Lemma unshift_then_shift_witness :
  _isFrozen (snd listA) = false /\
  unshift env0 (fst listA) (snd listA) [str "b"] =
    Returns (fst (fst listUnshiftedB), snd (fst listUnshiftedB), snd listUnshiftedB) /\
  let '(w2, u2, y) := shift (fst (fst listUnshiftedB)) (snd (fst listUnshiftedB)) in
  strip y = strip (str "b") /\
  exists r, _value u2 = JArr r (listItems (snd (rawValue (next_ref (fst listA)) (snd listA)))).
Proof.
  assert (H1 : _isFrozen (snd listA) = false) by by_eval.
  assert (H2 : unshift env0 (fst listA) (snd listA) [str "b"] =
               Returns (fst (fst listUnshiftedB), snd (fst listUnshiftedB), snd listUnshiftedB)) by by_eval.
  split; [exact H1|split; [exact H2|]]. exact (unshift_then_shift _ _ _ _ _ _ _ H1 H2).
Defined.

Lemma splice_effect (env : Environment) (w : world) (u : UnitState) (start : num)
    (deleteCount : option num) (items : list jsval) :
  _isFrozen u = false ->
  ((looseEqZero deleteCount || Nat.eqb (listLength (next_ref w) u) 0) && Nat.eqb (length items) 0) = false ->
  serializabilityFails env (JArr 0 items) = false ->
  let l := listItems (snd (rawValue (next_ref w) u)) in
  let s := spliceStart start (length l) in
  let d := spliceDeleteCount deleteCount (length l) s in
  exists w1 u1 removed, splice env w u start deleteCount items = Returns (w1, u1, removed) /\
    strip removed = SArr (map strip (firstn d (skipn s l))) /\
    (exists r items', _value u1 = JArr r (firstn s l ++ items' ++ skipn (s + d) l) /\
       map strip items' = map strip items) /\
    _isFrozen u1 = false /\
    (if _isMuted u then _emitCount u1 = _emitCount u else _emitCount u1 = S (_emitCount u)).
Proof.
  intros Hf Hg Hs l s d. unfold splice. rewrite Hf, Hg, Hs. cbn [orb].
  subst l s d. destruct (rawValue (next_ref w) u) as [h1 raw]. cbn [snd].
  destruct (deepCopyItemsMaybe u (S h1) items) as [h2 items'] eqn:Ed.
  set (s := spliceStart start (length (listItems raw))).
  set (d := spliceDeleteCount deleteCount (length (listItems raw)) s).
  destruct (deepCopyMaybe u (S h2) (JArr h2 (firstn d (skipn s (listItems raw))))) as [h3 rem] eqn:Er.
  pose proof (update_then_event (set_next_ref w h3) u
                (JArr h1 (firstn s (listItems raw) ++ items' ++ skipn (s + d) (listItems raw)))
                (EventListUnitSplice start deleteCount rem items)) as Hu.
  destruct (updateValueAndCache _ _ _ _ _) as [w4 u4].
  destruct Hu as (Hv & Hm & Hfr & _).
  do 3 eexists. split; [reflexivity|]. split.
  - rewrite (deepCopyMaybe_strip_pair _ _ _ _ _ Er). reflexivity.
  - split; [exists h1, items'; split; [exact Hv|exact (deepCopyItemsMaybe_strip_pair _ _ _ _ _ Ed)]|].
    split; [rewrite Hfr; exact Hf|exact Hm].
Qed.

(** X23: ListUnit's [splice] throws only for non-serializable items; when frozen, or when nothing is to be deleted or the list is empty and no items are given, it leaves the Unit unchanged and returns an empty array; otherwise it removes the deleted range, inserts (copies of) the items at the start, returns the removed items and emits unless muted. *)
Theorem splice_spec (env : Environment) (w : world) (u : UnitState) (start : num)
    (deleteCount : option num) (items : list jsval) :
  let l := listItems (snd (rawValue (next_ref w) u)) in
  let s := spliceStart start (length l) in
  let d := spliceDeleteCount deleteCount (length l) s in
  match splice env w u start deleteCount items with
  | Throws _ => serializabilityFails env (JArr 0 items) = true
  | Returns (w1, u1, removed) =>
      if _isFrozen u || ((looseEqZero deleteCount || Nat.eqb (length l) 0) && Nat.eqb (length items) 0)
      then u1 = u /\ removed = JArr (next_ref w) [] /\ next_ref w1 = S (next_ref w)
      else strip removed = SArr (map strip (firstn d (skipn s l))) /\
           (exists r items', _value u1 = JArr r (firstn s l ++ items' ++ skipn (s + d) l) /\
              map strip items' = map strip items) /\
           (if _isMuted u then _emitCount u1 = _emitCount u else _emitCount u1 = S (_emitCount u))
  end.
Proof.
  intros l s d. change (length l) with (listLength (next_ref w) u).
  destruct (_isFrozen u || ((looseEqZero deleteCount || Nat.eqb (listLength (next_ref w) u) 0)
                            && Nat.eqb (length items) 0)) eqn:Eg.
  - unfold splice. rewrite Eg. repeat split.
  - apply orb_false_iff in Eg as [Ef Eg].
    destruct (serializabilityFails env (JArr 0 items)) eqn:Es.
    + unfold splice. rewrite Ef, Eg, Es. reflexivity.
    + destruct (splice_effect env w u start deleteCount items Ef Eg Es)
        as (w1 & u1 & removed & -> & H1 & H2 & _ & H3).
      repeat split; assumption.
Qed.

(** X24: On a non-empty, unfrozen, unmuted ListUnit, [splice(start)] with no deleteCount and no items still emits (the list unchanged, an empty array returned), whereas [splice(start, 0)] leaves the Unit as it was. *)
Theorem splice_without_deleteCount (env : Environment) (w : world) (u : UnitState) (start : num) :
  _isFrozen u = false -> listLength (next_ref w) u <> 0 -> _isMuted u = false ->
  (match splice env w u start None [] with
   | Returns (w1, u1, removed) =>
       (exists r, _value u1 = JArr r (listItems (snd (rawValue (next_ref w) u)))) /\
       strip removed = SArr [] /\ _emitCount u1 = S (_emitCount u)
   | Throws _ => False
   end) /\
  (match splice env w u start (Some (NFin 0)) [] with
   | Returns (w1, u1, removed) => u1 = u
   | Throws _ => False
   end).
Proof.
  intros Hf Hl Hm. split.
  - assert (Hs : serializabilityFails env (JArr 0 []) = false)
      by (unfold serializabilityFails; cbn; apply andb_false_r).
    assert (Hg : ((looseEqZero None || Nat.eqb (listLength (next_ref w) u) 0) && Nat.eqb (length (@nil jsval)) 0)
                 = false) by (cbn [looseEqZero orb]; rewrite (proj2 (Nat.eqb_neq _ _) Hl); reflexivity).
    destruct (splice_effect env w u start None [] Hf Hg Hs)
      as (w1 & u1 & removed & -> & H1 & (r & items' & H2 & H3) & _ & H4).
    destruct items' as [|? ?]; [|discriminate]. rewrite Hm in H4.
    cbn [spliceDeleteCount firstn app] in H1, H2. rewrite Nat.add_0_r, firstn_skipn in H2.
    repeat split; [exists r; exact H2|exact H1|exact H4].
  - unfold splice. rewrite Hf. cbn. reflexivity.
Qed.

Lemma arraySet_length (c : list jsval) (i : nat) (v : jsval) :
  length (arraySet c i v) = Nat.max (S i) (length c).
Proof.
  unfold arraySet. destruct (Nat.ltb i (length c)) eqn:E.
  - apply Nat.ltb_lt in E. rewrite !length_app, length_firstn, length_skipn.
    change (length [v]) with 1. lia.
  - apply Nat.ltb_ge in E. rewrite !length_app, repeat_length. change (length [v]) with 1. lia.
Qed.

Lemma arraySet_nth (c : list jsval) (i k : nat) (v : jsval) :
  nth k (arraySet c i v) JUndefined = if Nat.eqb k i then v else nth k c JUndefined.
Proof.
  unfold arraySet. destruct (Nat.ltb i (length c)) eqn:E.
  - apply Nat.ltb_lt in E. assert (Hf : length (firstn i c) = i) by (rewrite length_firstn; lia).
    destruct (Nat.lt_trichotomy k i) as [Hk|[Hk|Hk]].
    + rewrite app_nth1 by lia. rewrite nth_firstn.
      replace (k <? i) with true by (symmetry; apply Nat.ltb_lt; lia).
      replace (Nat.eqb k i) with false by (symmetry; apply Nat.eqb_neq; lia). reflexivity.
    + subst k. rewrite app_nth2 by lia. rewrite Hf, Nat.sub_diag, Nat.eqb_refl. reflexivity.
    + rewrite app_nth2 by lia. rewrite Hf.
      replace (Nat.eqb k i) with false by (symmetry; apply Nat.eqb_neq; lia).
      replace (k - i) with (S (k - S i)) by lia. cbn [app nth].
      rewrite nth_skipn. f_equal. lia.
  - apply Nat.ltb_ge in E.
    destruct (Nat.lt_ge_cases k (length c)) as [Hk|Hk].
    + rewrite app_nth1 by lia.
      replace (Nat.eqb k i) with false by (symmetry; apply Nat.eqb_neq; lia). reflexivity.
    + rewrite app_nth2 by lia. rewrite (nth_overflow c JUndefined Hk).
      destruct (Nat.lt_trichotomy k i) as [Hk'|[Hk'|Hk']].
      * rewrite app_nth1 by (rewrite repeat_length; lia). rewrite nth_repeat.
        replace (Nat.eqb k i) with false by (symmetry; apply Nat.eqb_neq; lia). reflexivity.
      * subst k. rewrite app_nth2 by (rewrite repeat_length; lia).
        rewrite repeat_length, Nat.eqb_refl. replace (i - length c - (i - length c)) with 0 by lia.
        reflexivity.
      * rewrite app_nth2 by (rewrite repeat_length; lia). rewrite repeat_length.
        replace (Nat.eqb k i) with false by (symmetry; apply Nat.eqb_neq; lia).
        apply nth_overflow. cbn. lia.
Qed.

(** X25: ListUnit's [set] with an invalid index or on a frozen Unit changes nothing; it throws only for a non-serializable item; otherwise index i gets (a copy of) the item, the list grows to at least i+1 items, other positions keep their items, and the Unit emits unless muted. *)
Theorem set_spec (env : Environment) (w : world) (u : UnitState) (index : num) (item : jsval) :
  let l := listItems (snd (rawValue (next_ref w) u)) in
  match set env w u index item with
  | Throws _ => _isFrozen u = false /\ isValidIndex index = true /\ serializabilityFails env item = true
  | Returns (w1, u1) =>
      if _isFrozen u || negb (isValidIndex index) then (w1, u1) = (w, u)
      else exists i r l', index = NFin (Z.of_nat i) /\ _value u1 = JArr r l' /\
        length l' = Nat.max (S i) (length l) /\ strip (nth i l' JUndefined) = strip item /\
        (forall k, k <> i -> nth k l' JUndefined = nth k l JUndefined) /\
        (if _isMuted u then _emitCount u1 = _emitCount u else _emitCount u1 = S (_emitCount u))
  end.
Proof.
  intros l. unfold set.
  destruct (_isFrozen u || negb (isValidIndex index)) eqn:Eg; [reflexivity|].
  apply orb_false_iff in Eg as [Ef Ev]. apply negb_false_iff in Ev.
  destruct (serializabilityFails env item) eqn:Es; [repeat split; assumption|].
  destruct index as [z| | |]; try discriminate.
  assert (Hz : (0 <= z)%Z) by (cbn in Ev; apply andb_true_iff in Ev as [H _]; apply Z.leb_le in H; exact H).
  subst l. destruct (rawValue (next_ref w) u) as [h1 raw]. cbn [snd].
  assert (Hn : normalizeIndex (NFin z) (length (listItems raw)) = NFin z)
    by (unfold normalizeIndex; replace (z <? 0)%Z with false by (symmetry; apply Z.ltb_ge; lia); reflexivity).
  rewrite Hn.
  destruct (deepCopyMaybe u (S h1) item) as [h2 item'] eqn:Ed.
  pose proof (update_then_event (set_next_ref w h2) u (JArr h1 (arraySet (listItems raw) (Z.to_nat z) item'))
                (EventListUnitSet (NFin z) item)) as Hu.
  destruct (updateValueAndCache _ _ _ _ _) as [w3 u3]. destruct Hu as (Hv & Hm & _).
  exists (Z.to_nat z), h1, (arraySet (listItems raw) (Z.to_nat z) item').
  repeat split; auto.
  - f_equal. lia.
  - apply arraySet_length.
  - rewrite arraySet_nth, Nat.eqb_refl. exact (deepCopyMaybe_strip_pair _ _ _ _ _ Ed).
  - intros k Hk. rewrite arraySet_nth. apply Nat.eqb_neq in Hk. rewrite Hk. reflexivity.
Qed.

Lemma spliceStart_le (start : num) (len : nat) : spliceStart start len <= len.
Proof.
  unfold spliceStart. cbv zeta. destruct start as [z| | |]; try lia.
  destruct (z <? 0)%Z eqn:E; [apply Z.ltb_lt in E|]; lia.
Qed.

(** X26: ListUnit's [insert] of no items or on a frozen Unit changes nothing and returns the length; it throws only for non-serializable items; otherwise (copies of) the items are inserted at the normalized start and the new length is returned. *)
Theorem insert_spec (env : Environment) (w : world) (u : UnitState) (start : num) (items : list jsval) :
  let l := listItems (snd (rawValue (next_ref w) u)) in
  let s := spliceStart start (length l) in
  match insert env w u start items with
  | Throws _ => _isFrozen u = false /\ items <> [] /\ serializabilityFails env (JArr 0 items) = true
  | Returns (w1, u1, n) =>
      if _isFrozen u || Nat.eqb (length items) 0 then (w1, u1) = (w, u) /\ n = length l
      else n = length l + length items /\
           exists r items', _value u1 = JArr r (firstn s l ++ items' ++ skipn s l) /\
             map strip items' = map strip items
  end.
Proof.
  intros l s. unfold insert.
  destruct (_isFrozen u || Nat.eqb (length items) 0) eqn:Eg; [split; reflexivity|].
  apply orb_false_iff in Eg as [Ef Ei].
  destruct (serializabilityFails env (JArr 0 items)) eqn:Es.
  { repeat split; auto. intros ->. discriminate. }
  assert (Hg : ((looseEqZero (Some (NFin 0)) || Nat.eqb (listLength (next_ref w) u) 0)
                && Nat.eqb (length items) 0) = false) by (rewrite Ei; apply andb_false_r).
  destruct (splice_effect env w u start (Some (NFin 0)) items Ef Hg Es)
    as (w1 & u1 & removed & -> & _ & (r & items' & Hv & Hs) & _).
  fold l s in Hv. replace (spliceDeleteCount (Some (NFin 0)) (length l) s) with 0 in Hv
    by (cbn; lia). rewrite Nat.add_0_r in Hv.
  split; [|exists r, items'; split; assumption].
  rewrite (listLength_arr _ _ _ _ Hv).
  pose proof (f_equal (@length _) Hs) as Hl. rewrite !length_map in Hl.
  pose proof (spliceStart_le start (length l)) as Hle. fold s in Hle.
  rewrite !length_app, length_firstn, length_skipn, Hl. lia.
Qed.

Lemma fill_nth (l : list jsval) (x : jsval) (s e k : nat) :
  s <= length l -> e <= length l ->
  nth k (firstn s l ++ repeat x (e - s) ++ skipn (Nat.max s e) l) JUndefined =
  if (s <=? k) && (k <? e) then x else nth k l JUndefined.
Proof.
  intros Hs He. assert (Hf : length (firstn s l) = s) by (rewrite length_firstn; lia).
  destruct (Nat.lt_ge_cases k s) as [Hk|Hk].
  - rewrite app_nth1 by lia. rewrite nth_firstn.
    replace (k <? s) with true by (symmetry; apply Nat.ltb_lt; lia).
    replace (s <=? k) with false by (symmetry; apply Nat.leb_gt; lia). reflexivity.
  - rewrite app_nth2 by lia. rewrite Hf.
    replace (s <=? k) with true by (symmetry; apply Nat.leb_le; lia). cbn [andb].
    destruct (Nat.lt_ge_cases k e) as [Hk'|Hk'].
    + rewrite app_nth1 by (rewrite repeat_length; lia). rewrite nth_repeat_lt by lia.
      replace (k <? e) with true by (symmetry; apply Nat.ltb_lt; lia). reflexivity.
    + rewrite app_nth2 by (rewrite repeat_length; lia). rewrite repeat_length, nth_skipn.
      replace (k <? e) with false by (symmetry; apply Nat.ltb_ge; lia). f_equal. lia.
Qed.

(** X27: ListUnit's [fill] on a frozen or empty list changes nothing; it throws only for a non-serializable item; otherwise the length is kept, the positions from start to end hold one copy of the item, the others keep their items, and the Unit emits unless muted. *)
Theorem fill_spec (env : Environment) (w : world) (u : UnitState) (item : jsval)
    (start end_ : option num) :
  let l := listItems (snd (rawValue (next_ref w) u)) in
  let s := fillStart start (length l) in
  let e := fillEnd end_ (length l) in
  match fill env w u item start end_ with
  | Throws _ => _isFrozen u = false /\ length l <> 0 /\ serializabilityFails env item = true
  | Returns (w1, u1) =>
      if _isFrozen u || Nat.eqb (length l) 0 then (w1, u1) = (w, u)
      else exists r l' item', _value u1 = JArr r l' /\ length l' = length l /\
        strip item' = strip item /\
        (forall k, nth k l' JUndefined = if (s <=? k) && (k <? e) then item' else nth k l JUndefined) /\
        (if _isMuted u then _emitCount u1 = _emitCount u else _emitCount u1 = S (_emitCount u))
  end.
Proof.
  intros l s e. change (length l) with (listLength (next_ref w) u). unfold fill.
  destruct (_isFrozen u || Nat.eqb (listLength (next_ref w) u) 0) eqn:Eg; [reflexivity|].
  apply orb_false_iff in Eg as [Ef El]. apply Nat.eqb_neq in El.
  destruct (serializabilityFails env item) eqn:Es; [repeat split; assumption|].
  subst l s e. unfold listLength in *. destruct (rawValue (next_ref w) u) as [h1 raw]. cbn [snd] in *.
  destruct (deepCopyMaybe u (S h1) item) as [h2 item'] eqn:Ed.
  set (l := listItems raw) in *.
  set (s := fillStart start (length l)). set (e := fillEnd end_ (length l)).
  assert (Hs : s <= length l) by (unfold s, fillStart; destruct start; [apply spliceStart_le|lia]).
  assert (He : e <= length l) by (unfold e, fillEnd; destruct end_; [apply spliceStart_le|lia]).
  pose proof (update_then_event (set_next_ref w h2) u
                (JArr h1 (firstn s l ++ repeat item' (e - s) ++ skipn (Nat.max s e) l))
                (EventListUnitFill item start end_)) as Hu.
  destruct (updateValueAndCache _ _ _ _ _) as [w3 u3]. destruct Hu as (Hv & Hm & _).
  eexists h1, _, item'. split; [exact Hv|]. split.
  - rewrite !length_app, length_firstn, repeat_length, length_skipn. lia.
  - split; [exact (deepCopyMaybe_strip_pair _ _ _ _ _ Ed)|]. split; [|exact Hm].
    intros k. apply fill_nth; assumption.
Qed.

Lemma reverse_effect (w : world) (u : UnitState) :
  _isFrozen u = false -> length (listItems (snd (rawValue (next_ref w) u))) <> 0 ->
  let '(w1, u1) := reverse w u in
  (exists r, _value u1 = JArr r (rev (listItems (snd (rawValue (next_ref w) u))))) /\
  _isFrozen u1 = false /\ _isMuted u1 = _isMuted u /\
  (if _isMuted u then _emitCount u1 = _emitCount u else _emitCount u1 = S (_emitCount u)).
Proof.
  intros Hf Hl. unfold reverse. unfold listLength.
  rewrite Hf, (proj2 (Nat.eqb_neq _ _) Hl). cbn [orb].
  destruct (rawValue (next_ref w) u) as [h1 raw]. cbn [snd] in *.
  pose proof (update_then_event (set_next_ref w (S h1)) u (JArr h1 (rev (listItems raw)))
                EventListUnitReverse) as Hu.
  destruct (updateValueAndCache _ _ _ _ _) as [w2 u2]. destruct Hu as (Hv & Hm & Hfr & _ & _ & Hmu).
  split; [exists h1; exact Hv|]. rewrite Hfr, Hmu. auto.
Qed.

(** X28: ListUnit's [reverse] applied twice gives back the original list (emitting twice unless muted); on a frozen or empty list both calls change nothing. *)
Theorem reverse_twice (w : world) (u : UnitState) :
  let l := listItems (snd (rawValue (next_ref w) u)) in
  let '(w1, u1) := reverse w u in
  let '(w2, u2) := reverse w1 u1 in
  if _isFrozen u || Nat.eqb (length l) 0 then (w2, u2) = (w, u)
  else (exists r, _value u2 = JArr r l) /\
       (if _isMuted u then _emitCount u2 = _emitCount u else _emitCount u2 = S (S (_emitCount u))).
Proof.
  intros l. destruct (_isFrozen u || Nat.eqb (length l) 0) eqn:Eg.
  - assert (E : reverse w u = (w, u)) by (unfold reverse, listLength; fold l; rewrite Eg; reflexivity).
    rewrite E, E. reflexivity.
  - apply orb_false_iff in Eg as [Ef El]. apply Nat.eqb_neq in El.
    pose proof (reverse_effect w u Ef El) as H1. fold l in H1.
    destruct (reverse w u) as [w1 u1]. destruct H1 as ([r Hv] & Hf1 & Hm1 & He1).
    assert (Hl1 : length (listItems (snd (rawValue (next_ref w1) u1))) <> 0)
      by (rewrite (rawValue_arr _ _ _ _ Hv); cbn; rewrite length_rev; exact El).
    pose proof (reverse_effect w1 u1 Hf1 Hl1) as H2.
    destruct (reverse w1 u1) as [w2 u2]. destruct H2 as ([r' Hv'] & _ & _ & He2).
    rewrite (rawValue_arr _ _ _ _ Hv) in Hv'. cbn [snd listItems] in Hv'. rewrite rev_involutive in Hv'.
    split; [exists r'; exact Hv'|]. rewrite Hm1 in He2.
    destruct (_isMuted u); congruence.
Qed.

Lemma countsDiffer_refl (c : nat * nat * nat * nat) : countsDiffer c c = false.
Proof. destruct c as [[[a b] d] e]. cbn. rewrite !Nat.eqb_refl. reflexivity. Qed.

(** X29: Pausing the relationships of an AsyncSystem that is not paused stops them, pausing again changes nothing, and resuming gives back the system as it was. *)
Theorem pause_then_resume (s : AsyncSystemState) (saved : option (nat * nat * nat * nat)) :
  relationshipsManuallyPaused s = false ->
  relationshipsWorking (fst (pauseRelationships s saved)) = false /\
  pauseRelationships (fst (pauseRelationships s saved)) (snd (pauseRelationships s saved)) =
    pauseRelationships s saved /\
  resumeRelationships (fst (pauseRelationships s saved)) (snd (pauseRelationships s saved)) = Returns s.
Proof.
  intros Hp. unfold pauseRelationships. rewrite Hp. cbn [fst snd relationshipsManuallyPaused set_manuallyPaused].
  split; [unfold relationshipsWorking; cbn; apply andb_false_r|]. split; [reflexivity|].
  unfold resumeRelationships. cbn [relationshipsManuallyPaused set_manuallyPaused negb].
  change (unitsEmitCounts (set_manuallyPaused (set_manuallyPaused s true) false)) with (unitsEmitCounts s).
  rewrite countsDiffer_refl. f_equal. destruct s; cbn in Hp; subst; reflexivity.
Qed.

(** X30: While an AsyncSystem's relationships are paused, a dispatch to its data Unit changes no other member and the system does not emit; on resume the system emits exactly when the data Unit emitted in the meantime. *)
Theorem pause_dispatchToData_resume (env : Environment) (w : world) (s : AsyncSystemState)
    (saved : option (nat * nat * nat * nat)) (v : jsval) (o : DispatchOptions)
    (w2 : world) (s2 : AsyncSystemState) (b : bool) :
  relationshipsManuallyPaused s = false ->
  dispatchToData env w (fst (pauseRelationships s saved)) v o = Returns (w2, s2, b) ->
  queryUnit s2 = queryUnit s /\ errorUnit s2 = errorUnit s /\ pendingUnit s2 = pendingUnit s /\
  sys_emitCount s2 = sys_emitCount s /\ relationshipsManuallyPaused s2 = true /\
  resumeRelationships s2 (snd (pauseRelationships s saved)) =
    Returns (if Nat.eqb (_emitCount (dataUnit s2)) (_emitCount (dataUnit s))
             then set_manuallyPaused s2 false else sysEmit (set_manuallyPaused s2 false)).
Proof.
  intros Hp H. unfold pauseRelationships in *. rewrite Hp in *. cbn [fst snd] in *.
  unfold dispatchToData in H.
  destruct (dispatch env w (dataUnit (set_manuallyPaused s true)) (DValue v) o) as [[[w1 u1] b1]|m];
    [|discriminate].
  assert (E : (if Nat.ltb (_emitCount (dataUnit (set_manuallyPaused s true))) (_emitCount u1)
               then onMemberEmit env reactionFuel RData w1 (set_member (set_manuallyPaused s true) RData u1)
               else (w1, set_member (set_manuallyPaused s true) RData u1)) =
              (w1, set_member (set_manuallyPaused s true) RData u1)).
  { destruct (Nat.ltb _ _); [|reflexivity]. cbn [reactionFuel onMemberEmit subscriber].
    unfold relationshipsWorking. cbn. rewrite andb_false_r. reflexivity. }
  rewrite E in H. injection H as <- <- <-.
  cbn. repeat split.
  unfold resumeRelationships, countsDiffer, unitsEmitCounts. cbn.
  rewrite !Nat.eqb_refl. cbn [andb]. rewrite Nat.eqb_sym.
  destruct (Nat.eqb (_emitCount u1) (_emitCount (dataUnit s))); reflexivity.
Qed.

Lemma pause_then_resume_witness :
  relationshipsManuallyPaused sysDefault = false /\
  relationshipsWorking (fst (pauseRelationships sysDefault None)) = false /\
  pauseRelationships (fst (pauseRelationships sysDefault None)) (snd (pauseRelationships sysDefault None)) =
    pauseRelationships sysDefault None /\
  resumeRelationships (fst (pauseRelationships sysDefault None)) (snd (pauseRelationships sysDefault None)) =
    Returns sysDefault.
Proof.
  assert (H : relationshipsManuallyPaused sysDefault = false) by by_eval.
  split; [exact H|]. exact (pause_then_resume sysDefault None H).
Defined.

Lemma pause_dispatchToData_resume_witness :
  relationshipsManuallyPaused sysDefault = false /\
  dispatchToData env0 w0 (fst (pauseRelationships sysDefault None)) (str "data") noOptions =
    Returns sysPausedData /\
  let '(w2, s2, b) := sysPausedData in
  queryUnit s2 = queryUnit sysDefault /\ errorUnit s2 = errorUnit sysDefault /\
  pendingUnit s2 = pendingUnit sysDefault /\ sys_emitCount s2 = sys_emitCount sysDefault /\
  relationshipsManuallyPaused s2 = true /\
  resumeRelationships s2 (snd (pauseRelationships sysDefault None)) =
    Returns (if Nat.eqb (_emitCount (dataUnit s2)) (_emitCount (dataUnit sysDefault))
             then set_manuallyPaused s2 false else sysEmit (set_manuallyPaused s2 false)).
Proof.
  assert (H1 : relationshipsManuallyPaused sysDefault = false) by by_eval.
  assert (H2 : dispatchToData env0 w0 (fst (pauseRelationships sysDefault None)) (str "data") noOptions =
               Returns sysPausedData) by by_eval.
  split; [exact H1|split; [exact H2|]].
  destruct sysPausedData as [[w2 s2] b] eqn:E.
  exact (pause_dispatchToData_resume env0 w0 sysDefault None (str "data") noOptions w2 s2 b H1 H2).
Defined.

Lemma splice_without_deleteCount_witness :
  _isFrozen (snd listA) = false /\ listLength (next_ref (fst listA)) (snd listA) <> 0 /\
  _isMuted (snd listA) = false /\
  (match splice env0 (fst listA) (snd listA) (NFin 0) None [] with
   | Returns (w1, u1, removed) =>
       (exists r, _value u1 = JArr r (listItems (snd (rawValue (next_ref (fst listA)) (snd listA))))) /\
       strip removed = SArr [] /\ _emitCount u1 = S (_emitCount (snd listA))
   | Throws _ => False
   end) /\
  (match splice env0 (fst listA) (snd listA) (NFin 0) (Some (NFin 0)) [] with
   | Returns (w1, u1, removed) => u1 = snd listA
   | Throws _ => False
   end).
Proof.
  assert (H1 : _isFrozen (snd listA) = false) by by_eval.
  assert (H2 : listLength (next_ref (fst listA)) (snd listA) <> 0) by by_eval.
  assert (H3 : _isMuted (snd listA) = false) by by_eval.
  split; [exact H1|split; [exact H2|split; [exact H3|]]].
  exact (splice_without_deleteCount env0 (fst listA) (snd listA) (NFin 0) H1 H2 H3).
Defined.
